(** * Scholarship pipeline: a shallow embedding of the parsing, deduplication,
    link-validation and scraping code, with the properties its specification
    states about them.

    Python values are modelled as follows.
    - [str] is a list of Unicode code points ([pystr]); literals of the source
      are written [u "..."] (ASCII) and the rupee sign is code point 8377.
    - [float] and [Decimal] are exact rationals ([Q]) wherever no result
      depends on how a float operation rounds; [_compare_amounts] and
      [_calculate_overall_similarity] are also given on floats, with the
      rounding of every operation and the infinities ([DedupFloat]), and
      their own properties are stated there.
    - [datetime] is the number of microseconds since 0001-01-01T00:00, [date]
      the proleptic Gregorian ordinal; the clock ([datetime.now()]) is an
      explicit argument.
    - an exception is the [None] of an [option] or a constructor of a result
      type, and [try]/[except] is a match on it. *)

From Stdlib Require Import ZArith QArith Qabs List String Ascii Bool Lia Lqa.
From stdpp Require Import base option list gmap.
Import ListNotations.
Local Open Scope Z_scope.

(** ** Python strings *)

Module Py.

Definition pystr := list Z.

Definition u (s : string) : pystr :=
  List.map (fun a => Z.of_N (N_of_ascii a)) (list_ascii_of_string s).

Definition rupee_sign : Z := 8377.

Definition is_ascii_digit (c : Z) : bool := (48 <=? c) && (c <=? 57).
Definition is_ascii_upper (c : Z) : bool := (65 <=? c) && (c <=? 90).
Definition is_ascii_lower (c : Z) : bool := (97 <=? c) && (c <=? 122).

(** [\w] on the ASCII range; code points above 127 used below (the rupee sign)
    are not word characters. *)
Definition is_word (c : Z) : bool :=
  is_ascii_digit c || is_ascii_upper c || is_ascii_lower c || (c =? 95).

(** [str.isspace] / [\s]: the Unicode white space code points. *)
Definition is_space (c : Z) : bool :=
  ((9 <=? c) && (c <=? 13)) || ((28 <=? c) && (c <=? 32)) || (c =? 133) ||
  (c =? 160) || (c =? 5760) || ((8192 <=? c) && (c <=? 8202)) ||
  (c =? 8232) || (c =? 8233) || (c =? 8239) || (c =? 8287) || (c =? 12288).

(** [str.lower] on the ASCII range. *)
Definition lower_char (c : Z) : Z := if is_ascii_upper c then c + 32 else c.
Definition lower (s : pystr) : pystr := List.map lower_char s.

Fixpoint lstrip (s : pystr) : pystr :=
  match s with
  | c :: t => if is_space c then lstrip t else s
  | [] => []
  end.

Definition rstrip (s : pystr) : pystr := rev (lstrip (rev s)).
Definition strip (s : pystr) : pystr := rstrip (lstrip s).

Definition len (s : pystr) : Z := Z.of_nat (length s).

Fixpoint str_eqb (a b : pystr) : bool :=
  match a, b with
  | [], [] => true
  | x :: a', y :: b' => (x =? y) && str_eqb a' b'
  | _, _ => false
  end.

Fixpoint startswith (s p : pystr) : bool :=
  match p, s with
  | [], _ => true
  | x :: p', y :: s' => (x =? y) && startswith s' p'
  | _ :: _, [] => false
  end.

Definition endswith (s p : pystr) : bool := startswith (rev s) (rev p).

(** [p in s] *)
Fixpoint contains (s p : pystr) : bool :=
  startswith s p || match s with [] => false | _ :: t => contains t p end.

(** [s.replace(c, "")] for a one-character [c]. *)
Definition remove_char (c : Z) (s : pystr) : pystr :=
  List.filter (fun x => negb (x =? c)) s.

(** [sep.join(l)] *)
Fixpoint join (sep : pystr) (l : list pystr) : pystr :=
  match l with
  | [] => []
  | [x] => x
  | x :: t => x ++ sep ++ join sep t
  end.

(** [str.split()] with no argument: maximal runs of non-space characters. *)
Fixpoint split_ws_aux (cur : pystr) (s : pystr) : list pystr :=
  match s with
  | [] => match cur with [] => [] | _ => [rev cur] end
  | c :: t =>
      if is_space c
      then match cur with [] => split_ws_aux [] t | _ => rev cur :: split_ws_aux [] t end
      else split_ws_aux (c :: cur) t
  end.
Definition split_ws (s : pystr) : list pystr := split_ws_aux [] s.

(** [int(s)] for a string of ASCII decimal digits. *)
Definition digit_val (c : Z) : Z := c - 48.
Definition int_of_digits (s : pystr) : Z :=
  fold_left (fun acc c => acc * 10 + digit_val c) s 0.

End Py.

(** ** Regular expressions of Python's [re]: a backtracking matcher

    The matcher follows [re]'s search order: alternatives left to right,
    greedy repetition, leftmost match.  A continuation receives the state
    after a sub-pattern; backtracking restores the captures because states
    are values. *)

Module Re.
Import Py.

Inductive cset : Type :=
| CChar (c : Z)
| CRange (lo hi : Z)
| CDigit
| CWord
| CSpace
| CNotWord
| CNotWordSpace.            (* [^\w\s] *)

Inductive regex : Type :=
| Eps
| Chr (c : Z)
| Cls (alts : list cset)            (* [...] or a class escape *)
| Seq (a b : regex)
| Alt (a b : regex)
| Rep (lo : nat) (hi : option nat) (a : regex)   (* greedy a{lo,hi}; [None]: no upper bound *)
| Grp (i : nat) (a : regex)         (* capturing group number i *)
| WordB.                            (* \b *)

Record mstate := MState {
  prev : option Z;                  (* the character before the position *)
  rest : pystr;                     (* the text from the position on *)
  caps : list (nat * pystr)         (* groups captured so far, latest first *)
}.

Definition cset_in (ci : bool) (c : Z) (k : cset) : bool :=
  match k with
  | CChar x => if ci then lower_char c =? lower_char x else c =? x
  | CRange lo hi => (lo <=? c) && (c <=? hi)
  | CDigit => is_ascii_digit c
  | CWord => is_word c
  | CSpace => is_space c
  | CNotWord => negb (is_word c)
  | CNotWordSpace => negb (is_word c) && negb (is_space c)
  end.

Definition step_char (ci : bool) (ks : list cset) (st : mstate) : option mstate :=
  match rest st with
  | c :: t => if existsb (cset_in ci c) ks
              then Some (MState (Some c) t (caps st)) else None
  | [] => None
  end.

Definition at_boundary (st : mstate) : bool :=
  let before := match prev st with Some c => is_word c | None => false end in
  let after := match rest st with c :: _ => is_word c | [] => false end in
  xorb before after.

Definition consumed (st st' : mstate) : pystr :=
  firstn (length (rest st) - length (rest st')) (rest st).

Section Matcher.
Context {R : Type}.
Variable ci : bool.               (* re.IGNORECASE *)

Fixpoint mtch (r : regex) (st : mstate) (k : mstate -> option R) {struct r} : option R :=
  match r with
  | Eps => k st
  | Chr c => match step_char ci [CChar c] st with Some st' => k st' | None => None end
  | Cls ks => match step_char ci ks st with Some st' => k st' | None => None end
  | Seq a b => mtch a st (fun st' => mtch b st' k)
  | Alt a b => match mtch a st k with Some x => Some x | None => mtch b st k end
  | Rep lo hi a =>
      (fix loop (n : nat) (lo : nat) (st : mstate) {struct n} : option R :=
         match n with
         | O => if Nat.eqb lo 0 then k st else None
         | S n' =>
             match mtch a st (fun st' =>
                      if Nat.ltb (length (rest st')) (length (rest st))
                      then loop n' (Nat.pred lo) st' else None) with
             | Some x => Some x
             | None => if Nat.eqb lo 0 then k st else None
             end
         end)
        (match hi with Some h => h | None => length (rest st) end) lo st
  | Grp i a => mtch a st (fun st' =>
                 k (MState (prev st') (rest st') ((i, consumed st st') :: caps st')))
  | WordB => if at_boundary st then k st else None
  end.
End Matcher.

(** [m.group(i)] *)
Fixpoint group (i : nat) (cs : list (nat * pystr)) : option pystr :=
  match cs with
  | [] => None
  | (j, s) :: t => if Nat.eqb i j then Some s else group i t
  end.

(** [re.match]: a match at the start of the text. *)
Definition match_at (ci : bool) (r : regex) (p : option Z) (s : pystr) : option mstate :=
  mtch ci r (MState p s []) Some.

(** [re.search]: the leftmost match; the result is the state after it. *)
Fixpoint search_from (ci : bool) (r : regex) (p : option Z) (s : pystr) : option mstate :=
  match match_at ci r p s with
  | Some st => Some st
  | None => match s with
            | [] => None
            | c :: t => search_from ci r (Some c) t
            end
  end.

Definition search (ci : bool) (r : regex) (s : pystr) : option mstate :=
  search_from ci r None s.

(** [re.findall]: the captures of the successive non-overlapping matches.
    Each round consumes at least one character, so [length s + 1] rounds
    always suffice. *)
Fixpoint findall_from (n : nat) (ci : bool) (r : regex) (p : option Z) (s : pystr)
  : list (list (nat * pystr)) :=
  match n with
  | O => []
  | S n' =>
      match search_from ci r p s with
      | None => []
      | Some st =>
          caps st ::
          (if Nat.ltb (length (rest st)) (length s)
           then findall_from n' ci r (prev st) (rest st)
           else match s with
                | [] => []
                | c :: t => findall_from n' ci r (Some c) t
                end)
      end
  end.

Definition findall (ci : bool) (r : regex) (s : pystr) : list (list (nat * pystr)) :=
  findall_from (S (length s)) ci r None s.

(** [re.split(r'[...]', s)] for a one-character class. *)
Fixpoint split_on_aux (ks : list cset) (cur : pystr) (s : pystr) : list pystr :=
  match s with
  | [] => [rev cur]
  | c :: t => if existsb (cset_in false c) ks
              then rev cur :: split_on_aux ks [] t
              else split_on_aux ks (c :: cur) t
  end.
Definition split_on (ks : list cset) (s : pystr) : list pystr := split_on_aux ks [] s.

(** Pattern syntax.  In the comments that quote a pattern of the source, a
    blank is inserted where the pattern would otherwise close the comment. *)
Definition lit (s : string) : regex :=
  fold_right (fun c r => Seq (Chr c) r) Eps (u s).
Definition digit : regex := Cls [CDigit].            (* \d *)
Definition word : regex := Cls [CWord].              (* \w *)
Definition space : regex := Cls [CSpace].            (* \s *)
Definition star (a : regex) : regex := Rep 0 None a.
Definition plus (a : regex) : regex := Rep 1 None a.
Definition opt (a : regex) : regex := Rep 0 (Some 1%nat) a.
Definition alts (l : list regex) : regex :=
  match l with
  | [] => Eps
  | a :: t => fold_left Alt t a
  end.
Fixpoint seqs (l : list regex) : regex :=
  match l with
  | [] => Eps
  | [a] => a
  | a :: t => Seq a (seqs t)
  end.

End Re.

(** ** Python floats

    A float is an exact rational or one of the three special values; the
    comparisons follow IEEE 754 (every comparison with NaN is false). *)

Module PyFloat.

Inductive pyfloat : Type :=
| FNum (q : Q)
| FInf
| FNegInf
| FNan.

Definition flt (a b : pyfloat) : bool :=
  match a, b with
  | FNan, _ | _, FNan => false
  | FNum x, FNum y => negb (Qle_bool y x)
  | FNegInf, FNegInf => false
  | FNegInf, _ => true
  | _, FNegInf => false
  | FInf, _ => false
  | FNum _, FInf => true
  end.

Definition fle (a b : pyfloat) : bool :=
  match a, b with
  | FNan, _ | _, FNan => false
  | FNum x, FNum y => Qle_bool x y
  | FNegInf, _ => true
  | _, FNegInf => false
  | _, FInf => true
  | FInf, FNum _ => false
  end.

Definition fgt (a b : pyfloat) : bool := flt b a.
Definition of_Z (z : Z) : pyfloat := FNum (inject_Z z).

End PyFloat.

(** ** app/utils/amount_parser.py *)

Module AmountParser.
Import Py Re PyFloat.

(** [currency_patterns] *)
Definition number_with_commas : regex :=            (* \d+(?:,\d+)*(?:\.\d+)? *)
  seqs [plus digit; star (Seq (Chr 44) (plus digit)); opt (Seq (Chr 46) (plus digit))].
Definition number_with_fraction : regex :=          (* \d+(?:\.\d+)? *)
  seqs [plus digit; opt (Seq (Chr 46) (plus digit))].

Definition pat_rupees : regex :=
  (* (?:₹|rs\.?|rupees?|inr)\s*(\d+(?:,\d+)*(?:\.\d+)?) *)
  seqs [alts [Chr rupee_sign; Seq (lit "rs") (opt (Chr 46));
              Seq (lit "rupee") (opt (Chr 115)); lit "inr"];
        star space; Grp 1 number_with_commas].
Definition pat_lakhs : regex :=
  (* (\d+(?:\.\d+)?)\s*(?:lakh|lac)s? *)
  seqs [Grp 1 number_with_fraction; star space; alts [lit "lakh"; lit "lac"]; opt (Chr 115)].
Definition pat_crores : regex :=
  (* (\d+(?:\.\d+)?)\s*crores? *)
  seqs [Grp 1 number_with_fraction; star space; lit "crore"; opt (Chr 115)].
Definition pat_thousands : regex :=
  (* (\d+(?:\.\d+)?)\s*(?:thousand|k) *)
  seqs [Grp 1 number_with_fraction; star space; alts [lit "thousand"; lit "k"]].
Definition pat_numeric : regex :=
  (* (\d+(?:,\d+)*(?:\.\d+)?) *)
  Grp 1 number_with_commas.

(** [word_to_number] *)
Definition word_to_number : list (pystr * Z) :=
  [ (u "one", 1); (u "two", 2); (u "three", 3); (u "four", 4); (u "five", 5);
    (u "six", 6); (u "seven", 7); (u "eight", 8); (u "nine", 9); (u "ten", 10);
    (u "eleven", 11); (u "twelve", 12); (u "thirteen", 13); (u "fourteen", 14);
    (u "fifteen", 15); (u "sixteen", 16); (u "seventeen", 17); (u "eighteen", 18);
    (u "nineteen", 19); (u "twenty", 20); (u "thirty", 30); (u "forty", 40);
    (u "fifty", 50); (u "sixty", 60); (u "seventy", 70); (u "eighty", 80);
    (u "ninety", 90); (u "hundred", 100); (u "thousand", 1000);
    (u "lakh", 100000); (u "lac", 100000); (u "crore", 10000000) ].

Fixpoint dict_get {V} (k : pystr) (d : list (pystr * V)) : option V :=
  match d with
  | [] => None
  | (k', v) :: t => if str_eqb k k' then Some v else dict_get k t
  end.

(** [Decimal(s)] for [s] of the form digits, optionally [.] and digits. *)
Fixpoint split_at_dot (s : pystr) : pystr * option pystr :=
  match s with
  | [] => ([], None)
  | c :: t => if c =? 46 then ([], Some t)
              else let '(a, b) := split_at_dot t in (c :: a, b)
  end.
Definition Decimal (s : pystr) : Q :=
  match split_at_dot s with
  | (i, None) => inject_Z (int_of_digits i)
  | (i, Some f) =>
      Qred (Qmake (int_of_digits i * 10 ^ Z.of_nat (length f) + int_of_digits f)
                  (Z.to_pos (10 ^ Z.of_nat (length f))))
  end.

Definition group1 (st : mstate) : pystr :=
  match group 1 (caps st) with Some s => s | None => [] end.

Definition _parse_structured_amount (text : pystr) : option Q :=
  match search true pat_rupees text with
  | Some m => Some (Decimal (remove_char 44 (group1 m)))
  | None => None
  end.

(** The four patterns [(\w+)\s+lakh], [(\w+)\s+crore], [(\w+)\s+thousand],
    [(\w+)\s+hundred]. *)
Definition word_pattern (unit : string) : regex :=
  seqs [Grp 1 (plus word); plus space; lit unit].
Definition word_patterns : list regex :=
  [word_pattern "lakh"; word_pattern "crore"; word_pattern "thousand"; word_pattern "hundred"].

(** The body of the inner [for match in matches] loop: the first match whose
    word is a number word decides, if [text] contains a unit word. *)
Definition word_amount_of_match (text : pystr) (m : list (nat * pystr)) : option Q :=
  match group 1 m with
  | None => None
  | Some w =>
      match dict_get (lower w) word_to_number with
      | None => None
      | Some base_value =>
          if contains text (u "lakh") then Some (inject_Z (base_value * 100000))
          else if contains text (u "crore") then Some (inject_Z (base_value * 10000000))
          else if contains text (u "thousand") then Some (inject_Z (base_value * 1000))
          else if contains text (u "hundred") then Some (inject_Z (base_value * 100))
          else None
      end
  end.

Fixpoint first_some {A B} (f : A -> option B) (l : list A) : option B :=
  match l with
  | [] => None
  | x :: t => match f x with Some y => Some y | None => first_some f t end
  end.

Definition _parse_word_amount (text : pystr) : option Q :=
  first_some (fun pattern =>
                first_some (word_amount_of_match text) (findall true pattern text))
             word_patterns.

Definition _parse_numeric_amount (text : pystr) : option Q :=
  match search true pat_crores text with
  | Some m => Some (Qred (Decimal (group1 m) * inject_Z 10000000))
  | None =>
  match search true pat_lakhs text with
  | Some m => Some (Qred (Decimal (group1 m) * inject_Z 100000))
  | None =>
  match search true pat_thousands text with
  | Some m => Some (Qred (Decimal (group1 m) * inject_Z 1000))
  | None =>
  match search false pat_numeric text with
  | Some m => Some (Decimal (remove_char 44 (group1 m)))
  | None => None
  end end end end.

Definition comma_number : regex :=                  (* r'\d+(?:,\d+)*' *)
  seqs [plus digit; star (Seq (Chr 44) (plus digit))].
Definition range_patterns : list regex :=
  [ (* r'(\d+(?:,\d+)* )\s*(?:to|-)\s*(\d+(?:,\d+)* )' *)
    seqs [Grp 1 comma_number; star space; alts [lit "to"; Chr 45]; star space; Grp 2 comma_number];
    (* r'between\s+(\d+(?:,\d+)* )\s+and\s+(\d+(?:,\d+)* )' *)
    seqs [lit "between"; plus space; Grp 1 comma_number; plus space; lit "and"; plus space;
          Grp 2 comma_number];
    (* r'from\s+(\d+(?:,\d+)* )\s+to\s+(\d+(?:,\d+)* )' *)
    seqs [lit "from"; plus space; Grp 1 comma_number; plus space; lit "to"; plus space;
          Grp 2 comma_number] ].

Definition _parse_range_amount (text : pystr) : option Q :=
  first_some (fun pattern =>
                match search true pattern text with
                | Some m =>
                    match group 2 (caps m) with
                    | Some g2 => Some (Decimal (remove_char 44 g2))   (* max_amount *)
                    | None => None
                    end
                | None => None
                end)
             range_patterns.

(** [parse_amount]: the strategies in the order of the [strategies] list; the
    first that returns a value decides. *)
Definition parse_amount (text : pystr) : option Q :=
  match text with
  | [] => None
  | _ =>
      let text := strip (lower text) in
      first_some (fun strategy => strategy text)
        [_parse_structured_amount; _parse_word_amount;
         _parse_numeric_amount; _parse_range_amount]
  end.

(** [validate_amount]: the pair [(is_valid, issues)]. *)
Definition validate_amount (amount : option pyfloat) : bool * list string :=
  match amount with
  | None => (false, ["Amount is None"%string])
  | Some a =>
      let is_valid := true in
      let issues := [] in
      let '(is_valid, issues) :=
        if fle a (of_Z 0)
        then (false, issues ++ ["Amount must be positive"%string])
        else (is_valid, issues) in
      let '(is_valid, issues) :=
        if fgt a (of_Z 50000000)
        then (false, issues ++ ["Amount seems unrealistically high"%string])
        else (is_valid, issues) in
      let '(is_valid, issues) :=
        if flt a (of_Z 100)
        then (false, issues ++ ["Amount seems unrealistically low"%string])
        else (is_valid, issues) in
      (is_valid, issues)
  end.

End AmountParser.


(** ** Exceptions and [datetime] *)

Module PyTime.

(** The result of a call that may raise. *)
Inductive exn : Type :=
| ValueError | OverflowError | TypeError | AttributeError
| ClientError                        (* aiohttp.ClientError *)
| TimeoutError                       (* asyncio.TimeoutError *)
| OtherException.                    (* any other subclass of Exception *)
Inductive res (A : Type) : Type :=
| Ok (a : A)
| Raise (e : exn).
Arguments Ok {A} a.
Arguments Raise {A} e.

Definition bind {A B} (x : res A) (f : A -> res B) : res B :=
  match x with
  | Ok a => f a
  | Raise e => Raise e
  end.
Notation "'let!' x ':=' c 'in' k" := (bind c (fun x => k))
  (at level 10, x name, c at level 200, k at level 200).

(** [datetime]: microseconds since 0001-01-01T00:00:00; [date]: days since
    0001-01-01, counted from 1 (the proleptic Gregorian ordinal). *)
Definition datetime := Z.
Definition date := Z.

Definition us_per_day : Z := 86400 * 1000000.

Definition is_leap (y : Z) : bool :=
  (y mod 4 =? 0) && (negb (y mod 100 =? 0) || (y mod 400 =? 0)).

Definition days_in_month (y m : Z) : Z :=
  if m =? 2 then (if is_leap y then 29 else 28)
  else if (m =? 4) || (m =? 6) || (m =? 9) || (m =? 11) then 30 else 31.

Definition days_before_year (y : Z) : Z :=
  let y := y - 1 in y * 365 + y / 4 - y / 100 + y / 400.

Fixpoint days_before_month_aux (y : Z) (n : nat) : Z :=
  match n with
  | O => 0
  | S n' => days_before_month_aux y n' + days_in_month y (Z.of_nat n)
  end.
Definition days_before_month (y m : Z) : Z :=
  days_before_month_aux y (Z.to_nat (m - 1)).

Definition ymd2ord (y m d : Z) : Z :=
  days_before_year y + days_before_month y m + d.

Definition valid_date (y m d : Z) : bool :=
  (1 <=? y) && (y <=? 9999) && (1 <=? m) && (m <=? 12) &&
  (1 <=? d) && (d <=? days_in_month y m).

(** [datetime(y, m, d, H, M, S)]: [ValueError] on a field out of range. *)
Definition mk_datetime (y m d H M S : Z) : option datetime :=
  if valid_date y m d && (0 <=? H) && (H <? 24) && (0 <=? M) && (M <? 60)
     && (0 <=? S) && (S <? 60)
  then Some (((ymd2ord y m d - 1) * 86400 + H * 3600 + M * 60 + S) * 1000000)
  else None.

Definition dt_min : datetime := 0.
Definition dt_max : datetime := ymd2ord 9999 12 31 * us_per_day - 1.

(** [dt + timedelta(microseconds = delta)]: [OverflowError] outside the
    representable range. *)
Definition shift (dt : datetime) (delta : Z) : res datetime :=
  let r := dt + delta in
  if (dt_min <=? r) && (r <=? dt_max) then Ok r else Raise OverflowError.

Definition days (n : Z) : Z := n * us_per_day.
Definition weeks (n : Z) : Z := n * 7 * us_per_day.

(** [dt.date()] *)
Definition date_of (dt : datetime) : date := dt / us_per_day + 1.

(** The year of an ordinal and the day within that year (from 0). *)
Definition year_of_ord (o : date) : Z * Z :=
  let n := o - 1 in
  let n400 := n / 146097 in let n := n mod 146097 in
  let n100 := n / 36524 in let n := n mod 36524 in
  let n4 := n / 1461 in let n := n mod 1461 in
  let n1 := n / 365 in let n := n mod 365 in
  let y := n400 * 400 + 1 + n100 * 100 + n4 * 4 + n1 in
  if (n1 =? 4) || (n100 =? 4) then (y - 1, 365) else (y, n).

Definition ymd_of_ord (o : date) : Z * Z * Z :=
  let '(y, n) := year_of_ord o in
  let '(m, d) :=
    fold_left (fun '(m, d) k =>
                 if days_before_month y k <=? n
                 then (k, n - days_before_month y k + 1) else (m, d))
              [1; 2; 3; 4; 5; 6; 7; 8; 9; 10; 11; 12] (1, n + 1) in
  (y, m, d).

Definition year_of (dt : datetime) : Z := fst (year_of_ord (date_of dt)).

(** [dt.replace(year = y)]: the same month, day and time of day in year [y];
    [ValueError] when that date does not exist. *)
Definition replace_year (dt : datetime) (y : Z) : res datetime :=
  let '(_, m, d) := ymd_of_ord (date_of dt) in
  if valid_date y m d
  then Ok ((ymd2ord y m d - 1) * us_per_day + dt mod us_per_day)
  else Raise ValueError.

End PyTime.

(** ** [datetime.strptime] for the directives the source uses

    As in [_strptime]: the format is turned into a regular expression (each
    directive a named group, a run of white space [\s+], any other character
    itself), matched case-insensitively at the start of the text; the match
    must cover the whole text; the fields are converted and the date is
    checked.  The result is [None] where [strptime] raises [ValueError]. *)

Module Strptime.
Import Py Re PyTime.

Definition rng (lo hi : string) : regex :=
  match u lo, u hi with
  | [a], [b] => Cls [CRange a b]
  | _, _ => Eps
  end.

Definition f_month : list string :=
  ["january"; "february"; "march"; "april"; "may"; "june"; "july"; "august";
   "september"; "october"; "november"; "december"]%string.
Definition a_month : list string :=
  ["jan"; "feb"; "mar"; "apr"; "may"; "jun"; "jul"; "aug"; "sep"; "oct"; "nov"; "dec"]%string.

(** [__seqToRE]: the names from longest to shortest (a stable sort). *)
Definition f_month_sorted : list string :=
  ["september"; "february"; "november"; "december"; "january"; "october";
   "august"; "march"; "april"; "june"; "july"; "may"]%string.

(** Group numbers of the directives. *)
Definition gY := 1%nat.
Definition gm := 2%nat.
Definition gd := 3%nat.
Definition gy := 4%nat.
Definition gH := 5%nat.
Definition gM := 6%nat.
Definition gS := 7%nat.
Definition gB := 8%nat.
Definition gb := 9%nat.

Definition directive (c : Z) : option regex :=
  if c =? 100 (* d: 3[0-1]|[1-2]\d|0[1-9]|[1-9]| [1-9] *) then
    Some (Grp gd (alts [Seq (lit "3") (rng "0" "1"); Seq (rng "1" "2") digit;
                        Seq (lit "0") (rng "1" "9"); rng "1" "9";
                        Seq (lit " ") (rng "1" "9")]))
  else if c =? 109 (* m: 1[0-2]|0[1-9]|[1-9] *) then
    Some (Grp gm (alts [Seq (lit "1") (rng "0" "2"); Seq (lit "0") (rng "1" "9"); rng "1" "9"]))
  else if c =? 89 (* Y: \d\d\d\d *) then
    Some (Grp gY (seqs [digit; digit; digit; digit]))
  else if c =? 121 (* y: \d\d *) then
    Some (Grp gy (Seq digit digit))
  else if c =? 72 (* H: 2[0-3]|[0-1]\d|\d *) then
    Some (Grp gH (alts [Seq (lit "2") (rng "0" "3"); Seq (rng "0" "1") digit; digit]))
  else if c =? 77 (* M: [0-5]\d|\d *) then
    Some (Grp gM (alts [Seq (rng "0" "5") digit; digit]))
  else if c =? 83 (* S: 6[0-1]|[0-5]\d|\d *) then
    Some (Grp gS (alts [Seq (lit "6") (rng "0" "1"); Seq (rng "0" "5") digit; digit]))
  else if c =? 66 (* B *) then Some (Grp gB (alts (List.map lit f_month_sorted)))
  else if c =? 98 (* b *) then Some (Grp gb (alts (List.map lit a_month)))
  else None.

(** [TimeRE.pattern] *)
Fixpoint pattern (fmt : pystr) : option regex :=
  match fmt with
  | [] => Some Eps
  | c :: t =>
      if c =? 37 (* % *) then
        match t with
        | [] => None
        | d :: t' =>
            match directive d, pattern t' with
            | Some r, Some k => Some (Seq r k)
            | _, _ => None
            end
        end
      else if is_space c then
        match t with
        | c' :: _ => if is_space c' then pattern t       (* inside a run of white space *)
                     else option_map (Seq (plus space)) (pattern t)
        | [] => Some (plus space)
        end
      else option_map (Seq (Chr c)) (pattern t)
  end.

Definition py_int (s : pystr) : Z := int_of_digits (strip s).

(** The index of a name in a month list, from 1. *)
Fixpoint index_from (n : Z) (s : pystr) (l : list string) : Z :=
  match l with
  | [] => 0
  | x :: t => if str_eqb s (u x) then n else index_from (n + 1) s t
  end.

Definition field (g : nat) (cs : list (nat * pystr)) (default : Z) : Z :=
  match group g cs with Some s => py_int s | None => default end.

Definition strptime (date_string : pystr) (fmt : string) : option datetime :=
  match pattern (u fmt) with
  | None => None
  | Some r =>
      match match_at true r None date_string with
      | None => None
      | Some found =>
          match rest found with
          | _ :: _ => None                       (* unconverted data remains *)
          | [] =>
              let cs := caps found in
              let year :=
                match group gY cs, group gy cs with
                | Some s, _ => py_int s
                | None, Some s => let y := py_int s in
                                  if y <=? 68 then y + 2000 else y + 1900
                | None, None => 1900
                end in
              let month :=
                match group gB cs, group gb cs with
                | Some s, _ => index_from 1 (lower s) f_month
                | None, Some s => index_from 1 (lower s) a_month
                | None, None => field gm cs 1
                end in
              mk_datetime year month (field gd cs 1)
                          (field gH cs 0) (field gM cs 0) (field gS cs 0)
          end
      end
  end.

End Strptime.

(** ** app/utils/date_parser.py

    Every function that reads the clock takes [now], the value of
    [datetime.now()], as its first argument. *)

Module DateParser.
Import Py Re PyTime Strptime.

Definition date_formats : list string :=
  [ "%Y-%m-%d"; "%d-%m-%Y"; "%d/%m/%Y"; "%m/%d/%Y"; "%Y/%m/%d"; "%d-%m-%y";
    "%d/%m/%y"; "%Y-%m-%d %H:%M:%S"; "%d-%m-%Y %H:%M:%S"; "%B %d, %Y";
    "%b %d, %Y"; "%d %B %Y"; "%d %b %Y"; "%B %d %Y"; "%b %d %Y" ]%string.

Definition group_or_empty (g : nat) (cs : list (nat * pystr)) : pystr :=
  match group g cs with Some s => s | None => [] end.

(** The nine [time_patterns]: the pattern and the offset, in microseconds,
    that its calculator adds to [now] for the captured number. *)
Definition n_unit (unit : string) (tail : list regex) : regex :=
  seqs ([Grp 1 (plus digit); star space; lit unit; opt (Chr 115); star space] ++ tail).
Definition in_unit (unit : string) : regex :=
  seqs [lit "in"; star space; Grp 1 (plus digit); star space; lit unit; opt (Chr 115)].
Definition time_patterns : list (regex * (Z -> Z)) :=
  [ (n_unit "day" [lit "ago"], fun x => - days x);               (* r'(\d+)\s*days?\s*ago' *)
    (n_unit "week" [lit "ago"], fun x => - weeks x);             (* r'(\d+)\s*weeks?\s*ago' *)
    (n_unit "month" [lit "ago"], fun x => - days (x * 30));      (* r'(\d+)\s*months?\s*ago' *)
    (n_unit "day" [lit "from"; star space; lit "now"], fun x => days x);
    (n_unit "week" [lit "from"; star space; lit "now"], fun x => weeks x);
    (n_unit "month" [lit "from"; star space; lit "now"], fun x => days (x * 30));
    (in_unit "day", fun x => days x);                            (* r'in\s*(\d+)\s*days?' *)
    (in_unit "week", fun x => weeks x);                          (* r'in\s*(\d+)\s*weeks?' *)
    (in_unit "month", fun x => days (x * 30)) ].                 (* r'in\s*(\d+)\s*months?' *)

(** The loop over [time_patterns]: a calculator that raises [ValueError] or
    [OverflowError] is skipped. *)
Fixpoint relative_by_pattern (now : datetime) (date_string : pystr)
    (ps : list (regex * (Z -> Z))) : option datetime :=
  match ps with
  | [] => None
  | (pattern, offset) :: t =>
      match search false pattern date_string with
      | Some m =>
          match shift now (offset (py_int (group_or_empty 1 (caps m)))) with
          | Ok d => Some d
          | Raise _ => relative_by_pattern now date_string t
          end
      | None => relative_by_pattern now date_string t
      end
  end.

Definition parse_relative_date (now : datetime) (date_string : pystr)
  : res (option datetime) :=
  let date_string := strip (lower date_string) in
  let has (w : string) := contains date_string (u w) in
  if has "today"%string then Ok (Some now)
  else if has "tomorrow"%string then let! d := shift now (days 1) in Ok (Some d)
  else if has "yesterday"%string then let! d := shift now (- days 1) in Ok (Some d)
  else if has "next week"%string then let! d := shift now (weeks 1) in Ok (Some d)
  else if has "last week"%string then let! d := shift now (- weeks 1) in Ok (Some d)
  else if has "next month"%string then let! d := shift now (days 30) in Ok (Some d)
  else if has "last month"%string then let! d := shift now (- days 30) in Ok (Some d)
  else if has "next year"%string then let! d := replace_year now (year_of now + 1) in Ok (Some d)
  else if has "last year"%string then let! d := replace_year now (year_of now - 1) in Ok (Some d)
  else Ok (relative_by_pattern now date_string time_patterns).

(** [month_mapping], in insertion order. *)
Definition month_mapping : list (pystr * Z) :=
  [ (u "jan", 1); (u "january", 1); (u "feb", 2); (u "february", 2);
    (u "mar", 3); (u "march", 3); (u "apr", 4); (u "april", 4); (u "may", 5);
    (u "jun", 6); (u "june", 6); (u "jul", 7); (u "july", 7);
    (u "aug", 8); (u "august", 8); (u "sep", 9); (u "september", 9);
    (u "oct", 10); (u "october", 10); (u "nov", 11); (u "november", 11);
    (u "dec", 12); (u "december", 12) ].

(** r'(\d{1,2})[^\w]*(\w+)[^\w]*(\d{2,4})' *)
Definition indian_date_pattern : regex :=
  seqs [Grp 1 (Rep 1 (Some 2%nat) digit); star (Cls [CNotWord]); Grp 2 (plus word);
        star (Cls [CNotWord]); Grp 3 (Rep 2 (Some 4%nat) digit)].

Definition partial_month (month_str : pystr) : option Z :=
  AmountParser.first_some
    (fun '(name, num) =>
       if startswith name (firstn 3 month_str) || startswith month_str (firstn 3 name)
       then Some num else None)
    month_mapping.

Definition parse_indian_date (date_string : pystr) : option datetime :=
  match search false indian_date_pattern (lower date_string) with
  | None => None
  | Some m =>
      let day := py_int (group_or_empty 1 (caps m)) in
      let month_str := group_or_empty 2 (caps m) in
      let year := py_int (group_or_empty 3 (caps m)) in
      let month :=
        match AmountParser.dict_get month_str month_mapping with
        | Some n => Some n
        | None => partial_month month_str
        end in
      match month with
      | None => None
      | Some month =>
          let year := if year <? 100
                      then (if year <? 50 then year + 2000 else year + 1900)
                      else year in
          mk_datetime year month day 0 0 0      (* ValueError is caught: None *)
      end
  end.

Definition parse_date (now : datetime) (date_string : pystr) : res (option datetime) :=
  match date_string with
  | [] => Ok None
  | _ =>
      let date_string := lower (strip date_string) in
      match AmountParser.first_some (strptime date_string) date_formats with
      | Some d => Ok (Some d)
      | None =>
          let! relative_date := parse_relative_date now date_string in
          match relative_date with
          | Some d => Ok (Some d)
          | None => Ok (parse_indian_date date_string)
          end
      end
  end.

Definition deadline_keywords : list string :=
  [ "deadline"; "last date"; "closing date"; "due date"; "final date";
    "submission date"; "application closes"; "before"; "by"; "until" ]%string.

Definition date_patterns : list regex :=
  [ (* r'\b(\d{1,2})[/-](\d{1,2})[/-](\d{2,4})\b' *)
    seqs [WordB; Grp 1 (Rep 1 (Some 2%nat) digit); Cls [CChar 47; CChar 45];
          Grp 2 (Rep 1 (Some 2%nat) digit); Cls [CChar 47; CChar 45];
          Grp 3 (Rep 2 (Some 4%nat) digit); WordB];
    (* r'\b(\d{1,2})\s+(\w+)\s+(\d{2,4})\b' *)
    seqs [WordB; Grp 1 (Rep 1 (Some 2%nat) digit); plus space; Grp 2 (plus word);
          plus space; Grp 3 (Rep 2 (Some 4%nat) digit); WordB];
    (* r'\b(\w+)\s+(\d{1,2}),?\s+(\d{2,4})\b' *)
    seqs [WordB; Grp 1 (plus word); plus space; Grp 2 (Rep 1 (Some 2%nat) digit);
          opt (Chr 44); plus space; Grp 3 (Rep 2 (Some 4%nat) digit); WordB] ].

(** The [try] around [parse_date(' '.join(match))]: any exception moves on
    to the next match. *)
Definition date_of_match (now : datetime) (m : list (nat * pystr)) : option datetime :=
  match parse_date now (join (u " ") [group_or_empty 1 m; group_or_empty 2 m;
                                      group_or_empty 3 m]) with
  | Ok (Some d) => Some d
  | _ => None
  end.

Fixpoint deadline_in_sentences (now : datetime) (sentences : list pystr)
  : res (option datetime) :=
  match sentences with
  | [] => Ok None
  | sentence :: t =>
      let! date := parse_date now sentence in
      match date with
      | Some d => Ok (Some d)
      | None =>
          match AmountParser.first_some
                  (fun pattern =>
                     AmountParser.first_some (date_of_match now)
                                             (findall false pattern sentence))
                  date_patterns with
          | Some d => Ok (Some d)
          | None => deadline_in_sentences now t
          end
      end
  end.

Definition extract_deadline_from_text (now : datetime) (text : pystr)
  : res (option datetime) :=
  match text with
  | [] => Ok None
  | _ =>
      let text := lower text in
      let sentences := split_on [CChar 46; CChar 33; CChar 63; CChar 59] text in
      let deadline_sentences :=
        List.map strip
          (List.filter (fun sentence =>
                          existsb (fun keyword => contains sentence (u keyword))
                                  deadline_keywords)
                       sentences) in
      deadline_in_sentences now deadline_sentences
  end.

(** [is_valid_deadline]; [None] is the argument [None]. *)
Definition is_valid_deadline (now : datetime) (date : option datetime) : res bool :=
  match date with
  | None => Ok false
  | Some date =>
      let! lo := shift now (- days 1) in
      if date <? lo then Ok false
      else
        let! hi := shift now (days (365 * 5)) in
        if date >? hi then Ok false else Ok true
  end.

(** [get_days_until_deadline]: [(deadline - now).days], the difference in
    whole days, rounded down; [-1] for [None]. *)
Definition get_days_until_deadline (now : datetime) (deadline : option datetime) : Z :=
  match deadline with
  | None => -1
  | Some deadline => (deadline - now) / us_per_day
  end.

Definition is_deadline_approaching (now : datetime) (deadline : option datetime)
    (days_threshold : Z) : bool :=
  let days_left := get_days_until_deadline now deadline in
  (0 <=? days_left) && (days_left <=? days_threshold).

(** [date.strftime("%d %B %Y")] in the C locale: the day of the month with
    two digits, the full English month name and the year, which has four
    digits from the year 1000 on (how an earlier year is padded depends on
    the platform; the four-digit form stands for it here). *)
Definition month_name : list string :=
  [ "January"; "February"; "March"; "April"; "May"; "June"; "July"; "August";
    "September"; "October"; "November"; "December" ]%string.
Definition two_digits (n : Z) : pystr := [48 + n / 10; 48 + n mod 10].
Definition four_digits (n : Z) : pystr :=
  [48 + n / 1000; 48 + n / 100 mod 10; 48 + n / 10 mod 10; 48 + n mod 10].
Definition strftime_d_B_Y (dt : datetime) : pystr :=
  let '(y, m, d) := ymd_of_ord (date_of dt) in
  two_digits d ++ u " " ++ u (nth (Z.to_nat (m - 1)) month_name EmptyString)
              ++ u " " ++ four_digits y.

(** [format_date_indian]; [None] is the argument [None] (a [datetime] is
    never falsy). *)
Definition format_date_indian (date : option datetime) : pystr :=
  match date with
  | None => []
  | Some date => strftime_d_B_Y date
  end.

End DateParser.

(** ** [difflib.SequenceMatcher(None, a, b).ratio()]

    With no junk predicate, the elements of [b] that occur more than
    [len(b) // 100 + 1] times in a [b] of 200 elements or more are "popular"
    and left out of the index [b2j]; a longest match is found from the index
    and then extended over equal neighbours. *)

Module Difflib.
Import Py.

Fixpoint indices_of (c : Z) (b : pystr) (j : nat) : list nat :=
  match b with
  | [] => []
  | x :: t => if x =? c then j :: indices_of c t (S j) else indices_of c t (S j)
  end.

Definition popular (b : pystr) (c : Z) : bool :=
  let n := length b in
  Nat.leb 200 n && Nat.ltb (n / 100 + 1) (length (indices_of c b 0)).

Definition b2j (b : pystr) (c : Z) : list nat :=
  if popular b c then [] else indices_of c b 0.

Definition at_ (s : pystr) (i : nat) : Z := nth i s (-1).

Fixpoint lookup_len (j : nat) (j2len : list (nat * nat)) : nat :=
  match j2len with
  | [] => 0
  | (j', k) :: t => if Nat.eqb j j' then k else lookup_len j t
  end.

Record best := Best { besti : nat; bestj : nat; bestsize : nat }.

(** The inner loop [for j in b2j.get(a[i], nothing)]. *)
Fixpoint scan_js (i : nat) (js : list nat) (j2len newj2len : list (nat * nat)) (bst : best)
  : list (nat * nat) * best :=
  match js with
  | [] => (newj2len, bst)
  | j :: t =>
      let k := S (match j with O => 0 | S j' => lookup_len j' j2len end) in
      let bst' := if Nat.ltb (bestsize bst) k
                  then Best (i + 1 - k) (j + 1 - k) k else bst in
      scan_js i t j2len ((j, k) :: newj2len) bst'
  end.

(** The outer loop [for i in range(alo, ahi)]. *)
Fixpoint scan_is (a b : pystr) (blo bhi : nat) (is_ : list nat)
    (j2len : list (nat * nat)) (bst : best) : best :=
  match is_ with
  | [] => bst
  | i :: t =>
      let js := List.filter (fun j => Nat.leb blo j && Nat.ltb j bhi) (b2j b (at_ a i)) in
      let '(newj2len, bst') := scan_js i js j2len [] bst in
      scan_is a b blo bhi t newj2len bst'
  end.

Fixpoint extend_back (n : nat) (a b : pystr) (alo blo : nat) (bst : best) : best :=
  match n with
  | O => bst
  | S n' =>
      if Nat.ltb alo (besti bst) && Nat.ltb blo (bestj bst)
         && (at_ a (besti bst - 1) =? at_ b (bestj bst - 1))
      then extend_back n' a b alo blo
             (Best (besti bst - 1) (bestj bst - 1) (S (bestsize bst)))
      else bst
  end.

Fixpoint extend_fwd (n : nat) (a b : pystr) (ahi bhi : nat) (bst : best) : best :=
  match n with
  | O => bst
  | S n' =>
      if Nat.ltb (besti bst + bestsize bst) ahi && Nat.ltb (bestj bst + bestsize bst) bhi
         && (at_ a (besti bst + bestsize bst) =? at_ b (bestj bst + bestsize bst))
      then extend_fwd n' a b ahi bhi (Best (besti bst) (bestj bst) (S (bestsize bst)))
      else bst
  end.

Definition find_longest_match (a b : pystr) (alo ahi blo bhi : nat) : best :=
  let bst := scan_is a b blo bhi (seq alo (ahi - alo)) [] (Best alo blo 0) in
  let bst := extend_back (length a) a b alo blo bst in
  extend_fwd (length a) a b ahi bhi bst.

(** The sum of the sizes of [get_matching_blocks()]: the longest match of a
    window, then the windows to its left and to its right.  A window to the
    left or right is strictly shorter, so [length a] levels suffice. *)
Fixpoint matches (n : nat) (a b : pystr) (alo ahi blo bhi : nat) : nat :=
  match n with
  | O => 0
  | S n' =>
      let m := find_longest_match a b alo ahi blo bhi in
      let (i, j) := (besti m, bestj m) in
      let k := bestsize m in
      if Nat.eqb k 0 then 0
      else
        k + (if Nat.ltb alo i && Nat.ltb blo j then matches n' a b alo i blo j else 0)
          + (if Nat.ltb (i + k) ahi && Nat.ltb (j + k) bhi
             then matches n' a b (i + k) ahi (j + k) bhi else 0)
  end.

Definition ratio (a b : pystr) : Q :=
  let length_ := (length a + length b)%nat in
  if Nat.eqb length_ 0 then 1%Q
  else Qred (Qmake (2 * Z.of_nat (matches (length a) a b 0 (length a) 0 (length b)))
                   (Pos.of_nat length_)).

End Difflib.

(** ** [urllib.parse.urlparse]: scheme, network location and path

    The split follows [urlsplit]: tab, CR and LF are removed and leading
    control characters and blanks dropped; a scheme is a leading run of
    scheme characters that starts with a letter and ends at the first [:];
    after [//] the network location runs to the first [/], [?] or [#]; the
    path ends at [#], [?] and, for the schemes of [uses_params], at the first
    [;] of its last segment.  The [ValueError] raised for a malformed
    bracketed host is not modelled. *)

Module Urllib.
Import Py.

Record parsed := Parsed { scheme : pystr; netloc : pystr; path : pystr }.

Definition is_alpha (c : Z) : bool := is_ascii_upper c || is_ascii_lower c.
Definition is_scheme_char (c : Z) : bool :=
  is_alpha c || is_ascii_digit c || (c =? 43) || (c =? 45) || (c =? 46).

Fixpoint lstrip_c0 (s : pystr) : pystr :=
  match s with
  | c :: t => if (0 <=? c) && (c <=? 32) then lstrip_c0 t else s
  | [] => []
  end.

(** [s.find(c)] split: the text before the first character that satisfies
    [p], and the text from that character on. *)
Fixpoint break_at (p : Z -> bool) (s : pystr) : pystr * pystr :=
  match s with
  | [] => ([], [])
  | c :: t => if p c then ([], s)
              else let '(a, b) := break_at p t in (c :: a, b)
  end.

Definition split_scheme (url : pystr) : pystr * pystr :=
  match break_at (fun c => c =? 58) url with
  | (c :: pre, _ :: rest_) =>
      if is_alpha c && forallb is_scheme_char (c :: pre)
      then (lower (c :: pre), rest_) else ([], url)
  | _ => ([], url)
  end.

Definition last_segment_params (url : pystr) : pystr :=
  (* [_splitparams]: cut at the first [;] after the last [/] *)
  let r := rev url in
  let '(seg_rev, before_rev) := break_at (fun c => c =? 47) r in
  let seg := rev seg_rev in
  rev before_rev ++ fst (break_at (fun c => c =? 59) seg).

(** [uses_params]: the schemes whose last path segment may carry [;params]. *)
Definition uses_params : list string :=
  [ ""; "ftp"; "hdl"; "prospero"; "http"; "imap"; "https"; "shttp"; "rtsp"; "rtspu";
    "sip"; "sips"; "mms"; "sftp"; "tel" ]%string.

Definition urlparse (url : pystr) : parsed :=
  let url := lstrip_c0 url in
  let url := List.filter (fun c => negb ((c =? 9) || (c =? 10) || (c =? 13))) url in
  let '(sch, url) := split_scheme url in
  let '(loc, url) :=
    match url with
    | 47 :: 47 :: t => break_at (fun c => (c =? 47) || (c =? 63) || (c =? 35)) t
    | _ => ([], url)
    end in
  let url := fst (break_at (fun c => c =? 35) url) in
  let url := fst (break_at (fun c => c =? 63) url) in
  let url := if existsb (fun x => str_eqb sch (u x)) uses_params
             then last_segment_params url else url in
  Parsed sch loc url.

End Urllib.

(** ** app/utils/deduplication.py

    A scholarship is the dict the detector reads, with the value types the
    pipeline stores: text fields are [str] (the empty string stands for a
    missing key, [None] or [''], which the guards [if x1 and x2] treat
    alike), [amount] and [quality_score] are numbers, [deadline] is a
    [datetime].  The empty dict is the record with every field missing. *)

Module Dedup.
Import Py PyTime.

Record scholarship := Scholarship {
  url : pystr;
  title : pystr;
  description : pystr;
  amount : option Q;
  deadline : option datetime;
  category : pystr;
  eligibility : pystr;
  quality_score : option Q
}.

Inductive field : Type :=
| f_url | f_title | f_description | f_amount | f_deadline | f_category | f_eligibility.

Definition field_eqb (a b : field) : bool :=
  match a, b with
  | f_url, f_url | f_title, f_title | f_description, f_description
  | f_amount, f_amount | f_deadline, f_deadline | f_category, f_category
  | f_eligibility, f_eligibility => true
  | _, _ => false
  end.

Inductive reason : Type :=
| MissingScholarshipData
| ExactUrlMatch
| HighTitleSimilarity (sim : Q)
| HighDescriptionSimilarity (sim : Q)
| SimilarAmounts
| SimilarDeadlines
| SimilarCategories
| SimilarEligibility.

Record DuplicationResult := mkResult {
  is_duplicate : bool;
  similarity_score : Q;
  matching_fields : list field;
  confidence : Q;
  reasons : list reason
}.

Definition similarity_threshold : Q := 8 # 10.

(** [_init_field_weights] *)
Definition field_weights (f : field) : Q :=
  match f with
  | f_title => 3 # 10
  | f_url => 25 # 100
  | f_description => 2 # 10
  | f_amount => 1 # 10
  | f_deadline => 5 # 100
  | f_category => 5 # 100
  | f_eligibility => 5 # 100
  end.

Definition stop_words : list string :=
  [ "the"; "and"; "or"; "but"; "in"; "on"; "at"; "to"; "for"; "of";
    "with"; "by"; "a"; "an"; "is"; "are"; "was"; "were"; "be"; "been";
    "have"; "has"; "had"; "do"; "does"; "did"; "will"; "would"; "could";
    "should"; "may"; "might"; "must"; "can"; "shall"; "this"; "that";
    "these"; "those"; "scholarship"; "award"; "grant"; "fellowship" ]%string.

Definition _normalize_url (url : pystr) : pystr :=
  match url with
  | [] => []
  | _ =>
      let parsed := Urllib.urlparse (lower url) in
      let netloc := Urllib.netloc parsed in
      let netloc := if startswith netloc (u "www.") then skipn 4 netloc else netloc in
      let path := rev (let fix drop (s : pystr) :=
                         match s with
                         | 47 :: t => drop t
                         | _ => s
                         end in drop (rev (Urllib.path parsed))) in
      Urllib.scheme parsed ++ u "://" ++ netloc ++ path
  end.

(** [re.sub(r'\s+', ' ', text)] *)
Fixpoint collapse_spaces (in_run : bool) (s : pystr) : pystr :=
  match s with
  | [] => []
  | c :: t => if is_space c
              then (if in_run then collapse_spaces true t else 32 :: collapse_spaces true t)
              else c :: collapse_spaces false t
  end.

Definition _normalize_text (text : pystr) : pystr :=
  match text with
  | [] => []
  | _ =>
      let text := lower text in
      (* re.sub(r'[^\w\s]', ' ', text) *)
      let text := List.map (fun c => if negb (is_word c) && negb (is_space c) then 32 else c) text in
      let text := collapse_spaces false text in
      let words := split_ws text in
      let words := List.filter
                     (fun w => negb (existsb (fun sw => str_eqb w (u sw)) stop_words)) words in
      join (u " ") words
  end.

Definition _calculate_text_similarity (text1 text2 : pystr) : Q :=
  match text1, text2 with
  | [], _ | _, [] => 0
  | _, _ =>
      let norm_text1 := _normalize_text text1 in
      let norm_text2 := _normalize_text text2 in
      match norm_text1, norm_text2 with
      | [], _ | _, [] => 0
      | _, _ => Difflib.ratio norm_text1 norm_text2
      end
  end.

Definition Qeqb (a b : Q) : bool := Qeq_bool a b.
Definition Qmax (a b : Q) : Q := if Qle_bool a b then b else a.
Definition Qmin (a b : Q) : Q := if Qle_bool a b then a else b.

(** [_compare_amounts] and, below, [_calculate_overall_similarity] in exact
    arithmetic; [DedupFloat] has both on floats. *)
Definition _compare_amounts (amount1 amount2 : Q) : Q :=
  let amt1 := amount1 in
  let amt2 := amount2 in
  if Qeqb amt1 0 && Qeqb amt2 0 then 1
  else if Qeqb amt1 0 || Qeqb amt2 0 then 0
  else
    let diff := Qabs (amt1 - amt2)%Q in
    let avg := ((amt1 + amt2) / 2)%Q in
    if Qeqb avg 0 then 1
    else
      let relative_diff := (diff / avg)%Q in
      Qmax 0 (1 - relative_diff)%Q.

(** [(date1 - date2).days]: whole days, rounded down. *)
Definition _compare_dates (date1 date2 : datetime) : Q :=
  let diff_days := Z.abs ((date1 - date2) / us_per_day) in
  if diff_days <=? 3 then 1
  else if diff_days <=? 7 then 8 # 10
  else if diff_days <=? 14 then 6 # 10
  else if diff_days <=? 30 then 4 # 10
  else 0.

Definition _calculate_overall_similarity (field_similarities : list (field * Q)) : Q :=
  match field_similarities with
  | [] => 0
  | _ =>
      let '(weighted_sum, total_weight) :=
        fold_left (fun '(ws, tw) '(f, similarity) =>
                     let weight := field_weights f in
                     ((ws + similarity * weight)%Q, (tw + weight)%Q))
                  field_similarities (0%Q, 0%Q) in
      if Qeqb total_weight 0 then 0%Q else (weighted_sum / total_weight)%Q
  end.

Definition _calculate_confidence (field_similarities : list (field * Q))
    (matching_fields : list field) : Q :=
  match field_similarities with
  | [] => 0
  | _ =>
      let field_coverage := (inject_Z (Z.of_nat (length field_similarities)) / 7)%Q in
      let critical_matches :=
        length (List.filter (fun f => existsb (field_eqb f) matching_fields) [f_url; f_title]) in
      let critical_bonus := (inject_Z (Z.of_nat critical_matches) / 2)%Q in
      Qmin 1 (field_coverage * (6 # 10) + critical_bonus * (4 # 10))%Q
  end.

Definition truthy_str (s : pystr) : bool := match s with [] => false | _ => true end.
Definition truthy_num (a : option Q) : bool :=
  match a with Some q => negb (Qeqb q 0) | None => false end.

Definition dict_is_empty (s : scholarship) : bool :=
  match url s, title s, description s, amount s, deadline s, category s, eligibility s,
        quality_score s with
  | [], [], [], None, None, [], [], None => true
  | _, _, _, _, _, _, _, _ => false
  end.

(** The accumulators of [detect_duplication]: [field_similarities],
    [matching_fields] and [reasons], each in insertion order. *)
Definition acc : Type := list (field * Q) * list field * list reason.

Definition compare_text (f : field) (bound : Q) (r : Q -> reason) (t1 t2 : pystr) (a : acc) : acc :=
  let '(fs, ms, rs) := a in
  if truthy_str t1 && truthy_str t2 then
    let sim := _calculate_text_similarity t1 t2 in
    if negb (Qle_bool sim bound)
    then (fs ++ [(f, sim)], ms ++ [f], rs ++ [r sim])
    else (fs ++ [(f, sim)], ms, rs)
  else a.

Definition field_comparisons (s1 s2 : scholarship) : acc :=
  let a : acc := ([], [], []) in
  (* URL comparison (exact match) *)
  let a :=
    let '(fs, ms, rs) := a in
    if truthy_str (url s1) && truthy_str (url s2) then
      if str_eqb (_normalize_url (url s1)) (_normalize_url (url s2))
      then (fs ++ [(f_url, 1%Q)], ms ++ [f_url], rs ++ [ExactUrlMatch])
      else (fs ++ [(f_url, 0%Q)], ms, rs)
    else a in
  let a := compare_text f_title (8 # 10) HighTitleSimilarity (title s1) (title s2) a in
  let a := compare_text f_description (7 # 10) HighDescriptionSimilarity
                        (description s1) (description s2) a in
  let a :=
    let '(fs, ms, rs) := a in
    match amount s1, amount s2 with
    | Some a1, Some a2 =>
        if truthy_num (Some a1) && truthy_num (Some a2) then
          let sim := _compare_amounts a1 a2 in
          if negb (Qle_bool sim (9 # 10))
          then (fs ++ [(f_amount, sim)], ms ++ [f_amount], rs ++ [SimilarAmounts])
          else (fs ++ [(f_amount, sim)], ms, rs)
        else a
    | _, _ => a
    end in
  let a :=
    let '(fs, ms, rs) := a in
    match deadline s1, deadline s2 with
    | Some d1, Some d2 =>
        let sim := _compare_dates d1 d2 in
        if negb (Qle_bool sim (8 # 10))
        then (fs ++ [(f_deadline, sim)], ms ++ [f_deadline], rs ++ [SimilarDeadlines])
        else (fs ++ [(f_deadline, sim)], ms, rs)
    | _, _ => a
    end in
  let a := compare_text f_category (7 # 10) (fun _ => SimilarCategories)
                        (category s1) (category s2) a in
  compare_text f_eligibility (6 # 10) (fun _ => SimilarEligibility)
               (eligibility s1) (eligibility s2) a.

Definition detect_duplication (scholarship1 scholarship2 : scholarship) : DuplicationResult :=
  if dict_is_empty scholarship1 || dict_is_empty scholarship2 then
    mkResult false 0 [] 0 [MissingScholarshipData]
  else
    let '(field_similarities, matching_fields, reasons) :=
      field_comparisons scholarship1 scholarship2 in
    let overall_similarity := _calculate_overall_similarity field_similarities in
    let is_duplicate := Qle_bool similarity_threshold overall_similarity in
    let confidence := _calculate_confidence field_similarities matching_fields in
    mkResult is_duplicate overall_similarity matching_fields confidence reasons.

Definition are_duplicates (scholarship1 scholarship2 : scholarship) : bool :=
  is_duplicate (detect_duplication scholarship1 scholarship2).

(** [find_duplicates_in_batch]: the pairs [i < j] detected as duplicates, in
    the order of the two nested loops. *)
Definition find_duplicates_in_batch (scholarships : list scholarship)
  : list (nat * nat * DuplicationResult) :=
  let n := length scholarships in
  flat_map (fun i =>
    flat_map (fun j =>
      match scholarships !! i, scholarships !! j with
      | Some si, Some sj =>
          let result := detect_duplication si sj in
          if is_duplicate result then [(i, j, result)] else []
      | _, _ => []
      end) (seq (i + 1) (n - (i + 1)))) (seq 0 n).

(** One round of the grouping loop of [get_duplicate_groups], on the list
    [groups] and the dict [index_to_group]. *)
Definition add_pair (st : list (list nat) * gmap nat nat) (i j : nat)
  : list (list nat) * gmap nat nat :=
  let '(groups, index_to_group) := st in
  match index_to_group !! i, index_to_group !! j with
  | None, None =>
      (* Create new group *)
      (groups ++ [[i; j]],
       <[j := length groups]> (<[i := length groups]> index_to_group))
  | Some group_i, None =>
      (* Add j to group i *)
      (alter (fun g => g ++ [j]) group_i groups, <[j := group_i]> index_to_group)
  | None, Some group_j =>
      (* Add i to group j *)
      (alter (fun g => g ++ [i]) group_j groups, <[i := group_j]> index_to_group)
  | Some group_i, Some group_j =>
      if decide (group_i = group_j) then st
      else
        (* Merge groups *)
        let group_to_merge := default [] (groups !! group_j) in
        (<[group_j := []]> (alter (fun g => g ++ group_to_merge) group_i groups),
         foldl (fun m idx => <[idx := group_i]> m) index_to_group group_to_merge)
  end.

Definition build_groups (pairs : list (nat * nat * DuplicationResult)) : list (list nat) :=
  let '(groups, _) :=
    foldl (fun st '(i, j, _) => add_pair st i j) ([], ∅) pairs in
  (* Remove empty groups *)
  List.filter (fun g => match g with [] => false | _ => true end) groups.

Definition get_duplicate_groups (scholarships : list scholarship) : list (list nat) :=
  build_groups (find_duplicates_in_batch scholarships).

Definition score_of (scholarships : list scholarship) (idx : nat) : Q :=
  match scholarships !! idx with
  | Some s => default 0%Q (quality_score s)
  | None => 0%Q
  end.

(** The indices one group contributes to [indices_to_remove]. *)
Definition removed_of_group (scholarships : list scholarship) (keep_strategy : string)
    (group : list nat) : list nat :=
  if Nat.leb (length group) 1 then []
  else if String.eqb keep_strategy "first" then skipn 1 group
  else if String.eqb keep_strategy "last" then removelast group
  else if String.eqb keep_strategy "best" then
    match group with
    | [] => []
    | g0 :: tl =>
        let '(best_idx, _) :=
          foldl (fun '(best_idx, best_score) idx =>
                   let score := score_of scholarships idx in
                   if negb (Qle_bool score best_score)
                   then (idx, score) else (best_idx, best_score))
                (g0, score_of scholarships g0) tl in
        List.filter (fun idx => negb (Nat.eqb idx best_idx)) group
    end
  else [].

Definition indices_to_remove (scholarships : list scholarship) (keep_strategy : string)
  : gset nat :=
  foldl (fun acc_ group => acc_ ∪ list_to_set (removed_of_group scholarships keep_strategy group))
        ∅ (get_duplicate_groups scholarships).

(** [[s for i, s in enumerate(l) if i not in removed]] *)
Fixpoint keep_from (i : nat) (removed : gset nat) (l : list scholarship) : list scholarship :=
  match l with
  | [] => []
  | s :: t => if decide (i ∈ removed) then keep_from (S i) removed t
              else s :: keep_from (S i) removed t
  end.

Definition deduplicate_scholarships (scholarships : list scholarship) (keep_strategy : string)
  : list scholarship :=
  match scholarships with
  | [] => []
  | _ => keep_from 0 (indices_to_remove scholarships keep_strategy) scholarships
  end.

(** [calculate_deduplication_stats] *)
Record deduplication_stats := mkStats {
  original_count : Z;
  deduplicated_count : Z;
  removed_count : Z;
  duplicate_groups : Z;
  duplicate_pairs : Z;
  deduplication_rate : Q
}.

Definition calculate_deduplication_stats (original_count deduplicated_count : Z)
    (duplicate_groups : list (list nat)) : deduplication_stats :=
  let removed_count := original_count - deduplicated_count in
  let duplicate_pairs :=
    fold_left Z.add
      (List.map (fun group => Z.of_nat (length group) - 1)
                (List.filter (fun group => Z.of_nat (length group) >? 1) duplicate_groups))
      0 in
  mkStats original_count deduplicated_count removed_count
          (Z.of_nat (length duplicate_groups)) duplicate_pairs
          (if original_count >? 0
           then (inject_Z removed_count / inject_Z original_count * 100)%Q else 0%Q).

End Dedup.

(** ** Float arithmetic with rounding

    An operation on floats returns the rounding of its exact result.  [rnd]
    is that rounding: it sends a real number to the float nearest to it, and
    to an infinity when the number is out of the range of the format.  The
    special values combine as in IEEE 754; the sign of a zero is not kept
    (it decides no comparison).  A division by zero raises
    [ZeroDivisionError], here [OtherException]. *)

Module FloatArith.
Import PyFloat PyTime.

Definition fneg (a : pyfloat) : pyfloat :=
  match a with
  | FNum x => FNum (- x)
  | FInf => FNegInf
  | FNegInf => FInf
  | FNan => FNan
  end.

(** [abs(a)] *)
Definition fabs (a : pyfloat) : pyfloat :=
  match a with
  | FNum x => FNum (Qabs x)
  | FInf | FNegInf => FInf
  | FNan => FNan
  end.

(** [a == 0] *)
Definition is_zero (a : pyfloat) : bool :=
  match a with
  | FNum x => Qeq_bool x 0
  | _ => false
  end.

(** An infinity times or divided by the finite [x]. *)
Definition scaled_inf (positive : bool) (x : Q) (when_zero : pyfloat) : pyfloat :=
  if Qeq_bool x 0 then when_zero
  else if Bool.eqb positive (Qle_bool 0 x) then FInf else FNegInf.

(** [max(a, b)]: [b] when [b > a], otherwise [a]. *)
Definition py_max (a b : pyfloat) : pyfloat := if fgt b a then b else a.

Section Rounded.
Variable rnd : Q -> pyfloat.

Definition fadd (a b : pyfloat) : pyfloat :=
  match a, b with
  | FNan, _ | _, FNan => FNan
  | FNum x, FNum y => rnd (x + y)
  | FInf, FNegInf | FNegInf, FInf => FNan
  | FInf, _ | _, FInf => FInf
  | FNegInf, _ | _, FNegInf => FNegInf
  end.

Definition fsub (a b : pyfloat) : pyfloat := fadd a (fneg b).

Definition fmul (a b : pyfloat) : pyfloat :=
  match a, b with
  | FNan, _ | _, FNan => FNan
  | FNum x, FNum y => rnd (x * y)
  | FNum x, FInf | FInf, FNum x => scaled_inf true x FNan
  | FNum x, FNegInf | FNegInf, FNum x => scaled_inf false x FNan
  | FInf, FInf | FNegInf, FNegInf => FInf
  | FInf, FNegInf | FNegInf, FInf => FNegInf
  end.

Definition fdiv (a b : pyfloat) : res pyfloat :=
  if is_zero b then Raise OtherException
  else
    Ok match a, b with
       | FNan, _ | _, FNan => FNan
       | FNum x, FNum y => rnd (x / y)
       | FNum _, (FInf | FNegInf) => FNum 0
       | FInf, FNum y => scaled_inf true y FNan
       | FNegInf, FNum y => scaled_inf false y FNan
       | (FInf | FNegInf), (FInf | FNegInf) => FNan
       end.

End Rounded.

(** What the rounding of a binary floating-point format with round-to-nearest
    satisfies: it depends on the value only, it is monotone and odd, it
    leaves a float as it is, and a number [n / 2 ^ e] with a numerator of at
    most 53 bits, down to the smallest exponent of the format, is a float. *)
Record rounding (rnd : Q -> pyfloat) : Prop := Rounding {
  rnd_ext : forall x y : Q, (x == y)%Q -> rnd x = rnd y;
  rnd_mono : forall x y : Q, (x <= y)%Q -> fle (rnd x) (rnd y) = true;
  rnd_idem : forall x q : Q, rnd x = FNum q -> rnd q = FNum q;
  rnd_opp : forall x : Q, rnd (- x)%Q = fneg (rnd x);
  rnd_dyadic : forall (n : Z) (e : nat),
      Z.abs n <= 2 ^ 53 -> (e <= 1074)%nat ->
      exists q, rnd (inject_Z n / inject_Z (2 ^ Z.of_nat e))%Q = FNum q /\
                (q == inject_Z n / inject_Z (2 ^ Z.of_nat e))%Q
}.

(** Two roundings: no rounding at all, which is the arithmetic of [Dedup],
    and no rounding below [2 ^ 1024], an infinity from there on. *)
Definition exact (x : Q) : pyfloat := FNum x.

Definition float_limit : Q := inject_Z (2 ^ 1024).
Definition exact_in_range (x : Q) : pyfloat :=
  if Qle_bool float_limit x then FInf
  else if Qle_bool x (- float_limit) then FNegInf
  else FNum (Qred x).

End FloatArith.

(** ** The similarity scores of app/utils/deduplication.py on floats

    [_compare_amounts] and [_calculate_overall_similarity] operation by
    operation, for any rounding [rnd].  Their versions in [Dedup] are these
    with the rounding [exact]. *)

Module DedupFloat.
Import Py PyFloat PyTime FloatArith.

Section Rounded.
Variable rnd : Q -> pyfloat.

(** A weight of [field_weights]: the float of the decimal literal. *)
Definition field_weights (f : Dedup.field) : pyfloat := rnd (Dedup.field_weights f).

(** [amount1] and [amount2] are the values of [float(amount1)] and
    [float(amount2)]. *)
Definition _compare_amounts (amount1 amount2 : pyfloat) : res pyfloat :=
  let amt1 := amount1 in
  let amt2 := amount2 in
  if is_zero amt1 && is_zero amt2 then Ok (FNum 1)
  else if is_zero amt1 || is_zero amt2 then Ok (FNum 0)
  else
    let diff := fabs (fsub rnd amt1 amt2) in
    let! avg := fdiv rnd (fadd rnd amt1 amt2) (FNum 2) in
    if is_zero avg then Ok (FNum 1)
    else
      let! relative_diff := fdiv rnd diff avg in
      let similarity := py_max (FNum 0) (fsub rnd (FNum 1) relative_diff) in
      Ok similarity.

Definition weigh (acc : pyfloat * pyfloat) (item : Dedup.field * pyfloat)
  : pyfloat * pyfloat :=
  let '(weighted_sum, total_weight) := acc in
  let '(f, similarity) := item in
  let weight := field_weights f in
  (fadd rnd weighted_sum (fmul rnd similarity weight), fadd rnd total_weight weight).

Definition _calculate_overall_similarity (field_similarities : list (Dedup.field * pyfloat))
  : res pyfloat :=
  match field_similarities with
  | [] => Ok (FNum 0)
  | _ =>
      let '(weighted_sum, total_weight) :=
        fold_left weigh field_similarities (FNum 0, FNum 0) in
      if is_zero total_weight then Ok (FNum 0)
      else fdiv rnd weighted_sum total_weight
  end.

End Rounded.

End DedupFloat.

(** ** app/services/validation_service.py

    The network is an argument: [validate_url] receives what
    [session.get(url)] and the reads of the response produce, a response or
    an exception (a subclass of [Exception]; task cancellation is not
    modelled).  Times are seconds. *)

Module LinkValidation.
Import Py Re PyTime.

Inductive LinkStatus : Type :=
| VALID | INVALID | BROKEN | SUSPICIOUS | REDIRECT | SLOW | BLOCKED.

Inductive issue : Type :=
| InvalidUrlFormat
| SuspiciousPattern (pattern : string)
| HttpError (status : Z)
| SlowResponseTime
| UrlRedirected
| EmptyContent
| VeryShortContent
| SuspiciousContent (pattern : string)
| MissingEligibilityCriteria
| MissingDeadlineInformation
| ConnectionError
| RequestTimeout
| ValidationError.

Record ValidationResult := mkValidation {
  vr_url : pystr;
  vr_status : LinkStatus;
  response_code : Z;
  response_time : Q;
  final_url : pystr;
  content_type : pystr;
  content_length : Z;
  quality_score : Q;
  issues : list issue
}.

Definition trusted_domains : list string :=
  [ "scholarships.gov.in"; "nsp.gov.in"; "ugc.ac.in"; "aicte-india.org"; "dst.gov.in";
    "csir.res.in"; "icmr.gov.in"; "dbt.gov.in"; "icar.org.in"; "indianrailways.gov.in";
    "pfms.nic.in"; "aiims.edu"; "iit.ac.in"; "iisc.ac.in"; "bits-pilani.ac.in";
    "gov.in"; "nic.in"; "edu" ]%string.

(** The patterns are literal texts (the only special character is the
    escaped dot). *)
Definition suspicious_patterns : list string :=
  [ "bit.ly"; "tinyurl.com"; "goo.gl"; "t.co"; "shorturl.at"; "click.here";
    "download.now"; "free.money"; "guaranteed.scholarship"; "100%.scholarship";
    "no.application.fee"; "instant.approval" ]%string.

Definition count_in (content : pystr) (keywords : list string) : Z :=
  Z.of_nat (length (List.filter (fun k => contains (lower content) (lower (u k))) keywords)).

Definition _is_suspicious_content (content : pystr) : bool :=
  match content with
  | [] => true
  | _ =>
      let promotional_count :=
        count_in content ["guaranteed"; "instant"; "free money"; "no fee"; "easy money"]%string in
      if promotional_count >? 3 then true
      else if len content <? 200 then true
      else false
  end.

Definition _determine_status (status_code : Z) (response_time : Q) (final_url content : pystr)
  : LinkStatus :=
  if status_code >=? 400 then BROKEN
  else if negb (Qle_bool response_time 10) then SLOW
  else if _is_suspicious_content content then SUSPICIOUS
  else if existsb (Z.eqb status_code) [301; 302; 303; 307; 308] then REDIRECT
  else VALID.

Definition _get_domain_trust_score (url : pystr) : Q :=
  let domain := lower (Urllib.netloc (Urllib.urlparse url)) in
  if existsb (fun t => str_eqb domain (u t)) trusted_domains then 100
  else if existsb (fun t => endswith domain (u "." ++ u t)) trusted_domains then 95
  else if endswith domain (u ".gov.in") || endswith domain (u ".gov") then 90
  else if endswith domain (u ".edu") || endswith domain (u ".ac.in") then 85
  else if endswith domain (u ".org") then 75
  else if endswith domain (u ".com") || endswith domain (u ".in") then 60
  else 40.

Definition Qmin (a b : Q) : Q := if Qle_bool a b then a else b.
Definition Qmax (a b : Q) : Q := if Qle_bool a b then b else a.

Definition _get_content_quality_score (content : pystr) : Q :=
  match content with
  | [] => 0
  | _ =>
      let score := 50%Q in
      let keyword_count :=
        count_in content
          [ "scholarship"; "fellowship"; "grant"; "financial aid"; "education";
            "student"; "application"; "eligibility"; "criteria"; "deadline" ]%string in
      let score := (score + Qmin 30 (inject_Z keyword_count * 3))%Q in
      let process_count :=
        count_in content
          [ "apply"; "application form"; "submit"; "documents"; "requirements";
            "how to apply"; "selection process"; "merit"; "interview" ]%string in
      let score := (score + Qmin 20 (inject_Z process_count * 2))%Q in
      let spam_count :=
        count_in content
          [ "click here"; "act now"; "limited time"; "guaranteed"; "instant";
            "free money"; "no fee"; "easy money"; "work from home" ]%string in
      let score := (score - Qmin 40 (inject_Z spam_count * 10))%Q in
      let score := if len content >? 1000 then (score + 10)%Q
                   else if len content >? 500 then (score + 5)%Q else score in
      Qmin 100 (Qmax 0 score)
  end.

Definition _calculate_quality_score (original_url final_url content content_type : pystr)
    (status_code : Z) (response_time : Q) : Q :=
  let score := 100%Q in
  let domain_score := _get_domain_trust_score final_url in
  let score := (score * (domain_score / 100))%Q in
  let score := if status_code >=? 400 then (score * 0)%Q
               else if status_code >=? 300 then (score * (8 # 10))%Q else score in
  let score := if negb (Qle_bool response_time 10) then (score * (5 # 10))%Q
               else if negb (Qle_bool response_time 5) then (score * (8 # 10))%Q else score in
  let content_score := _get_content_quality_score content in
  let score := (score * (content_score / 100))%Q in
  let score := if contains content_type (u "text/html") then (score * (11 # 10))%Q
               else if contains content_type (u "application/pdf") then (score * (105 # 100))%Q
               else score in
  let score := if negb (str_eqb original_url final_url) then (score * (9 # 10))%Q else score in
  Qred (Qmin 100 (Qmax 0 score)).          (* the fraction in lowest terms *)

Definition _check_content_quality (content : pystr) : list issue :=
  match content with
  | [] => [EmptyContent]
  | _ =>
      let lc := lower content in
      (if len content <? 100 then [VeryShortContent] else []) ++
      List.map SuspiciousContent
        (List.filter (fun p => contains lc (lower (u p)))
           [ "click here to download"; "guaranteed scholarship"; "no application fee";
             "instant approval"; "limited time offer" ]%string) ++
      (if negb (contains lc (u "eligibility")) then [MissingEligibilityCriteria] else []) ++
      (if negb (contains lc (u "deadline")) && negb (contains lc (u "last date"))
       then [MissingDeadlineInformation] else [])
  end.

(** What the network returns.  [elapsed] is the time from [start_time] to the
    moment the code reads the clock again. *)
Record response := Response {
  r_status : Z;
  r_content_type : pystr;                   (* headers.get('content-type', '') *)
  r_content_length : option pystr;          (* the Content-Length header, if any *)
  r_url : pystr;                            (* str(response.url) *)
  r_text : res pystr                        (* await response.text() *)
}.

Record fetch := Fetch {
  elapsed : Q;
  got : res response                        (* session.get(url, allow_redirects=True) *)
}.

(** [int(s)] for a header value: optional sign and decimal digits, blanks
    around; [ValueError] otherwise. *)
Definition int_of_str (s : pystr) : res Z :=
  let s := strip s in
  let '(neg, ds) := match s with
                    | 45 :: t => (true, t)
                    | 43 :: t => (false, t)
                    | _ => (false, s)
                    end in
  match ds with
  | [] => Raise ValueError
  | _ => if forallb is_ascii_digit ds
         then Ok (if neg then - int_of_digits ds else int_of_digits ds)
         else Raise ValueError
  end.

(** The body of the inner [try]: from [session.get] to the result. *)
Definition fetch_and_score (url : pystr) (issues0 : list issue) (w : fetch)
  : res ValidationResult :=
  let! r := got w in
  let response_time := elapsed w in
  let content_type := r_content_type r in
  let! content_length := match r_content_length r with
                         | None => Ok 0
                         | Some h => int_of_str h
                         end in
  let final := r_url r in
  let! content := r_text r in
  let status := _determine_status (r_status r) response_time final content in
  let quality := _calculate_quality_score url final content content_type
                                          (r_status r) response_time in
  let issues1 :=
    issues0 ++
    (if r_status r >=? 400 then [HttpError (r_status r)] else []) ++
    (if negb (Qle_bool response_time 10) then [SlowResponseTime] else []) ++
    (if negb (str_eqb final url) then [UrlRedirected] else []) ++
    _check_content_quality content in
  Ok (mkValidation url status (r_status r) response_time final content_type
                   content_length quality issues1).

Definition failed (url : pystr) (st : LinkStatus) (t : Q) (i : issue) : ValidationResult :=
  mkValidation url st 0 t url [] 0 0 [i].

Definition validate_url (url : pystr) (w : fetch) : res ValidationResult :=
  let parsed_url := Urllib.urlparse url in
  match Urllib.scheme parsed_url, Urllib.netloc parsed_url with
  | [], _ | _, [] => Ok (failed url INVALID 0 InvalidUrlFormat)
  | _, _ =>
      let issues0 :=
        List.map SuspiciousPattern
          (List.filter (fun p => match search true (lit p) url with
                                 | Some _ => true | None => false end)
                       suspicious_patterns) in
      match fetch_and_score url issues0 w with
      | Ok result => Ok result
      | Raise ClientError => Ok (failed url BROKEN (elapsed w) ConnectionError)
      | Raise TimeoutError => Ok (failed url SLOW (elapsed w) RequestTimeout)
      | Raise _ => Ok (failed url INVALID (elapsed w) ValidationError)   (* except Exception *)
      end
  end.

(** [validate_urls_batch]: each URL comes with what its fetch yields.  The
    batches are the slices [urls[i:i + batch_size]] for [i] in
    [range(0, len(urls), batch_size)]; [gather] keeps the results that are
    not exceptions. *)
Fixpoint batches {A : Type} (rounds : nat) (batch_size : nat) (l : list A) : list (list A) :=
  match rounds, l with
  | S rounds', _ :: _ => firstn batch_size l :: batches rounds' batch_size (skipn batch_size l)
  | _, _ => []
  end.

Definition gather (batch : list (pystr * fetch)) : list ValidationResult :=
  flat_map (fun '(url, w) => match validate_url url w with
                             | Ok result => [result]
                             | Raise _ => []
                             end) batch.

Definition validate_urls_batch (urls : list (pystr * fetch)) (batch_size : Z)
  : res (list ValidationResult) :=
  if batch_size =? 0 then Raise ValueError          (* range() arg 3 must not be zero *)
  else if batch_size <? 0 then Ok []                (* an empty range *)
  else Ok (flat_map gather (batches (length urls) (Z.to_nat batch_size) urls)).

Definition status_eqb (a b : LinkStatus) : bool :=
  match a, b with
  | VALID, VALID | INVALID, INVALID | BROKEN, BROKEN | SUSPICIOUS, SUSPICIOUS
  | REDIRECT, REDIRECT | SLOW, SLOW | BLOCKED, BLOCKED => true
  | _, _ => false
  end.

(** [status_counts[status] += 1], after [status_counts[status] = 0] for a new
    key; the dict is the list of its items in insertion order. *)
Fixpoint count_status (status_counts : list (LinkStatus * Z)) (status : LinkStatus)
  : list (LinkStatus * Z) :=
  match status_counts with
  | [] => [(status, 0 + 1)]
  | (k, n) :: t => if status_eqb k status then (k, n + 1) :: t
                   else (k, n) :: count_status t status
  end.

Fixpoint Qsum (l : list Q) : Q :=
  match l with
  | [] => 0
  | x :: t => (x + Qsum t)%Q
  end.

Record summary := mkSummary {
  total_urls : Z;
  status_distribution : list (LinkStatus * Z);
  average_response_time : Q;
  average_quality_score : Q
}.

(** [get_validation_summary]: [None] is the empty dict returned for no
    results. *)
Definition get_validation_summary (results : list ValidationResult) : option summary :=
  match results with
  | [] => None
  | _ =>
      let total_count := Z.of_nat (length results) in
      let status_counts :=
        fold_left (fun status_counts result => count_status status_counts (vr_status result))
                  results [] in
      Some (mkSummary total_count status_counts
              (Qsum (List.map response_time results) / inject_Z total_count)%Q
              (Qsum (List.map quality_score results) / inject_Z total_count)%Q)
  end.

End LinkValidation.

(** ** app/services/scraping_service.py *)

Module Scraping.
Import Py PyTime PyFloat.

(** *** Values of the extracted-data dicts ([Dict[str, Any]]) *)

#[warnings="-register-all"]
Inductive pyval : Type :=
| VNone
| VStr (s : pystr)
| VInt (z : Z)
| VFloat (f : pyfloat)
| VDate (d : date)
| VDatetime (d : datetime)
| VList (l : list pyval).

Definition truthy (v : pyval) : bool :=
  match v with
  | VNone => false
  | VStr s => match s with [] => false | _ => true end
  | VInt z => negb (z =? 0)
  | VFloat (FNum q) => negb (Qeq_bool q 0)
  | VFloat _ => true
  | VDate _ | VDatetime _ => true
  | VList l => match l with [] => false | _ => true end
  end.

(** [data.get(key, default)] *)
Definition get (data : gmap string pyval) (key : string) (default : pyval) : pyval :=
  match data !! key with
  | Some v => v
  | None => default
  end.

(** [v.strip()]: [AttributeError] unless [v] is a [str]. *)
Definition strip_val (v : pyval) : res pystr :=
  match v with
  | VStr s => Ok (strip s)
  | _ => Raise AttributeError
  end.

(** *** Keyword tables *)

Definition category_keywords : list (string * list string) :=
  [ ("merit", ["merit"; "toppers"; "academic excellence"; "outstanding"]);
    ("need-based", ["need based"; "financial aid"; "economically weaker"; "poor"]);
    ("minority", ["minority"; "muslim"; "christian"; "sikh"; "buddhist"; "jain"]);
    ("women", ["women"; "girl"; "female"; "lady"; "mother"]);
    ("disabled", ["disabled"; "handicapped"; "divyang"; "differently abled"]);
    ("sc", ["sc"; "scheduled caste"; "dalit"]);
    ("st", ["st"; "scheduled tribe"; "tribal"]);
    ("obc", ["obc"; "other backward class"; "backward"]);
    ("sports", ["sports"; "athlete"; "games"; "physical education"]);
    ("arts", ["arts"; "cultural"; "music"; "dance"; "painting"]);
    ("science", ["science"; "research"; "scientific"; "innovation"]);
    ("technology", ["technology"; "technical"; "engineering"; "it"]);
    ("medical", ["medical"; "medicine"; "healthcare"; "doctor"; "nurse"]);
    ("engineering", ["engineering"; "engineer"; "technical"]);
    ("law", ["law"; "legal"; "advocate"; "lawyer"]);
    ("management", ["management"; "mba"; "business"; "commerce"]);
    ("agriculture", ["agriculture"; "farming"; "agricultural"]);
    ("international", ["international"; "foreign"; "abroad"; "overseas"]) ]%string.

Definition level_keywords : list (string * list string) :=
  [ ("pre-matric", ["pre matric"; "class 9"; "class 10"; "9th"; "10th"]);
    ("post-matric", ["post matric"; "class 11"; "class 12"; "11th"; "12th"]);
    ("graduation", ["graduation"; "bachelor"; "ba"; "bsc"; "bcom"; "be"; "btech";
                    "undergraduate"]);
    ("post-graduation", ["post graduation"; "masters"; "ma"; "msc"; "mcom"; "mba"; "mtech";
                         "postgraduate"]);
    ("doctorate", ["doctorate"; "phd"; "doctoral"; "research"]);
    ("diploma", ["diploma"; "polytechnic"]);
    ("certificate", ["certificate"; "certification"]);
    ("professional", ["professional"; "ca"; "cs"; "cma"; "medical"; "law"]);
    ("vocational", ["vocational"; "skill"; "training"; "iti"]) ]%string.

(** [settings.INDIAN_STATES] *)
Definition INDIAN_STATES : list string :=
  [ "Andhra Pradesh"; "Arunachal Pradesh"; "Assam"; "Bihar"; "Chhattisgarh";
    "Goa"; "Gujarat"; "Haryana"; "Himachal Pradesh"; "Jharkhand"; "Karnataka";
    "Kerala"; "Madhya Pradesh"; "Maharashtra"; "Manipur"; "Meghalaya"; "Mizoram";
    "Nagaland"; "Odisha"; "Punjab"; "Rajasthan"; "Sikkim"; "Tamil Nadu";
    "Telangana"; "Tripura"; "Uttar Pradesh"; "Uttarakhand"; "West Bengal";
    "Andaman and Nicobar Islands"; "Chandigarh";
    "Dadra and Nagar Haveli and Daman and Diu";
    "Delhi"; "Jammu and Kashmir"; "Ladakh"; "Lakshadweep"; "Puducherry" ]%string.

Definition state_abbr : list (string * string) :=
  [ ("up", "Uttar Pradesh"); ("mp", "Madhya Pradesh"); ("hp", "Himachal Pradesh");
    ("ap", "Andhra Pradesh"); ("tn", "Tamil Nadu"); ("wb", "West Bengal");
    ("rj", "Rajasthan"); ("gj", "Gujarat"); ("mh", "Maharashtra"); ("ka", "Karnataka");
    ("kl", "Kerala"); ("od", "Odisha"); ("as", "Assam"); ("jh", "Jharkhand");
    ("ch", "Chhattisgarh"); ("hr", "Haryana"); ("pb", "Punjab"); ("br", "Bihar");
    ("uk", "Uttarakhand"); ("ga", "Goa"); ("sk", "Sikkim"); ("mn", "Manipur");
    ("mg", "Meghalaya"); ("mz", "Mizoram"); ("nl", "Nagaland"); ("tr", "Tripura");
    ("ar", "Arunachal Pradesh") ]%string.

Definition first_key (text : pystr) (table : list (string * list string)) (default : string)
  : pystr :=
  match List.find (fun '(_, keywords) => existsb (fun k => contains text (u k)) keywords)
                  table with
  | Some (k, _) => u k
  | None => u default
  end.

Definition _extract_category (title description : pystr) : pystr :=
  let text := lower (title ++ u " " ++ description) in
  first_key text category_keywords "general".

Definition info_text (title description : pystr) (eligibility : list pystr) : pystr :=
  lower (title ++ u " " ++ description ++ u " " ++ join (u " ") eligibility).

Definition _extract_education_level (title description : pystr) (eligibility : list pystr)
  : pystr :=
  first_key (info_text title description eligibility) level_keywords "all-levels".

Definition _extract_state (title description : pystr) (eligibility : list pystr) : pystr :=
  let text := info_text title description eligibility in
  match List.find (fun state => contains text (lower (u state))) INDIAN_STATES with
  | Some state => u state
  | None =>
      match List.find (fun '(abbr, _) => contains text (u abbr)) state_abbr with
      | Some (_, full_name) => u full_name
      | None => u "All India"
      end
  end.

(** [_generate_tags]: the keywords found; the two keyword lists are disjoint,
    so [list(set(tags))] only changes the order, which is unspecified. *)
Definition _generate_tags (title description : pystr) (eligibility : list pystr)
  : list pystr :=
  let text := info_text title description eligibility in
  List.map u
    (List.filter (fun k => contains text (u k))
       (app [ "scholarship"; "fellowship"; "grant"; "award"; "stipend"; "merit"; "need";
              "minority"; "women"; "disabled"; "sports"; "arts"; "science"; "technology";
              "medical"; "engineering"; "government"; "private"; "international";
              "research" ]%string
            [ "university"; "college"; "school"; "institute"; "iit"; "nit"; "iiit";
              "aiims" ]%string)).

(** *** The record the service builds ([ScrapedScholarship]), with the fields
    the scorer reads *)

Record ScrapedScholarship := mkScraped {
  title : pystr;
  description : pystr;
  amount : option pyfloat;
  deadline : option pystr;
  eligibility : list pystr;
  application_url : pystr;
  source : pystr;
  category : pystr;
  level : pystr;
  state : pystr
}.

(** *** The cleaned dict of [_clean_and_validate_data] *)

Record cleaned := mkCleaned {
  c_title : pystr;
  c_description : pystr;
  c_amount : option pyfloat;
  c_deadline : option pyval;           (* the value whose [isoformat()] is stored *)
  c_eligibility : list pystr;
  c_application_url : pystr;
  c_category : pystr;
  c_level : pystr;
  c_state : pystr;
  c_provider : pyval;
  c_contact_email : pyval;
  c_contact_phone : pyval;
  c_application_process : pyval;
  c_benefits : pyval;
  c_selection_criteria : pyval;
  c_required_documents : pyval;
  c_tags : list pystr
}.

(** [a < today] for a [date] [today]: only a [date] that is not a [datetime]
    can be compared; everything else raises [TypeError]. *)
Definition lt_date (a : pyval) (today : date) : res bool :=
  match a with
  | VDate d => Ok (d <? today)
  | _ => Raise TypeError
  end.

(** The outcome of a validation block that may end the function. *)
Inductive gate (A : Type) : Type :=
| Rejected                             (* return None *)
| Passed (a : A).
Arguments Rejected {A}.
Arguments Passed {A} a.

(** app/utils/text_processing.py, [clean_text]; [html.unescape] and
    [unicodedata.normalize('NFKD', _)] are arguments. *)
Definition clean_text (unescape NFKD : pystr -> pystr) (text : pystr) : pystr :=
  match text with
  | [] => []
  | _ => strip (Dedup.collapse_spaces false (NFKD (unescape text)))
  end.

(** app/utils/date_parser.py, [parse_date], as a function from a value to a
    value: a [datetime] or [None]. *)
Definition parse_date_value (now : datetime) (s : pystr) : res pyval :=
  let! d := DateParser.parse_date now s in
  Ok (match d with Some dt => VDatetime dt | None => VNone end).

Section Service.
(** The service holds a [DateParser] and a [TextProcessor]; neither class is
    defined in the repository (app/utils/date_parser.py and
    app/utils/text_processing.py define functions [parse_date] and
    [clean_text], no class), so the two methods the service calls are
    parameters here.  The properties that depend on them instantiate them
    with the functions of those modules, [parse_date_value] and
    [clean_text]. *)
Variable date_parser_parse_date : pystr -> res pyval.     (* self.date_parser.parse_date *)
Variable text_processor_clean_text : pystr -> res pystr.  (* self.text_processor.clean_text *)
(** Standard-library functions the service calls, and the clock. *)
Variable urljoin : pystr -> pystr -> pystr.         (* urllib.parse.urljoin *)
Variable float_of_str : pystr -> res pyfloat.       (* float(s) *)
Variable fromisoformat : pystr -> res datetime.     (* datetime.fromisoformat *)
Variable now : datetime.                            (* datetime.now() *)

(** [self.link_validator.validate_url(url)] is called without [await]: the
    value tested is the coroutine object, which is always true. *)
Definition validate_url_unawaited (url : pystr) : bool := true.

(** [float(amount)]; an [int] beyond the range of a float raises
    [OverflowError]. *)
Definition to_float (v : pyval) : res pyfloat :=
  match v with
  | VInt z => if Z.abs z <? 2 ^ 1024 then Ok (of_Z z) else Raise OverflowError
  | VFloat f => Ok f
  | VStr s => float_of_str s
  | _ => Raise TypeError
  end.

(** The "Validate amount" block. *)
Definition validate_amount (amount : pyval) : res (option pyfloat) :=
  match amount with
  | VNone => Ok None
  | _ =>
      match to_float amount with
      | Ok f => Ok (if fle f (of_Z 0) then None else Some f)
      | Raise ValueError | Raise TypeError => Ok None   (* except (ValueError, TypeError) *)
      | Raise e => Raise e
      end
  end.

(** The "Validate deadline" block. *)
Definition validate_deadline (deadline : pyval) : gate pyval :=
  if truthy deadline then
    let block : res (gate pyval) :=
      let! deadline := match deadline with
                       | VStr s => date_parser_parse_date s    (* isinstance(deadline, str) *)
                       | v => Ok v
                       end in
      if truthy deadline then
        let! expired := lt_date deadline (date_of now) in
        if expired then Ok Rejected       (* Skip expired scholarships *)
        else Ok (Passed deadline)
      else Ok (Passed deadline) in
    match block with
    | Ok g => g
    | Raise _ => Passed VNone            (* except Exception: deadline = None *)
    end
  else Passed deadline.

(** [deadline.isoformat() if deadline else None] *)
Definition iso_of (deadline : pyval) : res (option pyval) :=
  if truthy deadline then
    match deadline with
    | VDate _ | VDatetime _ => Ok (Some deadline)
    | _ => Raise AttributeError
    end
  else Ok None.

(** The "Clean eligibility list" block. *)
Definition clean_eligibility (v : pyval) : res (list pystr) :=
  let items : res (list pyval) :=
               match v with
               | VStr s => Ok [VStr s]
               | VList l => Ok l
               | _ => Raise TypeError       (* not iterable *)
               end in
  let! l := items in
  foldr (fun e acc_ =>
           let! tl := acc_ in
           let! s := strip_val e in
           Ok (match s with [] => tl | _ => s :: tl end))
        (Ok []) l.

Definition is_http (url : pystr) : bool :=
  startswith url (u "http://") || startswith url (u "https://").

Definition clean_body (data : gmap string pyval) (source_name : pystr)
  : res (option cleaned) :=
  (* Clean title *)
  let! title := strip_val (get data "title" (VStr [])) in
  if (match title with [] => true | _ => false end) || (len title <? 10) then Ok None else
  (* Clean description *)
  let! description := strip_val (get data "description" (VStr [])) in
  if (match description with [] => true | _ => false end) || (len description <? 20)
  then Ok None else
  (* Validate amount *)
  let! amount := validate_amount (get data "amount" VNone) in
  (* Validate deadline *)
  match validate_deadline (get data "deadline" VNone) with
  | Rejected => Ok None
  | Passed deadline =>
      (* Clean and validate application URL *)
      let! application_url := strip_val (get data "application_url" (VStr [])) in
      let application_url :=
        match application_url with
        | [] => application_url
        | _ =>
            let application_url :=
              if negb (is_http application_url)
              then urljoin (u "https://" ++ source_name) application_url
              else application_url in
            if negb (validate_url_unawaited application_url) then [] else application_url
        end in
      (* Clean eligibility list *)
      let! eligibility := clean_eligibility (get data "eligibility" (VList [])) in
      (* Process text fields *)
      let! title := text_processor_clean_text title in
      let! description := text_processor_clean_text description in
      let category := _extract_category title description in
      let level := _extract_education_level title description eligibility in
      let state := _extract_state title description eligibility in
      let tags := _generate_tags title description eligibility in
      let! iso := iso_of deadline in
      Ok (Some (mkCleaned title description amount iso eligibility application_url
                          category level state
                          (get data "provider" (VStr []))
                          (get data "contact_email" VNone)
                          (get data "contact_phone" VNone)
                          (get data "application_process" (VStr []))
                          (get data "benefits" (VList []))
                          (get data "selection_criteria" (VList []))
                          (get data "required_documents" (VList []))
                          tags))
  end.

(** [_clean_and_validate_data]: [None] is the return value [None]. *)
Definition _clean_and_validate_data (data : gmap string pyval) (source_name : pystr)
  : option cleaned :=
  match clean_body data source_name with
  | Ok r => r
  | Raise _ => None                      (* except Exception: return None *)
  end.

(** [_calculate_quality_score] *)
Definition _calculate_quality_score (scholarship : ScrapedScholarship) : Z :=
  let score := 0 in
  (* Title quality *)
  let score :=
    if truthy (VStr (title scholarship)) && (len (title scholarship) >? 10) then score + 20
    else if truthy (VStr (title scholarship)) && (len (title scholarship) >? 5) then score + 15
    else score + 10 in
  (* Description quality *)
  let score :=
    let d := description scholarship in
    if truthy (VStr d) && (len d >? 200) then score + 20
    else if truthy (VStr d) && (len d >? 100) then score + 15
    else if truthy (VStr d) && (len d >? 50) then score + 10
    else score + 5 in
  (* Application URL quality *)
  let score :=
    if truthy (VStr (application_url scholarship))
       && validate_url_unawaited (application_url scholarship)
    then score + 20 else score + 5 in
  (* Deadline validity *)
  let score :=
    match deadline scholarship with
    | Some s =>
        if truthy (VStr s) then
          match fromisoformat s with
          | Ok dt => if date_of dt >? date_of now then score + 15 else score + 5
          | Raise _ => score + 5
          end
        else score + 5
    | None => score + 5
    end in
  (* Amount specification *)
  let score :=
    match amount scholarship with
    | Some a => if truthy (VFloat a) && fgt a (of_Z 0) then score + 15 else score + 5
    | None => score + 5
    end in
  (* Eligibility details *)
  let score :=
    if (match eligibility scholarship with [] => false | _ => true end)
       && (Z.of_nat (length (eligibility scholarship)) >? 0)
    then score + 10 else score + 3 in
  Z.min score 100.

End Service.

(** *** [scrape_scholarships]: navigation and pagination

    The site is the sequence of pages the browser can reach by the "next"
    button; each page says what extracting it returns or raises, whether
    [query_selector(next_page_selector)] finds a button on it and whether the
    click and the wait for the next page succeed. *)

Record pagination := Pagination {
  enabled : option bool;                    (* .get('enabled', False) *)
  next_page_selector : option pystr;
  pg_max_pages : option Z                   (* .get('max_pages', max_pages) *)
}.

Record source_config := SourceConfig {
  wait_for : option pystr;
  pagination_cfg : option pagination        (* .get('pagination', {}) *)
}.

Record page := Page {
  extraction : res (list ScrapedScholarship);   (* _extract_scholarships_from_page *)
  next_button : bool;
  click_ok : bool
}.

Record site := Site {
  goto_ok : bool;                           (* page.goto(source_url) *)
  first_page : page;
  more_pages : list page
}.

(** The state of the run: the number of calls of
    [_extract_scholarships_from_page] so far and the list [scholarships]. *)
Record run := Run {
  extraction_calls : nat;
  scholarships : list ScrapedScholarship
}.

(** The [while current_page < min(max_pages, max_pages_config)] loop; [n] is
    the number of rounds the condition still allows. *)
Fixpoint paginate (n : nat) (selector : option pystr) (cur : page) (next : list page)
    (st : run) : run :=
  match n with
  | O => st
  | S n' =>
      match selector with
      | None | Some [] => st                              (* if not next_page_selector: break *)
      | Some _ =>
          match next with
          | [] => st                                      (* no next button: break *)
          | nxt :: next' =>
              if negb (next_button cur) then st           (* if not next_button: break *)
              else if negb (click_ok cur) then st         (* except Exception: break *)
              else
                match extraction nxt with
                | Ok found =>
                    paginate n' selector nxt next'
                             (Run (S (extraction_calls st)) (scholarships st ++ found))
                | Raise _ => Run (S (extraction_calls st)) (scholarships st)
                end
          end
      end
  end.

Definition scrape_scholarships (source_config_ : source_config) (max_pages : Z) (w : site)
  : run * res (list ScrapedScholarship) :=
  if negb (goto_ok w) then (Run 0 [], Raise OtherException)
  else
    match extraction (first_page w) with
    | Raise e => (Run 1 [], Raise e)
    | Ok found =>
        let st := Run 1 found in
        let st :=
          match pagination_cfg source_config_ with
          | Some pg =>
              if default false (enabled pg) then
                let max_pages_config := default max_pages (pg_max_pages pg) in
                paginate (Z.to_nat (Z.min max_pages max_pages_config - 1))
                         (next_page_selector pg) (first_page w) (more_pages w) st
              else st
          | None => st
          end in
        (st, Ok (scholarships st))
    end.

(** *** [_merge_extraction_results]

    [len(v)] raises [TypeError] unless [v] is a [str] or a list; [str(v)] of a
    value that is not a [str] is an argument. *)
Definition py_len (v : pyval) : res Z :=
  match v with
  | VStr s => Ok (len s)
  | VList l => Ok (Z.of_nat (length l))
  | _ => Raise TypeError
  end.

Definition py_str (str_of : pyval -> pystr) (v : pyval) : pystr :=
  match v with
  | VStr s => s
  | _ => str_of v
  end.

(** The body of the loop [for key, value in ai_data.items()]. *)
Definition merge_item (str_of : pyval -> pystr) (merged : gmap string pyval)
    (key : string) (value : pyval) : res (gmap string pyval) :=
  if truthy value && (match merged !! key with
                      | None => true
                      | Some m => negb (truthy m)
                      end)
  then Ok (<[key := value]> merged)
  else
    match merged !! key with
    | Some m =>
        if truthy value then
          (* Use AI data if it's more comprehensive *)
          match value with
          | VStr s => if len s >? len (py_str str_of m)
                      then Ok (<[key := value]> merged) else Ok merged
          | VList l => let! n := py_len m in
                       if Z.of_nat (length l) >? n
                       then Ok (<[key := value]> merged) else Ok merged
          | _ => Ok merged
          end
        else Ok merged
    | None => Ok merged
    end.

(** The items of a dict have distinct keys and each round reads and writes
    only the entry of its own key, so the order of the rounds does not
    matter; the rounds run in the order of [map_to_list]. *)
Definition _merge_extraction_results (str_of : pyval -> pystr)
    (ai_data traditional_data : gmap string pyval) : res (gmap string pyval) :=
  foldl (fun acc_ '(key, value) => let! merged := acc_ in merge_item str_of merged key value)
        (Ok traditional_data) (map_to_list ai_data).

(** *** [_extract_title_from_text] *)
Definition _extract_title_from_text (text : pystr) : pystr :=
  let lines := Re.split_on [Re.CChar 10] text in
  match List.find (fun line => (len line >? 10) && (len line <? 200)) (List.map strip lines) with
  | Some line => line
  | None => strip (firstn 100 text)
  end.

End Scraping.

(** ** app/utils/text_processing.py *)

Module TextProcessing.
Import Py.

(** [s[:k]] *)
Definition slice_to (k : Z) (s : pystr) : pystr :=
  if k <? 0 then firstn (Z.to_nat (len s + k)) s else firstn (Z.to_nat k) s.

(** [s.rfind(c)] for a one-character [c]: the last index, or [-1]. *)
Fixpoint rfind_from (c : Z) (i : Z) (s : pystr) (found : Z) : Z :=
  match s with
  | [] => found
  | x :: t => rfind_from c (i + 1) t (if x =? c then i else found)
  end.
Definition rfind (c : Z) (s : pystr) : Z := rfind_from c 0 s (-1).

(** [truncate_text]; [gt_scaled last_space max_length] is the test
    [last_space > max_length * 0.7], which compares an [int] with a rounded
    float product. *)
Definition truncate_text (gt_scaled : Z -> Z -> bool) (text : pystr) (max_length : Z)
    (suffix : pystr) : pystr :=
  match text with
  | [] => []
  | _ =>
      if len text <=? max_length then text
      else
        (* Try to break at word boundary *)
        let truncated := slice_to (max_length - len suffix) text in
        let last_space := rfind 32 truncated in
        let truncated := if gt_scaled last_space max_length
                         then slice_to last_space truncated else truncated in
        truncated ++ suffix
  end.

End TextProcessing.

(** * Properties *)

Lemma str_eqb_eq (a b : Py.pystr) : Py.str_eqb a b = true <-> a = b.
Proof.
  revert b; induction a as [|x a IH]; intros [|y b]; simpl; try easy.
  rewrite andb_true_iff, Z.eqb_eq, IH. split.
  - intros [-> ->]; reflexivity.
  - intros [= -> ->]; auto.
Qed.

(** ** Regular expressions *)

Module ReSpec.
Import Py Re.

(** A continuation that fails on every later position makes the match
    fail. *)
Lemma mtch_fails {R : Type} (ci : bool) (r : regex) :
  forall (k : mstate -> option R) (st : mstate),
    (forall st', rest st' `suffix_of` rest st -> k st' = None) ->
    mtch ci r st k = None.
Proof.
  induction r as [|c|ks|a IHa b IHb|a IHa b IHb|lo hi a IHa|i a IHa|]; intros k st Hk.
  - apply Hk. reflexivity.
  - cbn [mtch]. unfold step_char. destruct (rest st) as [|x t] eqn:E; [reflexivity|].
    destruct (existsb _ _); [|reflexivity]. apply Hk. cbn [rest].
    apply suffix_cons_r. reflexivity.
  - cbn [mtch]. unfold step_char. destruct (rest st) as [|x t] eqn:E; [reflexivity|].
    destruct (existsb _ _); [|reflexivity]. apply Hk. cbn [rest].
    apply suffix_cons_r. reflexivity.
  - cbn [mtch]. apply IHa. intros st' Hs. apply IHb. intros st'' Hs'.
    apply Hk. etransitivity; eassumption.
  - cbn [mtch]. rewrite IHa by assumption. apply IHb. assumption.
  - cbn [mtch].
    generalize (match hi with Some h => h | None => length (rest st) end) as n.
    intros n. revert lo st Hk. induction n as [|n IHn]; intros lo st Hk.
    + destruct (Nat.eqb lo 0); [apply Hk; reflexivity|reflexivity].
    + rewrite IHa.
      * destruct (Nat.eqb lo 0); [apply Hk; reflexivity|reflexivity].
      * intros st' Hs. destruct (Nat.ltb _ _); [|reflexivity].
        apply IHn. intros st'' Hs'. apply Hk. etransitivity; eassumption.
  - cbn [mtch]. apply IHa. intros st' Hs. apply Hk. exact Hs.
  - cbn [mtch]. destruct (at_boundary st); [apply Hk; reflexivity|reflexivity].
Qed.

Definition digit_free (s : pystr) : Prop := Forall (fun c => is_ascii_digit c = false) s.

Lemma digit_free_suffix (a b : pystr) : a `suffix_of` b -> digit_free b -> digit_free a.
Proof.
  intros [pre ->] H. unfold digit_free in *. apply Forall_app in H. apply H.
Qed.

(** One or more digits cannot start where there is no digit. *)
Lemma plus_digit_fails {R : Type} (ci : bool) (k : mstate -> option R) (st : mstate) :
  digit_free (rest st) -> mtch ci (plus digit) st k = None.
Proof.
  intros H. unfold plus, digit. cbn [mtch].
  destruct (rest st) as [|c t] eqn:E; [reflexivity|].
  cbn [length]. unfold step_char. rewrite E.
  inversion H as [|? ? Hc Ht]; subst. cbn [existsb cset_in]. rewrite Hc. reflexivity.
Qed.

(** A continuation that always succeeds makes optional repetition succeed. *)
Lemma rep0_total {R : Type} (ci : bool) (hi : option nat) (a : regex)
    (k : mstate -> option R) (st : mstate) :
  (forall st', is_Some (k st')) -> is_Some (mtch ci (Rep 0 hi a) st k).
Proof.
  intros Hk. cbn [mtch].
  destruct (match hi with Some h => h | None => length (rest st) end) as [|n].
  - apply Hk.
  - match goal with |- is_Some (match ?x with _ => _ end) => destruct x end; [eauto|apply Hk].
Qed.

Lemma plus_digit_succeeds {R : Type} (ci : bool) (k : mstate -> option R) (st : mstate)
    (c : Z) (t : pystr) :
  rest st = c :: t -> is_ascii_digit c = true ->
  (forall st', is_Some (k st')) -> is_Some (mtch ci (plus digit) st k).
Proof.
  intros E Hc Hk. unfold plus, digit. cbn [mtch]. rewrite E. cbn [length].
  unfold step_char at 1. rewrite E. cbn [existsb cset_in]. rewrite Hc. cbn [orb rest].
  assert (L : Nat.ltb (length t) (length (c :: t)) = true)
    by (apply Nat.ltb_lt; cbn [length]; lia).
  rewrite L. cbn [Nat.pred].
  match goal with
  | |- is_Some (match ?x with _ => _ end) =>
      change x with (mtch ci (Rep 0 (Some (length t)) (Cls [CDigit]))
                          (MState (Some c) t (caps st)) k);
      pose proof (rep0_total ci (Some (length t)) (Cls [CDigit]) k
                             (MState (Some c) t (caps st)) Hk) as [v Hv];
      rewrite Hv; eauto
  end.
Qed.

(** A pattern that cannot match without consuming a digit. *)
Fixpoint needs_digit (r : regex) : bool :=
  match r with
  | Cls ks => forallb (fun k => match k with CDigit => true | _ => false end) ks
  | Seq a b => needs_digit a || needs_digit b
  | Alt a b => needs_digit a && needs_digit b
  | Rep lo _ a => negb (Nat.eqb lo 0) && needs_digit a
  | Grp _ a => needs_digit a
  | _ => false
  end.

Lemma needs_digit_fails {R : Type} (ci : bool) (r : regex) :
  needs_digit r = true ->
  forall (k : mstate -> option R) (st : mstate),
    digit_free (rest st) -> mtch ci r st k = None.
Proof.
  induction r as [|c|ks|a IHa b IHb|a IHa b IHb|lo hi a IHa|i a IHa|];
    cbn [needs_digit]; intros Hn k st Hd; try discriminate Hn.
  - cbn [mtch]. unfold step_char. destruct (rest st) as [|c t]; [reflexivity|].
    inversion Hd as [|? ? Hc _]; subst.
    assert (E : existsb (cset_in ci c) ks = false).
    { clear -Hn Hc. induction ks as [|k0 ks IH]; [reflexivity|].
      cbn [forallb] in Hn. apply andb_true_iff in Hn as [H0 Hn].
      cbn [existsb]. rewrite (IH Hn). destruct k0; try discriminate H0.
      cbn [cset_in]. rewrite Hc. reflexivity. }
    rewrite E. reflexivity.
  - cbn [mtch]. apply orb_true_iff in Hn as [Hn|Hn].
    + apply IHa; assumption.
    + apply mtch_fails. intros st' Hs. apply IHb; [assumption|].
      eapply digit_free_suffix; eassumption.
  - cbn [mtch]. apply andb_true_iff in Hn as [Ha Hb].
    rewrite IHa by assumption. apply IHb; assumption.
  - cbn [mtch]. apply andb_true_iff in Hn as [Hlo Ha].
    apply negb_true_iff in Hlo.
    destruct (match hi with Some h => h | None => length (rest st) end) as [|n].
    + rewrite Hlo. reflexivity.
    + rewrite IHa by assumption. rewrite Hlo. reflexivity.
  - cbn [mtch]. apply IHa; assumption.
Qed.

Lemma search_from_none (ci : bool) (r : regex) (s : pystr) :
  (forall p s', s' `suffix_of` s -> match_at ci r p s' = None) ->
  forall p, search_from ci r p s = None.
Proof.
  induction s as [|c t IH]; intros H p; cbn [search_from]; rewrite H by reflexivity.
  - reflexivity.
  - apply IH. intros p' s' Hs. apply H. apply suffix_cons_r. assumption.
Qed.

Lemma search_needs_digit (ci : bool) (r : regex) (s : pystr) :
  needs_digit r = true -> digit_free s -> search ci r s = None.
Proof.
  intros Hn Hd. unfold search. apply search_from_none. intros p s' Hs.
  unfold match_at. apply needs_digit_fails; [assumption|].
  cbn [rest]. eapply digit_free_suffix; eassumption.
Qed.

End ReSpec.

(** ** Amount parser *)

Module AmountParserSpec.
Import Py Re PyFloat AmountParser ReSpec.

Lemma mtch_seq {R : Type} ci a b st (k : mstate -> option R) :
  mtch ci (Seq a b) st k = mtch ci a st (fun st' => mtch ci b st' k).
Proof. reflexivity. Qed.

Lemma mtch_grp {R : Type} ci i a st (k : mstate -> option R) :
  mtch ci (Grp i a) st k =
  mtch ci a st (fun st' => k (MState (prev st') (rest st') ((i, consumed st st') :: caps st'))).
Proof. reflexivity. Qed.

(** The plain-number pattern matches wherever a digit stands. *)
Lemma numeric_matches_at_digit (p : option Z) (c : Z) (t : pystr) :
  is_ascii_digit c = true -> is_Some (match_at false pat_numeric p (c :: t)).
Proof.
  intros Hc. unfold match_at, pat_numeric, number_with_commas. cbn [seqs].
  rewrite mtch_grp, mtch_seq.
  eapply plus_digit_succeeds; [reflexivity|assumption|].
  intros st'. rewrite mtch_seq. unfold star, opt.
  apply rep0_total. intros st''. apply rep0_total. intros st3. eauto.
Qed.

Lemma search_numeric_none (s : pystr) (p : option Z) :
  search_from false pat_numeric p s = None -> digit_free s.
Proof.
  revert p. induction s as [|c t IH]; intros p H; [constructor|].
  cbn [search_from] in H.
  destruct (match_at false pat_numeric p (c :: t)) eqn:E; [discriminate|].
  constructor; [|eapply IH; eassumption].
  destruct (is_ascii_digit c) eqn:Hc; [|reflexivity].
  destruct (numeric_matches_at_digit p c t Hc) as [v Hv]. congruence.
Qed.

(** Whenever the numeric strategy finds nothing, neither does the range
    strategy: the range strategy, last in the list, never decides. *)
Lemma range_strategy_never_decides (text : pystr) :
  _parse_numeric_amount text = None -> _parse_range_amount text = None.
Proof.
  intros H. unfold _parse_numeric_amount in H.
  destruct (search true pat_crores text); [discriminate|].
  destruct (search true pat_lakhs text); [discriminate|].
  destruct (search true pat_thousands text); [discriminate|].
  destruct (search false pat_numeric text) eqn:E; [discriminate|].
  apply search_numeric_none in E.
  unfold _parse_range_amount, range_patterns. cbn [first_some].
  rewrite !search_needs_digit by (assumption || reflexivity). reflexivity.
Qed.

(** C1.  [parse_amount] on the amount examples: the rupee text is parsed as
    stated, but a range is decided by the numeric strategy, which runs before
    the range strategy and takes the first number: "5 lakh to 10 lakh" gives
    500000 and "5000 to 10000" gives 5000, although [_parse_range_amount]
    alone would return the second bound; and for every text, the range
    strategy finds nothing when the numeric strategy found nothing, so it
    never decides. *)
Theorem parse_amount_range_gives_first_bound :
  parse_amount (rupee_sign :: u "2,50,000") = Some (inject_Z 250000) /\
  parse_amount (u "5 lakh to 10 lakh") = Some (inject_Z 500000) /\
  parse_amount (u "5000 to 10000") = Some (inject_Z 5000) /\
  parse_amount (u "between 1000 and 5000") = Some (inject_Z 1000) /\
  _parse_range_amount (u "5000 to 10000") = Some (inject_Z 10000) /\
  (forall text, _parse_numeric_amount text = None -> _parse_range_amount text = None).
Proof.
  do 5 (split; [vm_compute; reflexivity|]).
  exact range_strategy_never_decides.
Qed.

(** [validate_amount] rejects 50, which lies in the range (0, 5x10^7]. *)
Lemma validate_amount_rejects_50 :
  validate_amount (Some (of_Z 50)) = (false, ["Amount seems unrealistically low"%string]).
Proof. reflexivity. Qed.

Lemma Qle_bool_false (a b : Q) : Qle_bool a b = false <-> (b < a)%Q.
Proof.
  rewrite <- not_true_iff_false, Qle_bool_iff. split.
  - apply Qnot_le_lt.
  - apply Qlt_not_le.
Qed.

(** C9 (amended).  A number is valid exactly when it lies between 100 and
    5x10^7: [validate_amount] returns [(True, [])] for those and no other
    number, and an invalid result always carries at least one issue. *)
Theorem validate_amount_valid_iff :
  (forall q : Q,
      validate_amount (Some (FNum q)) = (true, []) <->
      (inject_Z 100 <= q /\ q <= inject_Z 50000000)%Q) /\
  (forall a : option pyfloat,
      fst (validate_amount a) = false -> snd (validate_amount a) <> []).
Proof.
  split.
  - intros q. unfold validate_amount, fle, fgt, flt, of_Z.
    destruct (Qle_bool q (inject_Z 0)) eqn:E0;
    destruct (Qle_bool q (inject_Z 50000000)) eqn:E1;
    destruct (Qle_bool (inject_Z 100) q) eqn:E2; simpl;
    repeat match goal with
           | H : Qle_bool _ _ = true |- _ => apply Qle_bool_iff in H
           | H : Qle_bool _ _ = false |- _ => apply Qle_bool_false in H
           end;
    split; try discriminate; try (intros _; split; assumption);
    intros [H100 Hmax]; exfalso.
    all: try (apply (Qlt_irrefl q); eapply Qle_lt_trans; eassumption).
    all: try (assert (Hc : (inject_Z 100 <= inject_Z 0)%Q)
                by (eapply Qle_trans; eassumption); vm_compute in Hc; apply Hc; reflexivity).
    all: try (apply (Qlt_irrefl q); eapply Qlt_le_trans; eassumption).
  - intros [a|]; [|discriminate].
    unfold validate_amount.
    destruct (fle a (of_Z 0)), (fgt a (of_Z 50000000)), (flt a (of_Z 100));
      simpl; intros H; try discriminate H; discriminate.
Qed.

End AmountParserSpec.

(** ** Date parser *)

Module DateParserSpec.
Import Py PyTime DateParser.

(** 3 November 2026, 12:00, and 15 August 2001, 00:00. *)
Definition noon_2026_11_03 : datetime := 63929304000000000.
Definition midnight_2001_08_15 : datetime := 63133430400000000.

(** [extract_deadline_from_text] returns a date that [is_valid_deadline]
    refuses: it never applies the plausibility window. *)
Lemma extract_deadline_returns_implausible_date :
  mk_datetime 2026 11 3 12 0 0 = Some noon_2026_11_03 /\
  mk_datetime 2001 8 15 0 0 0 = Some midnight_2001_08_15 /\
  extract_deadline_from_text noon_2026_11_03 (u "deadline 15 august 2001")
    = Ok (Some midnight_2001_08_15) /\
  is_valid_deadline noon_2026_11_03 (Some midnight_2001_08_15) = Ok false.
Proof. repeat split; vm_compute; reflexivity. Qed.

Lemma shift_ok (now delta : Z) :
  dt_min <= now + delta <= dt_max -> shift now delta = Ok (now + delta).
Proof.
  intros [H1 H2]. unfold shift.
  destruct (Z.leb_spec dt_min (now + delta)); [|lia].
  destruct (Z.leb_spec (now + delta) dt_max); [reflexivity|lia].
Qed.

(** C4 (amended).  [is_valid_deadline] accepts exactly the dates from one day
    before the clock to 5 x 365 days after it, and refuses [None];
    [extract_deadline_from_text] does not consult it: whatever the clock, the
    text "deadline 15 august 2001" yields 15 August 2001. *)
Theorem is_valid_deadline_window (now d : datetime) :
  dt_min + days 1 <= now <= dt_max - days (365 * 5) ->
  (is_valid_deadline now (Some d) = Ok true <->
     now - days 1 <= d <= now + days (365 * 5)) /\
  is_valid_deadline now None = Ok false /\
  extract_deadline_from_text now (u "deadline 15 august 2001")
    = Ok (Some midnight_2001_08_15).
Proof.
  intros Hnow.
  assert (Hd1 : days 1 = 86400000000) by reflexivity.
  assert (Hd5 : days (365 * 5) = 157680000000000) by reflexivity.
  assert (Hmin : dt_min = 0) by reflexivity.
  assert (Hmax : dt_max = 315537897599999999) by reflexivity.
  split; [|split].
  - unfold is_valid_deadline.
    rewrite (shift_ok now (- days 1)) by lia. cbn [bind].
    rewrite (shift_ok now (days (365 * 5))) by lia.
    destruct (Z.ltb_spec d (now + - days 1)).
    + split; [discriminate | lia].
    + cbn [bind]. unfold Z.gtb.
      destruct (d ?= now + days (365 * 5)) eqn:E.
      * apply Z.compare_eq in E. split; [lia | reflexivity].
      * rewrite Z.compare_lt_iff in E. split; [lia | reflexivity].
      * rewrite Z.compare_gt_iff in E. split; [discriminate | lia].
  - reflexivity.
  - vm_compute. reflexivity.
Qed.

(** The window on 3 November 2026, for the date 15 August 2001. *)
Lemma is_valid_deadline_window_witness :
  (is_valid_deadline noon_2026_11_03 (Some midnight_2001_08_15) = Ok true <->
     noon_2026_11_03 - days 1 <= midnight_2001_08_15 <= noon_2026_11_03 + days (365 * 5)) /\
  is_valid_deadline noon_2026_11_03 None = Ok false /\
  extract_deadline_from_text noon_2026_11_03 (u "deadline 15 august 2001")
    = Ok (Some midnight_2001_08_15).
Proof.
  apply (is_valid_deadline_window noon_2026_11_03 midnight_2001_08_15).
  vm_compute. split; discriminate.
Defined.

End DateParserSpec.

(** ** Duplication detector *)

Module DedupSpec.
Import Py Dedup.

(** Two records with the same normalized URL, different titles and
    different amounts. *)
Definition listing_a : scholarship :=
  Scholarship (u "https://www.Example.org/apply/")
              (u "National Merit Scholarship for Engineering Students")
              [] (Some (inject_Z 1000)) None [] [] None.
Definition listing_b : scholarship :=
  Scholarship (u "https://example.org/apply")
              (u "Sports Fellowship 2025")
              [] (Some (inject_Z 100000)) None [] [] None.

(** The URLs are equal after normalization, and the pair is not a
    duplicate. *)
Lemma same_url_not_duplicate :
  _normalize_url (url listing_a) = _normalize_url (url listing_b) /\
  is_duplicate (detect_duplication listing_a listing_b) = false.
Proof. split; vm_compute; reflexivity. Qed.

Local Open Scope Q_scope.

Lemma field_weights_pos (f : field) : 0 < field_weights f.
Proof. destruct f; reflexivity. Qed.

(** The weighted sum and the total weight, as the loop of
    [_calculate_overall_similarity] accumulates them. *)
Definition weigh (a : Q * Q) (e : field * Q) : Q * Q :=
  let '(ws, tw) := a in
  let '(f, similarity) := e in
  (ws + similarity * field_weights f, tw + field_weights f).

Lemma weigh_bounds (t : Q) (fs : list (field * Q)) (ws tw : Q) :
  (forall f sim, In (f, sim) fs -> t <= sim) ->
  t * tw <= ws -> 0 <= tw ->
  let '(ws', tw') := fold_left weigh fs (ws, tw) in
  t * tw' <= ws' /\ tw <= tw' /\ (fs <> [] -> 0 < tw').
Proof.
  revert ws tw. induction fs as [|[f sim] fs IH]; intros ws tw Hall Hws Htw.
  - simpl. split; [assumption|]. split; [apply Qle_refl|]. intros H; contradiction.
  - cbn [fold_left weigh].
    pose proof (field_weights_pos f) as Hw.
    assert (Hsim : t <= sim) by (apply (Hall f); left; reflexivity).
    specialize (IH (ws + sim * field_weights f) (tw + field_weights f)).
    destruct (fold_left weigh fs (ws + sim * field_weights f, tw + field_weights f))
      as [ws' tw'].
    destruct IH as (H1 & H2 & _).
    + intros f' sim' Hin. apply (Hall f'). right; assumption.
    + nra.
    + lra.
    + split; [assumption|]. split; [lra|]. intros _. lra.
Qed.

Lemma overall_similarity_fold (fs : list (field * Q)) :
  fs <> [] ->
  _calculate_overall_similarity fs =
    let '(ws, tw) := fold_left weigh fs (0, 0) in
    if Qeqb tw 0 then 0 else ws / tw.
Proof.
  destruct fs as [|e fs]; [congruence|]. intros _.
  unfold _calculate_overall_similarity.
  assert (E : forall a,
             fold_left (fun '(ws, tw) '(f, similarity) =>
                          let weight := field_weights f in
                          (ws + similarity * weight, tw + weight)) (e :: fs) a
             = fold_left weigh (e :: fs) a).
  { generalize (e :: fs) as l. induction l as [|[f sim] l IH]; intros [ws tw];
      [reflexivity|]. simpl. apply IH. }
  rewrite E. destruct (fold_left weigh (e :: fs) (0, 0)); reflexivity.
Qed.

(** A weighted average of similarities that are all at least the threshold
    reaches the threshold. *)
Lemma overall_similarity_ge (fs : list (field * Q)) :
  fs <> [] ->
  (forall f sim, In (f, sim) fs -> similarity_threshold <= sim) ->
  Qle_bool similarity_threshold (_calculate_overall_similarity fs) = true.
Proof.
  intros Hne Hall. rewrite overall_similarity_fold by assumption.
  pose proof (weigh_bounds similarity_threshold fs 0 0 Hall) as H.
  destruct (fold_left weigh fs (0, 0)) as [ws tw].
  destruct H as (H1 & _ & H3); [lra | lra |].
  specialize (H3 Hne).
  unfold Qeqb. destruct (Qeq_bool tw 0) eqn:E.
  - apply Qeq_bool_iff in E. lra.
  - apply Qle_bool_iff. apply Qle_shift_div_l; assumption.
Qed.

(** The entries [compare_text] adds carry its own field. *)
Lemma compare_text_entries f bound r t1 t2 fs ms rs fs' ms' rs' :
  compare_text f bound r t1 t2 (fs, ms, rs) = (fs', ms', rs') ->
  (forall g sim, In (g, sim) fs' -> In (g, sim) fs \/ g = f) /\
  (forall g, In g ms -> In g ms').
Proof.
  unfold compare_text.
  destruct (truthy_str t1 && truthy_str t2);
    [destruct (negb (Qle_bool (_calculate_text_similarity t1 t2) bound))|];
    intros [= <- <- <-]; (split; [intros g sim Hin | intros g Hin]);
    rewrite ?in_app_iff in *; simpl in *; intuition congruence.
Qed.

(** With equal normalized URLs, the URL is recorded as a match with
    similarity 1, and every other entry belongs to another field. *)
Lemma field_comparisons_url (s1 s2 : scholarship) :
  url s1 <> [] -> url s2 <> [] ->
  _normalize_url (url s1) = _normalize_url (url s2) ->
  let '(fs, ms, _) := field_comparisons s1 s2 in
  fs <> [] /\ In f_url ms /\
  (forall g sim, In (g, sim) fs -> (g = f_url /\ sim = 1%Q) \/ g <> f_url).
Proof.
  intros H1 H2 Heq. unfold field_comparisons.
  assert (T1 : truthy_str (url s1) = true) by (destruct (url s1); [congruence|reflexivity]).
  assert (T2 : truthy_str (url s2) = true) by (destruct (url s2); [congruence|reflexivity]).
  rewrite T1, T2. cbn [andb].
  assert (E : str_eqb (_normalize_url (url s1)) (_normalize_url (url s2)) = true)
    by (apply str_eqb_eq; assumption).
  rewrite E. cbn [app].
  set (a1 := ([(f_url, 1%Q)], [f_url], [ExactUrlMatch])).
  assert (I1 : let '(fs, ms, _) := a1 in
               (exists e l, fs = e :: l) /\ In f_url ms /\
               (forall g sim, In (g, sim) fs -> (g = f_url /\ sim = 1%Q) \/ g <> f_url)).
  { subst a1. split; [eauto|]. split; [left; reflexivity|].
    intros g sim [[= <- <-]|[]]. left; split; reflexivity. }
  (* each later step keeps the invariant *)
  assert (Step : forall f bound r t1 t2 (a : acc),
             f <> f_url ->
             (let '(fs, ms, _) := a in
              (exists e l, fs = e :: l) /\ In f_url ms /\
              (forall g sim, In (g, sim) fs -> (g = f_url /\ sim = 1%Q) \/ g <> f_url)) ->
             let '(fs, ms, _) := compare_text f bound r t1 t2 a in
             (exists e l, fs = e :: l) /\ In f_url ms /\
             (forall g sim, In (g, sim) fs -> (g = f_url /\ sim = 1%Q) \/ g <> f_url)).
  { intros f bound r t1 t2 [[fs ms] rs] Hf (Hne & Hin & Hall).
    destruct (compare_text f bound r t1 t2 (fs, ms, rs)) as [[fs' ms'] rs'] eqn:Ec.
    pose proof (compare_text_entries _ _ _ _ _ _ _ _ _ _ _ Ec) as [He Hm].
    split; [|split].
    - revert Ec. unfold compare_text. destruct Hne as (e & l & ->).
      destruct (truthy_str t1 && truthy_str t2);
        [destruct (negb (Qle_bool (_calculate_text_similarity t1 t2) bound))|];
        intros [= <- <- <-]; simpl; eauto.
    - apply Hm; assumption.
    - intros g sim Hg. destruct (He g sim Hg) as [Hold| ->]; [eauto|]. right; assumption. }
  pose proof (Step f_title (8 # 10) HighTitleSimilarity (title s1) (title s2) a1
                   ltac:(discriminate) I1) as I2.
  set (a2 := compare_text f_title (8 # 10) HighTitleSimilarity (title s1) (title s2) a1) in *.
  pose proof (Step f_description (7 # 10) HighDescriptionSimilarity
                   (description s1) (description s2) a2 ltac:(discriminate) I2) as I3.
  set (a3 := compare_text f_description (7 # 10) HighDescriptionSimilarity
                          (description s1) (description s2) a2) in *.
  clearbody a3. clear I1 I2 a1 a2.
  destruct a3 as [[fs3 ms3] rs3].
  (* amount *)
  set (a4 := match amount s1, amount s2 with
             | Some a1, Some a2 => _
             | _, _ => _
             end).
  assert (I4 : let '(fs, ms, _) := a4 in
               (exists e l, fs = e :: l) /\ In f_url ms /\
               (forall g sim, In (g, sim) fs -> (g = f_url /\ sim = 1%Q) \/ g <> f_url)).
  { subst a4. destruct I3 as ((e & l & ->) & Hin & Hall).
    destruct (amount s1) as [x|], (amount s2) as [y|];
      try (split; [eauto|split; assumption]).
    destruct (truthy_num (Some x) && truthy_num (Some y));
      [destruct (negb (Qle_bool (_compare_amounts x y) (9 # 10)))|];
      (split; [simpl; eauto|split;
        [rewrite ?in_app_iff; auto|
         intros g sim Hg; rewrite ?in_app_iff in Hg; simpl in Hg;
         first [ destruct Hg as [Hg|[[= <- <-]|[]]]; [eauto|right; discriminate]
               | eauto ]]]). }
  clearbody a4. clear I3. destruct a4 as [[fs4 ms4] rs4].
  (* deadline *)
  set (a5 := match deadline s1, deadline s2 with
             | Some d1, Some d2 => _
             | _, _ => _
             end).
  assert (I5 : let '(fs, ms, _) := a5 in
               (exists e l, fs = e :: l) /\ In f_url ms /\
               (forall g sim, In (g, sim) fs -> (g = f_url /\ sim = 1%Q) \/ g <> f_url)).
  { subst a5. destruct I4 as ((e & l & ->) & Hin & Hall).
    destruct (deadline s1) as [x|], (deadline s2) as [y|];
      try (split; [eauto|split; assumption]).
    destruct (negb (Qle_bool (_compare_dates x y) (8 # 10)));
      (split; [simpl; eauto|split;
        [rewrite ?in_app_iff; auto|
         intros g sim Hg; rewrite ?in_app_iff in Hg; simpl in Hg;
         destruct Hg as [Hg|[[= <- <-]|[]]]; [eauto|right; discriminate]]]). }
  clearbody a5. clear I4.
  pose proof (Step f_category (7 # 10) (fun _ => SimilarCategories)
                   (category s1) (category s2) a5 ltac:(discriminate) I5) as I6.
  set (a6 := compare_text f_category (7 # 10) (fun _ => SimilarCategories)
                          (category s1) (category s2) a5) in *.
  pose proof (Step f_eligibility (6 # 10) (fun _ => SimilarEligibility)
                   (eligibility s1) (eligibility s2) a6 ltac:(discriminate) I6) as I7.
  destruct (compare_text f_eligibility (6 # 10) (fun _ => SimilarEligibility)
                         (eligibility s1) (eligibility s2) a6) as [[fs ms] rs].
  destruct I7 as ((e & l & ->) & Hin & Hall).
  split; [discriminate|]. split; assumption.
Qed.

(** C3 (amended).  For two records that both carry a URL and whose URLs are
    equal after normalization, the URL is recorded as a matching field, and
    the pair is a duplicate whenever every other field that is compared has
    a similarity of at least 0.8 (in particular when no other field is
    compared). *)
Theorem same_url_duplicate_if_rest_similar (s1 s2 : scholarship) :
  url s1 <> [] -> url s2 <> [] ->
  _normalize_url (url s1) = _normalize_url (url s2) ->
  (forall g sim, In (g, sim) (fst (fst (field_comparisons s1 s2))) ->
                 g <> f_url -> similarity_threshold <= sim) ->
  is_duplicate (detect_duplication s1 s2) = true /\
  In f_url (matching_fields (detect_duplication s1 s2)).
Proof.
  intros H1 H2 Heq Hrest.
  pose proof (field_comparisons_url s1 s2 H1 H2 Heq) as H.
  unfold detect_duplication.
  assert (E1 : dict_is_empty s1 = false)
    by (unfold dict_is_empty; destruct (url s1); [congruence|reflexivity]).
  assert (E2 : dict_is_empty s2 = false)
    by (unfold dict_is_empty; destruct (url s2); [congruence|reflexivity]).
  rewrite E1, E2. cbn [orb].
  destruct (field_comparisons s1 s2) as [[fs ms] rs]. simpl in Hrest.
  destruct H as (Hne & Hin & Hall). cbn [is_duplicate matching_fields].
  split; [|assumption].
  apply overall_similarity_ge; [assumption|].
  intros g sim Hg. destruct (Hall g sim Hg) as [[-> ->]|Hn].
  - unfold similarity_threshold. lra.
  - apply (Hrest g sim Hg Hn).
Qed.

Local Close Scope Q_scope.

Definition scholarship_c : scholarship :=
  Scholarship (u "https://www.Example.org/apply/")
              (u "National Merit Scholarship") [] None None [] [] None.
Definition scholarship_d : scholarship :=
  Scholarship (u "https://example.org/apply")
              (u "The National Merit Scholarship!") [] None None [] [] None.

(** Two records with the same normalized URL and the same title up to stop
    words and punctuation. *)
Lemma same_url_duplicate_witness :
  is_duplicate (detect_duplication scholarship_c scholarship_d) = true /\
  In f_url (matching_fields (detect_duplication scholarship_c scholarship_d)).
Proof.
  apply (same_url_duplicate_if_rest_similar scholarship_c scholarship_d).
  - discriminate.
  - discriminate.
  - vm_compute. reflexivity.
  - vm_compute. intros g sim [H|[H|[]]] Hg; inversion H; subst.
    + congruence.
    + discriminate.
Defined.

(** *** Grouping *)

(** The dict [index_to_group] is consistent with the list [groups]. *)
Definition consistent (st : list (list nat) * gmap nat nat) : Prop :=
  forall x gi, st.2 !! x = Some gi -> exists g, st.1 !! gi = Some g /\ x ∈ g.

(** Two indices are in one group. *)
Definition together (groups : list (list nat)) (i j : nat) : Prop :=
  exists g, g ∈ groups /\ i ∈ g /\ j ∈ g.

(** Every group of [groups] is contained in a group of [groups']. *)
Definition grows (groups groups' : list (list nat)) : Prop :=
  forall g, g ∈ groups -> exists g', g' ∈ groups' /\ g ⊆ g'.

Lemma together_grows groups groups' i j :
  grows groups groups' -> together groups i j -> together groups' i j.
Proof.
  intros Hg (g & Hin & Hi & Hj). destruct (Hg g Hin) as (g' & Hin' & Hsub).
  exists g'. split; [assumption|]. split; apply Hsub; assumption.
Qed.

Lemma grows_alter_app (groups : list (list nat)) (k : nat) (ext : list nat) :
  grows groups (alter (fun g => g ++ ext) k groups).
Proof.
  intros g Hin. apply list_elem_of_lookup in Hin as [n Hn].
  destruct (decide (k = n)) as [->|Hne].
  - exists (g ++ ext). split.
    + apply list_elem_of_lookup. exists n. rewrite list_lookup_alter_eq, Hn. reflexivity.
    + intros x Hx. apply elem_of_app. left; assumption.
  - exists g. split; [|reflexivity].
    apply list_elem_of_lookup. exists n. rewrite list_lookup_alter_ne by assumption.
    assumption.
Qed.

Lemma foldl_insert_lookup (v : nat) (l : list nat) (m : gmap nat nat) (x : nat) :
  foldl (fun m idx => <[idx := v]> m) m l !! x =
    if decide (x ∈ l) then Some v else m !! x.
Proof.
  revert m. induction l as [|y l IH]; intros m; simpl.
  - destruct (decide (x ∈ [])) as [H|H]; [inversion H|reflexivity].
  - rewrite IH. destruct (decide (x ∈ l)) as [Hl|Hl].
    + destruct (decide (x ∈ y :: l)) as [_|Hn]; [reflexivity|].
      exfalso; apply Hn; right; assumption.
    + destruct (decide (x = y)) as [->|Hxy].
      * rewrite lookup_insert_eq.
        destruct (decide (y ∈ y :: l)) as [_|Hn]; [reflexivity|].
        exfalso; apply Hn; left.
      * rewrite lookup_insert_ne by congruence.
        destruct (decide (x ∈ y :: l)) as [Hyl|_]; [|reflexivity].
        apply elem_of_cons in Hyl as [?|?]; contradiction.
Qed.

(** One round keeps the dict consistent, puts the two indices of the pair in
    one group, and only enlarges groups. *)
Lemma add_pair_spec (st : list (list nat) * gmap nat nat) (i j : nat) :
  consistent st ->
  consistent (add_pair st i j) /\
  together (add_pair st i j).1 i j /\
  grows st.1 (add_pair st i j).1.
Proof.
  destruct st as [groups itg]. intros Hc. unfold add_pair.
  destruct (itg !! i) as [gi|] eqn:Ei; destruct (itg !! j) as [gj|] eqn:Ej.
  - (* both grouped *)
    destruct (Hc i gi Ei) as (g_i & Hgi & Hi).
    destruct (Hc j gj Ej) as (g_j & Hgj & Hj).
    simpl in Hgi, Hgj.
    destruct (decide (gi = gj)) as [->|Hne].
    + split; [assumption|]. split; [|intros g Hg; exists g; split; [assumption|reflexivity]].
      exists g_i. rewrite Hgj in Hgi. injection Hgi as ->.
      split; [apply list_elem_of_lookup; eauto|]. split; assumption.
    + rewrite Hgj. simpl.
      assert (Hlook : (<[gj := []]> (alter (fun g => g ++ g_j) gi groups)) !! gi
                      = Some (g_i ++ g_j)).
      { rewrite list_lookup_insert_ne by congruence.
        rewrite list_lookup_alter_eq, Hgi. reflexivity. }
      split; [|split].
      * intros x gx Hx. simpl in Hx. rewrite foldl_insert_lookup in Hx.
        destruct (decide (x ∈ g_j)) as [Hin|Hnin].
        -- injection Hx as <-. exists (g_i ++ g_j). split; [exact Hlook|].
           apply elem_of_app; right; assumption.
        -- destruct (Hc x gx Hx) as (g & Hg & Hxg). simpl in Hg.
           assert (gx <> gj) by (intros ->; rewrite Hgj in Hg; congruence).
           destruct (decide (gx = gi)) as [->|Hgx].
           ++ exists (g_i ++ g_j). split; [exact Hlook|].
              rewrite Hgi in Hg. injection Hg as <-. apply elem_of_app; left; assumption.
           ++ exists g. split; [|assumption]. simpl.
              rewrite list_lookup_insert_ne by congruence.
              rewrite list_lookup_alter_ne by congruence. assumption.
      * exists (g_i ++ g_j). split; [apply list_elem_of_lookup; eauto|].
        split; apply elem_of_app; [left|right]; assumption.
      * intros g Hg. simpl in Hg. apply list_elem_of_lookup in Hg as [n Hn].
        destruct (decide (n = gj)) as [->|Hnj]; [|destruct (decide (n = gi)) as [->|Hni]].
        -- exists (g_i ++ g_j). split; [apply list_elem_of_lookup; eauto|].
           rewrite Hgj in Hn. injection Hn as <-.
           intros x Hx; apply elem_of_app; right; assumption.
        -- exists (g_i ++ g_j). split; [apply list_elem_of_lookup; eauto|].
           rewrite Hgi in Hn. injection Hn as <-.
           intros x Hx; apply elem_of_app; left; assumption.
        -- exists g. split; [|reflexivity]. apply list_elem_of_lookup. exists n. simpl.
           rewrite list_lookup_insert_ne by congruence.
           rewrite list_lookup_alter_ne by congruence. assumption.
  - (* i grouped, j new *)
    destruct (Hc i gi Ei) as (g_i & Hgi & Hi). simpl in Hgi.
    assert (Hlook : alter (fun g => g ++ [j]) gi groups !! gi = Some (g_i ++ [j]))
      by (rewrite list_lookup_alter_eq, Hgi; reflexivity).
    split; [|split].
    + intros x gx Hx. simpl in Hx.
      destruct (decide (x = j)) as [->|Hxj].
      * rewrite lookup_insert_eq in Hx. injection Hx as <-.
        exists (g_i ++ [j]). split; [exact Hlook|]. apply elem_of_app; right; left.
      * rewrite lookup_insert_ne in Hx by congruence.
        destruct (Hc x gx Hx) as (g & Hg & Hxg). simpl in Hg.
        destruct (decide (gx = gi)) as [->|Hgx].
        -- exists (g_i ++ [j]). split; [exact Hlook|].
           rewrite Hgi in Hg. injection Hg as <-. apply elem_of_app; left; assumption.
        -- exists g. split; [|assumption]. simpl.
           rewrite list_lookup_alter_ne by congruence. assumption.
    + exists (g_i ++ [j]). split; [apply list_elem_of_lookup; eauto|].
      split; apply elem_of_app; [left; assumption|right; left].
    + apply grows_alter_app.
  - (* j grouped, i new *)
    destruct (Hc j gj Ej) as (g_j & Hgj & Hj). simpl in Hgj.
    assert (Hlook : alter (fun g => g ++ [i]) gj groups !! gj = Some (g_j ++ [i]))
      by (rewrite list_lookup_alter_eq, Hgj; reflexivity).
    split; [|split].
    + intros x gx Hx. simpl in Hx.
      destruct (decide (x = i)) as [->|Hxi].
      * rewrite lookup_insert_eq in Hx. injection Hx as <-.
        exists (g_j ++ [i]). split; [exact Hlook|]. apply elem_of_app; right; left.
      * rewrite lookup_insert_ne in Hx by congruence.
        destruct (Hc x gx Hx) as (g & Hg & Hxg). simpl in Hg.
        destruct (decide (gx = gj)) as [->|Hgx].
        -- exists (g_j ++ [i]). split; [exact Hlook|].
           rewrite Hgj in Hg. injection Hg as <-. apply elem_of_app; left; assumption.
        -- exists g. split; [|assumption]. simpl.
           rewrite list_lookup_alter_ne by congruence. assumption.
    + exists (g_j ++ [i]). split; [apply list_elem_of_lookup; eauto|].
      split; apply elem_of_app; [right; left|left; assumption].
    + apply grows_alter_app.
  - (* a new group *)
    assert (Hlook : (groups ++ [[i; j]]) !! length groups = Some [i; j]).
    { rewrite lookup_app_r by lia. rewrite Nat.sub_diag. reflexivity. }
    split; [|split].
    + intros x gx Hx. simpl in Hx.
      destruct (decide (x = j)) as [->|Hxj].
      * rewrite lookup_insert_eq in Hx. injection Hx as <-.
        exists [i; j]. split; [exact Hlook|]. right; left.
      * rewrite lookup_insert_ne in Hx by congruence.
        destruct (decide (x = i)) as [->|Hxi].
        -- rewrite lookup_insert_eq in Hx. injection Hx as <-.
           exists [i; j]. split; [exact Hlook|]. left.
        -- rewrite lookup_insert_ne in Hx by congruence.
           destruct (Hc x gx Hx) as (g & Hg & Hxg). simpl in Hg.
           exists g. split; [|assumption]. simpl.
           apply lookup_app_l_Some. assumption.
    + exists [i; j]. split; [apply elem_of_app; right; left|].
      split; [left|right; left].
    + intros g Hg. exists g. split; [|reflexivity]. apply elem_of_app; left; assumption.
Qed.

Definition step (st : list (list nat) * gmap nat nat) (p : nat * nat * DuplicationResult)
  : list (list nat) * gmap nat nat :=
  let '(i, j, _) := p in add_pair st i j.

Lemma grouping_loop (ps : list (nat * nat * DuplicationResult))
    (st : list (list nat) * gmap nat nat) :
  consistent st ->
  consistent (foldl step st ps) /\
  grows st.1 (foldl step st ps).1 /\
  (forall i j r, In (i, j, r) ps -> together (foldl step st ps).1 i j).
Proof.
  revert st. induction ps as [|[[i j] r] ps IH]; intros st Hc.
  - simpl. split; [assumption|]. split; [|intros ? ? ? []].
    intros g Hg; exists g; split; [assumption|reflexivity].
  - simpl foldl. destruct (add_pair_spec st i j Hc) as (Hc' & Ht & Hg).
    change (step st (i, j, r)) with (add_pair st i j).
    destruct (IH (add_pair st i j) Hc') as (Hc'' & Hg' & Hall).
    split; [assumption|]. split.
    + intros g Hin. destruct (Hg g Hin) as (g1 & H1 & S1).
      destruct (Hg' g1 H1) as (g2 & H2 & S2).
      exists g2. split; [assumption|]. intros x Hx. apply S2, S1, Hx.
    + intros a b r' [[= <- <- <-]|Hin].
      * eapply together_grows; eassumption.
      * eapply Hall; eassumption.
Qed.

Lemma foldl_step_eq (ps : list (nat * nat * DuplicationResult))
    (st : list (list nat) * gmap nat nat) :
  foldl (fun st '(i, j, _) => add_pair st i j) st ps = foldl step st ps.
Proof.
  revert st. induction ps as [|[[a b] r'] ps IH]; intros st; [reflexivity|].
  simpl. apply IH.
Qed.

Lemma build_groups_together (ps : list (nat * nat * DuplicationResult)) (i j : nat) r :
  In (i, j, r) ps -> together (build_groups ps) i j.
Proof.
  intros Hin. unfold build_groups.
  assert (Hc : consistent ([], ∅)).
  { intros x gi Hx. simpl in Hx. rewrite lookup_empty in Hx. discriminate. }
  destruct (grouping_loop ps ([], ∅) Hc) as (_ & _ & Hall).
  specialize (Hall i j r Hin).
  rewrite foldl_step_eq. destruct (foldl step ([], ∅) ps) as [groups itg].
  destruct Hall as (g & Hg & Hi & Hj). exists g. split; [|split; assumption].
  apply list_elem_of_In, filter_In. split; [apply list_elem_of_In; assumption|].
  destruct g; [inversion Hi|reflexivity].
Qed.

(** Every pair that is detected as a duplicate is listed. *)
Lemma find_duplicates_complete (l : list scholarship) (i j : nat) si sj :
  (i < j)%nat -> l !! i = Some si -> l !! j = Some sj ->
  are_duplicates si sj = true ->
  In (i, j, detect_duplication si sj) (find_duplicates_in_batch l).
Proof.
  intros Hij Hi Hj Hd. unfold find_duplicates_in_batch.
  pose proof (lookup_lt_Some _ _ _ Hi). pose proof (lookup_lt_Some _ _ _ Hj).
  apply in_flat_map. exists i. split; [apply in_seq; lia|].
  apply in_flat_map. exists j. split; [apply in_seq; lia|].
  rewrite Hi, Hj. unfold are_duplicates in Hd. rewrite Hd. left; reflexivity.
Qed.

(** No pair is listed when no two elements are duplicates. *)
Lemma find_duplicates_none (l : list scholarship) :
  (forall i j si sj, (i < j)%nat -> l !! i = Some si -> l !! j = Some sj ->
                     are_duplicates si sj = false) ->
  find_duplicates_in_batch l = [].
Proof.
  intros Hno. unfold find_duplicates_in_batch.
  assert (Hnil : forall {A B} (f : A -> list B) (xs : list A),
             (forall x, In x xs -> f x = []) -> flat_map f xs = []).
  { intros A B f xs. induction xs as [|x xs IH]; intros H; [reflexivity|].
    simpl. rewrite (H x) by (left; reflexivity). apply IH.
    intros y Hy. apply H. right; assumption. }
  apply Hnil. intros i Hi. apply Hnil. intros j Hj.
  apply in_seq in Hi, Hj.
  destruct (l !! i) as [si|] eqn:Ei; [|reflexivity].
  destruct (l !! j) as [sj|] eqn:Ej; [|reflexivity].
  assert (Hd : are_duplicates si sj = false) by (apply (Hno i j); [lia|assumption..]).
  unfold are_duplicates in Hd. rewrite Hd. reflexivity.
Qed.

(** *** Removal *)

Definition documented (keep_strategy : string) : Prop :=
  keep_strategy = "first"%string \/ keep_strategy = "last"%string \/
  keep_strategy = "best"%string.

(** Of two different indices of one group, a documented strategy removes at
    least one. *)
Lemma removed_of_group_pair (l : list scholarship) (keep_strategy : string)
    (g : list nat) (i j : nat) :
  documented keep_strategy -> i ∈ g -> j ∈ g -> i <> j ->
  i ∈ removed_of_group l keep_strategy g \/ j ∈ removed_of_group l keep_strategy g.
Proof.
  intros Hs Hi Hj Hij. unfold removed_of_group.
  assert (Hlen : Nat.leb (length g) 1 = false).
  { apply Nat.leb_gt. destruct g as [|a [|b g]]; simpl; try lia.
    - inversion Hi.
    - apply list_elem_of_singleton in Hi, Hj. congruence. }
  rewrite Hlen.
  destruct Hs as [->|[->| ->]]; cbn [String.eqb Ascii.eqb Bool.eqb andb].
  - (* first *)
    destruct g as [|h t]; [inversion Hi|]. cbn [skipn].
    apply elem_of_cons in Hi as [Hi|Hi]; [|left; assumption].
    apply elem_of_cons in Hj as [Hj|Hj]; [congruence|right; assumption].
  - (* last *)
    assert (Hg : g <> []) by (intros ->; inversion Hi).
    pose proof (app_removelast_last 0%nat Hg) as E.
    rewrite E in Hi, Hj.
    apply elem_of_app in Hi as [Hi|Hi]; [left; assumption|].
    apply elem_of_app in Hj as [Hj|Hj]; [right; assumption|].
    apply list_elem_of_singleton in Hi, Hj. congruence.
  - (* best *)
    destruct g as [|g0 tl]; [inversion Hi|].
    destruct (foldl _ _ tl) as [best_idx best_score].
    destruct (decide (i = best_idx)) as [->|Hb].
    + right. apply list_elem_of_In, filter_In. split; [apply list_elem_of_In; assumption|].
      apply negb_true_iff, Nat.eqb_neq. congruence.
    + left. apply list_elem_of_In, filter_In. split; [apply list_elem_of_In; assumption|].
      apply negb_true_iff, Nat.eqb_neq. assumption.
Qed.

Lemma foldl_union_elem (f : list nat -> list nat) (gs : list (list nat))
    (acc0 : gset nat) (x : nat) (g : list nat) :
  g ∈ gs -> x ∈ f g ->
  x ∈ foldl (fun acc_ group => acc_ ∪ list_to_set (f group)) acc0 gs.
Proof.
  assert (Hmono : forall (gs : list (list nat)) (acc0 : gset nat), x ∈ acc0 ->
            x ∈ foldl (fun acc_ group => acc_ ∪ list_to_set (f group)) acc0 gs).
  { clear. intros gs. induction gs as [|h gs IH]; intros acc0 H; [assumption|].
    simpl. apply IH. apply elem_of_union; left; assumption. }
  revert acc0. induction gs as [|h gs IH]; intros acc0 Hg Hx; [inversion Hg|].
  simpl. apply elem_of_cons in Hg as [->|Hg].
  - apply Hmono. apply elem_of_union; right. apply elem_of_list_to_set. assumption.
  - apply IH; assumption.
Qed.

(** Of two different indices of one duplicate group, at least one is in
    [indices_to_remove]. *)
Lemma indices_to_remove_pair (l : list scholarship) (keep_strategy : string) (i j : nat) :
  documented keep_strategy -> together (get_duplicate_groups l) i j -> i <> j ->
  i ∈ indices_to_remove l keep_strategy \/ j ∈ indices_to_remove l keep_strategy.
Proof.
  intros Hs (g & Hg & Hi & Hj) Hij. unfold indices_to_remove.
  destruct (removed_of_group_pair l keep_strategy g i j Hs Hi Hj Hij) as [H|H];
    [left|right]; eapply foldl_union_elem; eassumption.
Qed.

(** *** The kept list *)

Lemma keep_from_lookup (removed : gset nat) (l : list scholarship) (off a : nat) x :
  keep_from off removed l !! a = Some x ->
  exists i, l !! i = Some x /\ (Nat.add off i ∉ removed).
Proof.
  revert off a. induction l as [|s t IH]; intros off a H; simpl in H.
  - rewrite lookup_nil in H. discriminate.
  - destruct (decide (off ∈ removed)) as [Hin|Hnin].
    + destruct (IH _ _ H) as (i & Hi & Hn). exists (S i). split; [assumption|].
      replace (off + S i)%nat with (S off + i)%nat by lia. assumption.
    + destruct a as [|a].
      * injection H as <-. exists 0%nat. split; [reflexivity|].
        rewrite Nat.add_0_r. assumption.
      * destruct (IH _ _ H) as (i & Hi & Hn). exists (S i). split; [assumption|].
        replace (off + S i)%nat with (S off + i)%nat by lia. assumption.
Qed.

(** Two positions of the kept list come from two positions of the input, in
    the same order, neither of them removed. *)
Lemma keep_from_lookup2 (removed : gset nat) (l : list scholarship) (off a b : nat) x y :
  (a < b)%nat ->
  keep_from off removed l !! a = Some x ->
  keep_from off removed l !! b = Some y ->
  exists i j, (i < j)%nat /\ l !! i = Some x /\ l !! j = Some y /\
              (Nat.add off i ∉ removed) /\ (Nat.add off j ∉ removed).
Proof.
  revert off a b. induction l as [|s t IH]; intros off a b Hab Ha Hb; simpl in Ha, Hb.
  - rewrite lookup_nil in Ha. discriminate.
  - assert (Hshift : forall i j,
               (i < j)%nat /\ t !! i = Some x /\ t !! j = Some y /\
               (Nat.add (S off) i ∉ removed) /\ (Nat.add (S off) j ∉ removed) ->
               exists i j, (i < j)%nat /\ (s :: t) !! i = Some x /\ (s :: t) !! j = Some y /\
                           (Nat.add off i ∉ removed) /\ (Nat.add off j ∉ removed)).
    { intros i j (H1 & H2 & H3 & H4 & H5). exists (S i), (S j).
      replace (off + S i)%nat with (S off + i)%nat by lia.
      replace (off + S j)%nat with (S off + j)%nat by lia.
      repeat split; try assumption. lia. }
    destruct (decide (off ∈ removed)) as [Hin|Hnin].
    + destruct (IH _ _ _ Hab Ha Hb) as (i & j & H). eapply Hshift; eassumption.
    + destruct a as [|a]; destruct b as [|b]; try lia.
      * injection Ha as <-.
        destruct (keep_from_lookup _ _ _ _ _ Hb) as (j & Hj & Hn).
        exists 0%nat, (S j). repeat split; try assumption; try lia.
        -- rewrite Nat.add_0_r. assumption.
        -- replace (off + S j)%nat with (S off + j)%nat by lia. assumption.
      * destruct (IH (S off) a b ltac:(lia) Ha Hb) as (i & j & H).
        eapply Hshift; eassumption.
Qed.

(** C7.  Deduplication followed by grouping finds nothing: with a documented
    strategy ([first], [last] or [best]), no two of the kept records are
    detected as duplicates of each other, so [get_duplicate_groups] of the
    kept list has no group at all, and in particular none with several
    elements. *)
Theorem deduplicate_then_group_is_empty (l : list scholarship) (keep_strategy : string) :
  documented keep_strategy ->
  find_duplicates_in_batch (deduplicate_scholarships l keep_strategy) = [] /\
  get_duplicate_groups (deduplicate_scholarships l keep_strategy) = [] /\
  Forall (fun g => (length g <= 1)%nat)
         (get_duplicate_groups (deduplicate_scholarships l keep_strategy)).
Proof.
  intros Hs.
  assert (H : find_duplicates_in_batch (deduplicate_scholarships l keep_strategy) = []).
  { unfold deduplicate_scholarships. destruct l as [|s0 l0] eqn:El; [reflexivity|].
    rewrite <- El. clear El s0 l0.
    apply find_duplicates_none. intros a b x y Hab Ha Hb.
    destruct (are_duplicates x y) eqn:Hd; [exfalso|reflexivity].
    destruct (keep_from_lookup2 _ _ _ _ _ _ _ Hab Ha Hb)
      as (i & j & Hij & Hi & Hj & Hni & Hnj).
    simpl in Hni, Hnj.
    pose proof (find_duplicates_complete l i j x y Hij Hi Hj Hd) as Hin.
    pose proof (build_groups_together _ _ _ _ Hin) as Ht.
    destruct (indices_to_remove_pair l keep_strategy i j Hs Ht ltac:(lia)); contradiction. }
  split; [assumption|].
  unfold get_duplicate_groups. rewrite H. split; [reflexivity|constructor].
Qed.

(** The four records above, deduplicated with the strategy [best]. *)
Lemma deduplicate_then_group_witness :
  find_duplicates_in_batch
    (deduplicate_scholarships [listing_a; listing_b; scholarship_c; scholarship_d] "best") = [] /\
  get_duplicate_groups
    (deduplicate_scholarships [listing_a; listing_b; scholarship_c; scholarship_d] "best") = [] /\
  Forall (fun g => (length g <= 1)%nat)
    (get_duplicate_groups
       (deduplicate_scholarships [listing_a; listing_b; scholarship_c; scholarship_d] "best")).
Proof.
  apply (deduplicate_then_group_is_empty
           [listing_a; listing_b; scholarship_c; scholarship_d] "best").
  right; right; reflexivity.
Defined.

(** The witness is not trivial: the input has a duplicate group. *)
Example grouping_example :
  get_duplicate_groups [listing_a; listing_b; scholarship_c; scholarship_d] = [[2; 3]%nat] /\
  length (deduplicate_scholarships [listing_a; listing_b; scholarship_c; scholarship_d] "best")
    = 3%nat.
Proof. split; vm_compute; reflexivity. Qed.

End DedupSpec.

(** ** Link validation *)

Module LinkValidationSpec.
Import Py PyTime LinkValidation.

Local Open Scope Q_scope.

Lemma clamp_zero (x : Q) : x == 0 -> Qred (Qmin 100 (Qmax 0 x)) = 0.
Proof.
  intros Hx.
  assert (E : Qmin 100 (Qmax 0 x) == 0).
  { unfold Qmin, Qmax.
    destruct (Qle_bool 0 x) eqn:E0.
    - destruct (Qle_bool 100 x) eqn:E1; [|assumption].
      apply Qle_bool_iff in E1. rewrite Hx in E1. exfalso.
      unfold Qle in E1. simpl in E1. lia.
    - destruct (Qle_bool 100 0) eqn:E1; [discriminate E1|reflexivity]. }
  rewrite (Qred_complete _ _ E). reflexivity.
Qed.

(** A status of 400 or more forces the quality score to 0. *)
Lemma quality_zero_on_http_error original final content ctype (status : Z) (t : Q) :
  (400 <= status)%Z ->
  _calculate_quality_score original final content ctype status t = 0.
Proof.
  intros H. unfold _calculate_quality_score.
  assert (E : (status >=? 400)%Z = true) by (apply Z.geb_le; lia).
  rewrite E. apply clamp_zero.
  destruct (negb (Qle_bool t 10)); [|destruct (negb (Qle_bool t 5))];
    (destruct (contains ctype (u "text/html"));
     [|destruct (contains ctype (u "application/pdf"))]);
    destruct (negb (str_eqb original final)); unfold Qdiv; ring.
Qed.

Definition header_readable (r : response) : Prop :=
  match r_content_length r with
  | None => True
  | Some h => exists n, int_of_str h = Ok n
  end.

(** C5.  When the fetch of a well-formed URL returns a response with status
    400 or more, and the response is read to the end, the result has status
    [broken] and quality score exactly 0; and for every URL and every outcome
    of the fetch (a response, a client error, a timeout, any other
    exception), [validate_url] returns a result and does not raise. *)
Theorem http_error_is_broken (url : pystr) (w : fetch) (r : response) (content : pystr) :
  Urllib.scheme (Urllib.urlparse url) <> [] ->
  Urllib.netloc (Urllib.urlparse url) <> [] ->
  got w = Ok r -> header_readable r -> r_text r = Ok content ->
  (400 <= r_status r)%Z ->
  (exists result, validate_url url w = Ok result /\
                  vr_status result = BROKEN /\
                  quality_score result = 0 /\
                  response_code result = r_status r) /\
  (forall url' w', exists result', validate_url url' w' = Ok result').
Proof.
  intros Hs Hn Hg Hh Ht Hst. split.
  - unfold validate_url.
    destruct (Urllib.scheme (Urllib.urlparse url)) as [|c s]; [congruence|].
    destruct (Urllib.netloc (Urllib.urlparse url)) as [|c' n]; [congruence|].
    unfold fetch_and_score. rewrite Hg. cbn [bind].
    assert (Hlen : exists n0, match r_content_length r with
                              | Some h => int_of_str h
                              | None => Ok 0%Z
                              end = Ok n0).
    { unfold header_readable in Hh. destruct (r_content_length r); eauto. }
    destruct Hlen as [n0 ->]. cbn [bind]. rewrite Ht. cbn [bind].
    eexists. split; [reflexivity|]. cbn [vr_status quality_score response_code].
    split; [|split; [|reflexivity]].
    + unfold _determine_status.
      assert (E : (r_status r >=? 400)%Z = true) by (apply Z.geb_le; lia).
      rewrite E. reflexivity.
    + apply quality_zero_on_http_error. assumption.
  - intros url' w'. unfold validate_url.
    destruct (Urllib.scheme (Urllib.urlparse url')); [eauto|].
    destruct (Urllib.netloc (Urllib.urlparse url')); [eauto|].
    destruct (fetch_and_score _ _ w') as [res_|[]]; eauto.
Qed.

Definition not_found : response :=
  Response 404 (u "text/html; charset=utf-8") (Some (u "1245"))
           (u "https://scholarships.gov.in/old-scheme")
           (Ok (u "<html><body><h1>404 Not Found</h1></body></html>")).

(** A 404 page of a trusted domain. *)
Lemma http_error_is_broken_witness :
  (exists result,
      validate_url (u "https://scholarships.gov.in/old-scheme") (Fetch (3 # 10) (Ok not_found))
        = Ok result /\
      vr_status result = BROKEN /\ quality_score result = 0 /\
      response_code result = r_status not_found) /\
  (forall url' w', exists result', validate_url url' w' = Ok result').
Proof.
  apply (http_error_is_broken (u "https://scholarships.gov.in/old-scheme")
           (Fetch (3 # 10) (Ok not_found)) not_found
           (u "<html><body><h1>404 Not Found</h1></body></html>")).
  - vm_compute. discriminate.
  - vm_compute. discriminate.
  - reflexivity.
  - vm_compute. eexists. reflexivity.
  - reflexivity.
  - vm_compute. discriminate.
Defined.

(** The result for the 404 response above, in full. *)
Example not_found_result :
  validate_url (u "https://scholarships.gov.in/old-scheme") (Fetch (3 # 10) (Ok not_found))
  = Ok (mkValidation (u "https://scholarships.gov.in/old-scheme") BROKEN 404 (3 # 10)
          (u "https://scholarships.gov.in/old-scheme") (u "text/html; charset=utf-8") 1245 0
          [HttpError 404; VeryShortContent; MissingEligibilityCriteria;
           MissingDeadlineInformation]).
Proof. vm_compute. reflexivity. Qed.

(** When reading the response fails, the handlers decide: a body that cannot
    be decoded gives [invalid], still with quality score 0. *)
Example undecodable_body_is_invalid :
  validate_url (u "https://scholarships.gov.in/old-scheme")
    (Fetch (3 # 10) (Ok (Response 404 [] None (u "https://scholarships.gov.in/old-scheme")
                                  (Raise ValueError))))
  = Ok (failed (u "https://scholarships.gov.in/old-scheme") INVALID (3 # 10) ValidationError).
Proof. vm_compute. reflexivity. Qed.

(** C5, counterexample.  Two fetches that yield status 404 without a result
    [broken]: the body cannot be decoded, and the result is [invalid]; the
    body is not read in time, and the result is [slow]. *)
Lemma http_error_not_broken :
  (exists result,
      validate_url (u "https://scholarships.gov.in/old-scheme")
        (Fetch (3 # 10) (Ok (Response 404 (u "text/html; charset=utf-8") (Some (u "1245"))
                                      (u "https://scholarships.gov.in/old-scheme")
                                      (Raise ValueError)))) = Ok result /\
      vr_status result = INVALID /\ response_code result = 0%Z) /\
  (exists result,
      validate_url (u "https://scholarships.gov.in/old-scheme")
        (Fetch 30 (Ok (Response 404 (u "text/html; charset=utf-8") (Some (u "1245"))
                                (u "https://scholarships.gov.in/old-scheme")
                                (Raise TimeoutError)))) = Ok result /\
      vr_status result = SLOW /\ response_code result = 0%Z).
Proof. split; eexists; (split; [vm_compute; reflexivity|split; reflexivity]). Qed.

End LinkValidationSpec.

(** ** Scraping service *)

Module ScrapingSpec.
Import Py PyTime PyFloat Scraping.

Section Gate.
Variable date_parser_parse_date : pystr -> res pyval.
Variable text_processor_clean_text : pystr -> res pystr.
Variable urljoin : pystr -> pystr -> pystr.
Variable float_of_str : pystr -> res pyfloat.
Variable fromisoformat : pystr -> res datetime.
Variable now : datetime.

Let clean := _clean_and_validate_data date_parser_parse_date text_processor_clean_text
                                      urljoin float_of_str now.
Let validate_deadline_ := validate_deadline date_parser_parse_date now.

Lemma strip_val_short (data : gmap string pyval) (key : string) (n : Z) :
  (forall s, data !! key = Some (VStr s) -> len (strip s) < n) ->
  0 < n ->
  match strip_val (get data key (VStr [])) with
  | Ok t => (match t with [] => true | _ => false end) || (len t <? n) = true
  | Raise _ => True
  end.
Proof.
  intros H Hn. unfold get. destruct (data !! key) as [v|] eqn:E.
  - destruct v; simpl; try exact I.
    specialize (H s eq_refl). apply orb_true_iff. right. apply Z.ltb_lt. assumption.
  - simpl. reflexivity.
Qed.

(** C6.  A record whose title, stripped, has fewer than 10 characters, or
    whose description, stripped, has fewer than 20, is dropped: the gate
    returns [None].  (A missing title or description counts as empty; a
    value that is not a string makes the gate return [None] as well.) *)
Theorem short_title_or_description_is_dropped
    (data : gmap string pyval) (source_name : pystr) :
  (forall s, data !! "title"%string = Some (VStr s) -> len (strip s) < 10) \/
  (forall s, data !! "description"%string = Some (VStr s) -> len (strip s) < 20) ->
  clean data source_name = None.
Proof.
  intros H. subst clean. unfold _clean_and_validate_data, clean_body.
  destruct H as [H|H].
  - pose proof (strip_val_short data "title" 10 H ltac:(lia)) as Ht.
    destruct (strip_val (get data "title" (VStr []))) as [t|e]; [|reflexivity].
    cbn [bind]. rewrite Ht. reflexivity.
  - destruct (strip_val (get data "title" (VStr []))) as [t|e]; [|reflexivity].
    cbn [bind].
    destruct ((match t with [] => true | _ => false end) || (len t <? 10)); [reflexivity|].
    pose proof (strip_val_short data "description" 20 H ltac:(lia)) as Hd.
    destruct (strip_val (get data "description" (VStr []))) as [d|e]; [|reflexivity].
    cbn [bind]. rewrite Hd. reflexivity.
Qed.

(** The deadline block never rejects a [datetime], and drops it. *)
Lemma datetime_deadline_is_dropped (d : datetime) :
  validate_deadline_ (VDatetime d) = Passed VNone.
Proof. reflexivity. Qed.

(** Nor a text that the date parser turns into a [datetime]. *)
Lemma parsed_deadline_is_dropped (s : pystr) (d : datetime) :
  s <> [] -> date_parser_parse_date s = Ok (VDatetime d) ->
  validate_deadline_ (VStr s) = Passed VNone.
Proof.
  intros Hs Hp. subst validate_deadline_. unfold validate_deadline.
  destruct s; [congruence|]. cbn [truthy]. rewrite Hp. reflexivity.
Qed.

(** Only a [date] in the past is rejected. *)
Lemma past_date_is_rejected (d : date) :
  d < date_of now -> validate_deadline_ (VDate d) = Rejected.
Proof.
  intros H. subst validate_deadline_. unfold validate_deadline. cbn.
  destruct (Z.ltb_spec d (date_of now)); [reflexivity|lia].
Qed.

(** C10.  The quality score lies between 33 and 100. *)
Theorem quality_score_bounds (scholarship : ScrapedScholarship) :
  33 <= _calculate_quality_score fromisoformat now scholarship <= 100.
Proof.
  unfold _calculate_quality_score, validate_url_unawaited.
  repeat match goal with
         | |- context [if ?c then _ else _] => destruct c
         | |- context [match ?x with _ => _ end] => destruct x
         end; lia.
Qed.

End Gate.

(** A listing whose deadline, 1 January 2020, is given as text. *)
Definition expired_listing : gmap string pyval :=
  <["title"%string := VStr (u "National Merit Scholarship 2020")]>
  (<["description"%string := VStr (u "Financial support for meritorious students.")]>
  (<["deadline"%string := VStr (u "2020-01-01")]> ∅)).

(** C2.  With the [parse_date] and [clean_text] of the repository, the gate
    accepts the expired listing whatever the clock says, and drops its
    deadline: [parse_date] returns a [datetime], the comparison with
    [datetime.now().date()] raises [TypeError], and the handler sets the
    deadline to [None] instead of rejecting the record. *)
Theorem expired_text_deadline_is_accepted
    (unescape NFKD : pystr -> pystr) (urljoin : pystr -> pystr -> pystr)
    (float_of_str : pystr -> res pyfloat) (now : datetime) (source_name : pystr) :
  parse_date_value now (u "2020-01-01") = Ok (VDatetime 63713433600000000) /\
  validate_deadline (parse_date_value now) now (VStr (u "2020-01-01")) = Passed VNone /\
  exists c,
    _clean_and_validate_data (parse_date_value now)
                             (fun text => Ok (clean_text unescape NFKD text))
                             urljoin float_of_str now
                             expired_listing source_name = Some c /\
    c_deadline c = None.
Proof.
  assert (Hp : parse_date_value now (u "2020-01-01") = Ok (VDatetime 63713433600000000))
    by (vm_compute; reflexivity).
  assert (Hv : validate_deadline (parse_date_value now) now (VStr (u "2020-01-01"))
               = Passed VNone)
    by (apply (parsed_deadline_is_dropped (parse_date_value now) now
                 (u "2020-01-01") 63713433600000000);
        [vm_compute; discriminate | exact Hp]).
  split; [assumption|]. split; [assumption|].
  unfold _clean_and_validate_data, clean_body.
  change (get expired_listing "title" (VStr []))
    with (VStr (u "National Merit Scholarship 2020")).
  change (get expired_listing "description" (VStr []))
    with (VStr (u "Financial support for meritorious students.")).
  change (get expired_listing "amount" VNone) with VNone.
  change (get expired_listing "deadline" VNone) with (VStr (u "2020-01-01")).
  change (get expired_listing "application_url" (VStr [])) with (VStr []).
  change (get expired_listing "eligibility" (VList [])) with (VList []).
  rewrite Hv.
  eexists. split; reflexivity.
Qed.

(** The dates of the example: the deadline is 1 January 2020, and on
    3 November 2026 it lies in the past. *)
Example expired_listing_dates :
  mk_datetime 2020 1 1 0 0 0 = Some 63713433600000000 /\
  date_of 63713433600000000 < date_of DateParserSpec.noon_2026_11_03.
Proof. split; vm_compute; reflexivity. Qed.

Definition short_listing : gmap string pyval :=
  <["title"%string := VStr (u "  Grant  ")]>
  (<["description"%string := VStr (u "Financial support for meritorious students.")]> ∅).

(** A listing whose title, stripped, is "Grant". *)
Lemma short_title_or_description_is_dropped_witness :
  _clean_and_validate_data (parse_date_value DateParserSpec.noon_2026_11_03)
                           (fun text => Ok (clean_text (fun s => s) (fun s => s) text))
                           (fun b r => b ++ r)
                           (fun _ => Raise ValueError) DateParserSpec.noon_2026_11_03
                           short_listing (u "scholarships.gov.in") = None.
Proof.
  apply (short_title_or_description_is_dropped
           (parse_date_value DateParserSpec.noon_2026_11_03)
           (fun text => Ok (clean_text (fun s => s) (fun s => s) text))
           (fun b r => b ++ r)
           (fun _ => Raise ValueError) DateParserSpec.noon_2026_11_03
           short_listing (u "scholarships.gov.in")).
  left. intros s Hs. vm_compute in Hs. injection Hs as <-. vm_compute. reflexivity.
Defined.

(** *** Pagination *)



Definition five_pages : site :=
  let p := Page (Ok []) true true in
  Site true p [p; p; p; Page (Ok []) false true].



(** Both bounds of the quality score are attained. *)
Example quality_score_extremes :
  _calculate_quality_score (fun _ => Raise ValueError) DateParserSpec.noon_2026_11_03
    (mkScraped [] [] None None [] [] [] [] [] []) = 33 /\
  _calculate_quality_score (fun _ => Ok (DateParserSpec.noon_2026_11_03 + days 30))
    DateParserSpec.noon_2026_11_03
    (mkScraped (u "National Merit Scholarship")
               (concat (repeat (u "Financial support for meritorious students. ") 5))
               (Some (of_Z 50000)) (Some (u "2026-12-03"))
               [u "Class 12 pass"] (u "https://scholarships.gov.in/apply")
               [] [] [] []) = 100.
Proof. split; vm_compute; reflexivity. Qed.

(** Without the ceiling the same run extracts all five pages. *)
Example five_pages_without_ceiling :
  extraction_calls
    (fst (scrape_scholarships
            (SourceConfig None (Some (Pagination (Some true) (Some (u ".next")) None)))
            10 five_pages)) = 5%nat.
Proof. reflexivity. Qed.

End ScrapingSpec.

(** * Further properties of the code

    Properties of functions beside the ones above: what the code does at
    its edges, what it keeps invariant and how its functions compose. *)

Module AmountParserProps.
Import Py Re PyFloat AmountParser ReSpec AmountParserSpec.

(** An ASCII text without a decimal digit. *)
Definition plain_words (s : pystr) : Prop :=
  Forall (fun c => 0 <= c < 128 /\ is_ascii_digit c = false) s.

Lemma plain_words_digit_free (s : pystr) : plain_words s -> digit_free s.
Proof. intros H. eapply Forall_impl; [exact H|]. intros c [_ Hc]; exact Hc. Qed.

Lemma digit_free_lower (s : pystr) : digit_free s -> digit_free (lower s).
Proof.
  unfold digit_free, lower. intros H. apply Forall_map. eapply Forall_impl; [exact H|].
  intros c Hc. simpl. unfold lower_char, is_ascii_upper, is_ascii_digit in *.
  destruct ((65 <=? c) && (c <=? 90)) eqn:E; [|assumption].
  apply andb_true_iff in E as [E1 E2]. apply Z.leb_le in E1, E2.
  apply andb_false_iff. right. apply Z.leb_gt. lia.
Qed.

Lemma lstrip_suffix (s : pystr) : lstrip s `suffix_of` s.
Proof.
  induction s as [|c t IH]; simpl; [reflexivity|].
  destruct (is_space c); [apply suffix_cons_r; assumption|reflexivity].
Qed.

Lemma digit_free_strip (s : pystr) : digit_free s -> digit_free (strip s).
Proof.
  intros H. unfold strip, rstrip, digit_free.
  apply Forall_rev. eapply digit_free_suffix; [apply lstrip_suffix|].
  apply Forall_rev. eapply digit_free_suffix; [apply lstrip_suffix|]. exact H.
Qed.

(** X1.  A text without a digit can only be decided by the word strategy:
    the currency, numeric and range strategies all need a digit, so
    [parse_amount] returns what [_parse_word_amount] returns for the
    lower-cased, stripped text. *)
Theorem parse_amount_without_digit (text : pystr) :
  text <> [] -> plain_words text ->
  _parse_structured_amount (strip (lower text)) = None /\
  _parse_numeric_amount (strip (lower text)) = None /\
  _parse_range_amount (strip (lower text)) = None /\
  parse_amount text = _parse_word_amount (strip (lower text)).
Proof.
  intros Hne Hp.
  assert (Hd : digit_free (strip (lower text)))
    by (apply digit_free_strip, digit_free_lower, plain_words_digit_free, Hp).
  assert (Hs : _parse_structured_amount (strip (lower text)) = None).
  { unfold _parse_structured_amount. rewrite search_needs_digit by (assumption || reflexivity).
    reflexivity. }
  assert (Hn : _parse_numeric_amount (strip (lower text)) = None).
  { unfold _parse_numeric_amount.
    rewrite !search_needs_digit by (assumption || reflexivity). reflexivity. }
  assert (Hr : _parse_range_amount (strip (lower text)) = None)
    by (apply range_strategy_never_decides, Hn).
  repeat split; try assumption.
  unfold parse_amount. destruct text as [|c t]; [congruence|].
  cbn [first_some]. rewrite Hs, Hn, Hr.
  destruct (_parse_word_amount _); reflexivity.
Qed.

Lemma parse_amount_without_digit_witness :
  _parse_structured_amount (strip (lower (u "Five Lakh rupees"))) = None /\
  _parse_numeric_amount (strip (lower (u "Five Lakh rupees"))) = None /\
  _parse_range_amount (strip (lower (u "Five Lakh rupees"))) = None /\
  parse_amount (u "Five Lakh rupees") = _parse_word_amount (strip (lower (u "Five Lakh rupees"))).
Proof.
  apply (parse_amount_without_digit (u "Five Lakh rupees")).
  - vm_compute. discriminate.
  - unfold plain_words. repeat constructor; vm_compute; congruence.
Defined.

(** The multiplier the word strategy applies: chosen by the unit words the
    whole text contains, [lakh] first. *)
Definition unit_multiplier (text : pystr) : Z :=
  if contains text (u "lakh") then 100000
  else if contains text (u "crore") then 10000000
  else if contains text (u "thousand") then 1000
  else 100.

Lemma first_some_Some {A B} (f : A -> option B) (l : list A) (y : B) :
  first_some f l = Some y -> exists x, In x l /\ f x = Some y.
Proof.
  induction l as [|x l IH]; simpl; [discriminate|].
  destruct (f x) eqn:E.
  - intros [= <-]. exists x. split; [left; reflexivity|assumption].
  - intros H. destruct (IH H) as (x' & Hin & Hx). exists x'. split; [right|]; assumption.
Qed.

Lemma dict_get_In {V} (k : pystr) (d : list (pystr * V)) (v : V) :
  dict_get k d = Some v -> In (k, v) d.
Proof.
  induction d as [|[k' v'] d IH]; simpl; [discriminate|].
  destruct (str_eqb k k') eqn:E.
  - intros [= <-]. apply str_eqb_eq in E. subst. left; reflexivity.
  - intros H. right. apply IH, H.
Qed.

(** X2.  Whatever the word strategy returns is the value of a number word
    times a multiplier that depends on the text as a whole, not on the unit
    that follows the number word: with "lakh" anywhere in the text the
    multiplier is 100000, also for a number word in front of "thousand". *)
Theorem word_amount_multiplier (text : pystr) (q : Q) :
  _parse_word_amount text = Some q ->
  exists (w : pystr) (base_value : Z),
    In (w, base_value) word_to_number /\
    q = inject_Z (base_value * unit_multiplier text).
Proof.
  unfold _parse_word_amount. intros H.
  apply first_some_Some in H as (pattern & _ & H).
  apply first_some_Some in H as (m & _ & H).
  unfold word_amount_of_match in H.
  destruct (group 1 m) as [w|]; [|discriminate].
  destruct (dict_get (lower w) word_to_number) as [base_value|] eqn:E; [|discriminate].
  exists (lower w), base_value. split; [apply dict_get_In, E|].
  unfold unit_multiplier.
  destruct (contains text (u "lakh")); [congruence|].
  destruct (contains text (u "crore")); [congruence|].
  destruct (contains text (u "thousand")); [congruence|].
  destruct (contains text (u "hundred")); [congruence|discriminate].
Qed.

Lemma word_amount_multiplier_witness :
  exists (w : pystr) (base_value : Z),
    In (w, base_value) word_to_number /\
    inject_Z 500000 =
      inject_Z (base_value * unit_multiplier (u "five thousand for lakhs of students")).
Proof.
  apply (word_amount_multiplier (u "five thousand for lakhs of students") (inject_Z 500000)).
  vm_compute. reflexivity.
Defined.

End AmountParserProps.

Module DateParserProps.
Import Py PyTime DateParser DateParserSpec.

Lemma approaching_iff (now d : datetime) (days_threshold : Z) :
  is_deadline_approaching now (Some d) days_threshold = true <->
  now <= d < now + days (days_threshold + 1).
Proof.
  unfold is_deadline_approaching, get_days_until_deadline, days.
  assert (HD : us_per_day = 86400000000) by reflexivity. rewrite HD.
  pose proof (Z.div_mod (d - now) 86400000000 ltac:(lia)) as Hdm.
  pose proof (Z.mod_pos_bound (d - now) 86400000000 ltac:(lia)) as Hm.
  set (q := (d - now) / 86400000000) in *.
  rewrite andb_true_iff, !Z.leb_le. lia.
Qed.

(** X3.  A deadline is approaching exactly when it lies between the clock
    and [days_threshold + 1] days after it, the upper end excluded: the
    days left are rounded down, so a deadline [days_threshold] days and 23
    hours away still counts, and a deadline in the past never does; no
    deadline ([None]) is never approaching. *)
Theorem deadline_approaching_window (now d : datetime) (days_threshold : Z) :
  (is_deadline_approaching now (Some d) days_threshold = true <->
     now <= d < now + days (days_threshold + 1)) /\
  is_deadline_approaching now None days_threshold = false.
Proof. split; [apply approaching_iff|reflexivity]. Qed.

(** X4.  A deadline that is approaching within fewer than 5 x 365 days
    is a valid deadline. *)
Theorem approaching_deadline_is_valid (now d : datetime) (days_threshold : Z) :
  dt_min + days 1 <= now <= dt_max - days (365 * 5) ->
  days_threshold < 365 * 5 ->
  is_deadline_approaching now (Some d) days_threshold = true ->
  is_valid_deadline now (Some d) = Ok true.
Proof.
  intros Hnow Ht Ha.
  apply approaching_iff in Ha.
  revert Hnow Ha. unfold days.
  assert (HD : us_per_day = 86400000000) by reflexivity.
  assert (Hmin : dt_min = 0) by reflexivity.
  assert (Hmax : dt_max = 315537897599999999) by reflexivity.
  intros Hnow Ha.
  unfold is_valid_deadline.
  rewrite (shift_ok now (- days 1)) by (unfold days; lia). cbn [bind].
  rewrite (shift_ok now (days (365 * 5))) by (unfold days; lia).
  unfold days. rewrite HD in *.
  destruct (Z.ltb_spec d (now + - (1 * 86400000000))); [lia|]. cbn [bind].
  unfold Z.gtb. destruct (d ?= now + 365 * 5 * 86400000000) eqn:E; try reflexivity.
  rewrite Z.compare_gt_iff in E. lia.
Qed.

Lemma approaching_deadline_is_valid_witness :
  is_valid_deadline noon_2026_11_03 (Some (noon_2026_11_03 + days 7 + 1)) = Ok true.
Proof.
  apply (approaching_deadline_is_valid noon_2026_11_03 (noon_2026_11_03 + days 7 + 1) 7).
  - vm_compute. split; discriminate.
  - lia.
  - vm_compute. reflexivity.
Defined.

End DateParserProps.

Module DedupProps.
Import Py PyTime Dedup DedupSpec.

Local Open Scope Z_scope.

(** X6.  Two deadlines count as the same (similarity 1) when the first is
    at most 3 days earlier or less than 4 days later than the second, and as
    unrelated (similarity 0) when it is more than 30 days earlier or at least
    31 days later: the difference is rounded down to whole days before its
    absolute value is taken, so the comparison depends on the order of the
    two dates. *)
Theorem compare_dates_window (date1 date2 : datetime) :
  (_compare_dates date1 date2 = 1%Q <-> - days 3 <= date1 - date2 < days 4) /\
  (_compare_dates date1 date2 = 0%Q <->
     date1 - date2 < - days 30 \/ days 31 <= date1 - date2).
Proof.
  unfold _compare_dates, days.
  assert (HD : us_per_day = 86400000000) by reflexivity. rewrite HD.
  pose proof (Z.div_mod (date1 - date2) 86400000000 ltac:(lia)) as Hdm.
  pose proof (Z.mod_pos_bound (date1 - date2) 86400000000 ltac:(lia)) as Hm.
  set (q := (date1 - date2) / 86400000000) in *.
  destruct (Z.leb_spec (Z.abs q) 3); [split; split; intros; try discriminate; try reflexivity; lia|].
  destruct (Z.leb_spec (Z.abs q) 7); [split; split; intros; try discriminate; lia|].
  destruct (Z.leb_spec (Z.abs q) 14); [split; split; intros; try discriminate; lia|].
  destruct (Z.leb_spec (Z.abs q) 30); [split; split; intros; try discriminate; lia|].
  split; split; intros; try discriminate; try reflexivity; lia.
Qed.


(** *** The groups and the pairs they come from *)

Lemma elem_of_alter_list {A} (f : A -> A) (k : nat) (l : list A) (y : A) :
  y ∈ alter f k l -> y ∈ l \/ exists x, l !! k = Some x /\ y = f x.
Proof.
  intros H. apply list_elem_of_lookup in H as [n Hn].
  destruct (decide (k = n)) as [->|Hne].
  - rewrite list_lookup_alter_eq in Hn.
    destruct (l !! n) as [x|] eqn:E; [|discriminate].
    right. exists x. simpl in Hn. split; congruence.
  - rewrite list_lookup_alter_ne in Hn by assumption.
    left. apply list_elem_of_lookup. eauto.
Qed.

Lemma elem_of_insert_list {A} (k : nat) (v : A) (l : list A) (y : A) :
  y ∈ <[k := v]> l -> y = v \/ y ∈ l.
Proof.
  intros H. apply list_elem_of_lookup in H as [n Hn].
  destruct (decide (k = n)) as [->|Hne].
  - destruct (decide (n < length l)%nat) as [Hlt|Hge].
    + rewrite list_lookup_insert_eq in Hn by assumption. left; congruence.
    + rewrite list_insert_ge in Hn by lia. right. apply list_elem_of_lookup. eauto.
  - rewrite list_lookup_insert_ne in Hn by assumption.
    right. apply list_elem_of_lookup. eauto.
Qed.

(** Every group is empty or has at least two members, and every member
    satisfies [P]. *)
Definition well_formed (P : nat -> Prop) (groups : list (list nat)) : Prop :=
  forall g, g ∈ groups -> (g = [] \/ (2 <= length g)%nat) /\ (forall x, x ∈ g -> P x).

Lemma add_pair_well_formed (P : nat -> Prop) (st : list (list nat) * gmap nat nat) (i j : nat) :
  consistent st -> P i -> P j -> well_formed P st.1 -> well_formed P (add_pair st i j).1.
Proof.
  destruct st as [groups itg]. intros Hc Pi Pj Hw. unfold add_pair. simpl in Hw.
  assert (Hgrow : forall (k x : nat) g', P x ->
            (forall g, groups !! k = Some g -> g <> []) ->
            g' ∈ alter (fun g => g ++ [x]) k groups ->
            (g' = [] \/ (2 <= length g')%nat) /\ (forall y, y ∈ g' -> P y)).
  { intros k x g' Px Hne Hin. apply elem_of_alter_list in Hin as [Hin|(g & Hg & ->)].
    - apply Hw, Hin.
    - assert (Hgin : g ∈ groups) by (apply list_elem_of_lookup; eauto).
      destruct (Hw g Hgin) as [Hsz HP]. split.
      + right. rewrite length_app. simpl.
        destruct Hsz as [->|Hsz]; [exfalso; eapply Hne; eauto|lia].
      + intros y Hy. apply elem_of_app in Hy as [Hy|Hy]; [apply HP, Hy|].
        apply list_elem_of_singleton in Hy. subst. assumption. }
  assert (Hnonempty : forall x gx, itg !! x = Some gx ->
            forall g, groups !! gx = Some g -> g <> []).
  { intros x gx Hx g Hg ->. destruct (Hc x gx Hx) as (g' & Hg' & Hin).
    simpl in Hg'. rewrite Hg in Hg'. injection Hg' as <-. inversion Hin. }
  destruct (itg !! i) as [gi|] eqn:Ei; destruct (itg !! j) as [gj|] eqn:Ej.
  - destruct (decide (gi = gj)) as [->|Hne]; [exact Hw|]. simpl.
    intros g' Hin. apply elem_of_insert_list in Hin as [->|Hin].
    + split; [left; reflexivity|]. intros x Hx; inversion Hx.
    + apply elem_of_alter_list in Hin as [Hin|(g & Hg & ->)]; [apply Hw, Hin|].
      assert (Hgin : g ∈ groups) by (apply list_elem_of_lookup; eauto).
      destruct (Hw g Hgin) as [Hsz HP].
      destruct (groups !! gj) as [g_j|] eqn:Egj; simpl.
      * assert (Hjin : g_j ∈ groups) by (apply list_elem_of_lookup; eauto).
        destruct (Hw g_j Hjin) as [Hszj HPj]. split.
        -- rewrite length_app.
           destruct Hsz as [->|Hsz]; [simpl; assumption|right; lia].
        -- intros y Hy. apply elem_of_app in Hy as [Hy|Hy]; [apply HP, Hy|apply HPj, Hy].
      * rewrite app_nil_r. split; assumption.
  - simpl. intros g' Hin. eapply Hgrow; [exact Pj| |exact Hin].
    intros g Hg. eapply Hnonempty; eassumption.
  - simpl. intros g' Hin. eapply Hgrow; [exact Pi| |exact Hin].
    intros g Hg. eapply Hnonempty; eassumption.
  - simpl. intros g' Hin. apply elem_of_app in Hin as [Hin|Hin]; [apply Hw, Hin|].
    apply list_elem_of_singleton in Hin. subst. split; [right; simpl; lia|].
    intros y Hy. apply elem_of_cons in Hy as [->|Hy]; [assumption|].
    apply list_elem_of_singleton in Hy. subst. assumption.
Qed.

Lemma grouping_loop_well_formed (P : nat -> Prop) (ps : list (nat * nat * DuplicationResult))
    (st : list (list nat) * gmap nat nat) :
  consistent st -> well_formed P st.1 ->
  (forall i j r, In (i, j, r) ps -> P i /\ P j) ->
  well_formed P (foldl step st ps).1.
Proof.
  revert st. induction ps as [|[[i j] r] ps IH]; intros st Hc Hw HP; [exact Hw|].
  simpl foldl. change (step st (i, j, r)) with (add_pair st i j).
  destruct (HP i j r (or_introl eq_refl)) as [Pi Pj].
  apply IH.
  - apply add_pair_spec, Hc.
  - apply add_pair_well_formed; assumption.
  - intros a b r' Hin. apply (HP a b r'). right; assumption.
Qed.

Lemma build_groups_well_formed (P : nat -> Prop) (ps : list (nat * nat * DuplicationResult)) :
  (forall i j r, In (i, j, r) ps -> P i /\ P j) ->
  forall g, g ∈ build_groups ps -> (2 <= length g)%nat /\ (forall x, x ∈ g -> P x).
Proof.
  intros HP g Hg. unfold build_groups in Hg. rewrite foldl_step_eq in Hg.
  assert (Hc : consistent ([], ∅)).
  { intros x gi Hx. simpl in Hx. rewrite lookup_empty in Hx. discriminate. }
  assert (Hw0 : well_formed P ([], ∅ : gmap nat nat).1) by (intros g0 H0; inversion H0).
  pose proof (grouping_loop_well_formed P ps ([], ∅) Hc Hw0 HP) as Hw.
  destruct (foldl step ([], ∅) ps) as [groups itg]. simpl in Hw.
  apply list_elem_of_In, filter_In in Hg as [Hin Hne].
  apply list_elem_of_In in Hin. destruct (Hw g Hin) as [[->|Hsz] HPg]; [discriminate|].
  split; assumption.
Qed.

(** The pairs that are listed were detected as duplicates. *)
Lemma find_duplicates_sound (l : list scholarship) (i j : nat) r :
  In (i, j, r) (find_duplicates_in_batch l) ->
  (i < j)%nat /\ exists si sj, l !! i = Some si /\ l !! j = Some sj /\
                               are_duplicates si sj = true.
Proof.
  unfold find_duplicates_in_batch. intros H.
  apply in_flat_map in H as (a & Ha & H). apply in_flat_map in H as (b & Hb & H).
  apply in_seq in Ha, Hb.
  destruct (l !! a) as [si|] eqn:Ei; [|inversion H].
  destruct (l !! b) as [sj|] eqn:Ej; [|inversion H].
  destruct (is_duplicate (detect_duplication si sj)) eqn:Hd; [|inversion H].
  destruct H as [[= <- <- <-]|[]].
  split; [lia|]. exists si, sj. repeat split; assumption.
Qed.

(** A position that takes part in a detected pair. *)
Definition paired (l : list scholarship) (x : nat) : Prop :=
  exists y sx sy, l !! x = Some sx /\ l !! y = Some sy /\
    (((x < y)%nat /\ are_duplicates sx sy = true) \/
     ((y < x)%nat /\ are_duplicates sy sx = true)).

Lemma listed_pairs_paired (l : list scholarship) (i j : nat) r :
  In (i, j, r) (find_duplicates_in_batch l) -> paired l i /\ paired l j.
Proof.
  intros H. apply find_duplicates_sound in H as (Hij & si & sj & Hi & Hj & Hd).
  split.
  - exists j, si, sj. repeat split; try assumption. left; split; assumption.
  - exists i, sj, si. repeat split; try assumption. right; split; assumption.
Qed.

Lemma duplicate_group_members (l : list scholarship) (g : list nat) :
  g ∈ get_duplicate_groups l -> (2 <= length g)%nat /\ (forall x, x ∈ g -> paired l x).
Proof.
  apply (build_groups_well_formed (paired l) (find_duplicates_in_batch l)
           (listed_pairs_paired l)).
Qed.

(** X8.  Every group that [get_duplicate_groups] returns has at least two
    members, and each member is a position of the list that takes part in a
    detected pair. *)
Theorem duplicate_groups_have_two_members (l : list scholarship) :
  Forall (fun g => (2 <= length g)%nat /\
                   Forall (fun x => (x < length l)%nat /\ paired l x) g)
         (get_duplicate_groups l).
Proof.
  apply Forall_forall. intros g Hg.
  destruct (duplicate_group_members l g Hg) as [Hsz HP].
  split; [assumption|]. apply Forall_forall. intros x Hx.
  pose proof (HP x Hx) as Hpx. split; [|assumption].
  destruct Hpx as (y & sx & sy & Hlx & _). eapply lookup_lt_Some; eassumption.
Qed.


(** *** What deduplication removes *)

Lemma removed_of_group_subset (l : list scholarship) (keep_strategy : string)
    (g : list nat) (x : nat) :
  x ∈ removed_of_group l keep_strategy g -> x ∈ g.
Proof.
  unfold removed_of_group.
  destruct (Nat.leb (length g) 1); [intros H; inversion H|].
  destruct (String.eqb keep_strategy "first").
  { intros H. destruct g as [|a g]; [inversion H|]. right; exact H. }
  destruct (String.eqb keep_strategy "last").
  { intros H. destruct g as [|a g]; [inversion H|].
    assert (E : a :: g = removelast (a :: g) ++ [List.last (a :: g) 0%nat])
      by (apply app_removelast_last; discriminate).
    rewrite E. apply elem_of_app. left; assumption. }
  destruct (String.eqb keep_strategy "best"); [|intros H; inversion H].
  destruct g as [|g0 tl]; [intros H; inversion H|].
  destruct (foldl _ _ tl) as [best_idx best_score].
  intros H. apply list_elem_of_In, filter_In in H as [H _]. apply list_elem_of_In, H.
Qed.

Lemma foldl_union_inv (f : list nat -> list nat) (gs : list (list nat))
    (acc0 : gset nat) (x : nat) :
  x ∈ foldl (fun acc_ group => acc_ ∪ list_to_set (f group)) acc0 gs ->
  x ∈ acc0 \/ exists g, g ∈ gs /\ x ∈ f g.
Proof.
  revert acc0. induction gs as [|h gs IH]; intros acc0 H; [left; assumption|].
  simpl in H. apply IH in H as [H|(g & Hg & Hx)].
  - apply elem_of_union in H as [H|H]; [left; assumption|].
    right. exists h. split; [left|]. apply elem_of_list_to_set in H. assumption.
  - right. exists g. split; [right|]; assumption.
Qed.

(** Only members of duplicate groups are removed. *)
Lemma indices_to_remove_grouped (l : list scholarship) (keep_strategy : string) (x : nat) :
  x ∈ indices_to_remove l keep_strategy ->
  exists g, g ∈ get_duplicate_groups l /\ x ∈ g.
Proof.
  unfold indices_to_remove. intros H.
  apply foldl_union_inv in H as [H|(g & Hg & Hx)].
  - apply elem_of_empty in H. contradiction.
  - exists g. split; [assumption|]. eapply removed_of_group_subset; eassumption.
Qed.

Lemma keep_from_keeps (removed : gset nat) (l : list scholarship) (off i : nat) s :
  l !! i = Some s -> (Nat.add off i ∉ removed) -> In s (keep_from off removed l).
Proof.
  revert off i. induction l as [|h t IH]; intros off i Hi Hn.
  - rewrite lookup_nil in Hi. discriminate.
  - simpl. destruct i as [|i].
    + injection Hi as ->. rewrite Nat.add_0_r in Hn.
      destruct (decide (off ∈ removed)); [contradiction|left; reflexivity].
    + assert (Hin : In s (keep_from (S off) removed t)).
      { apply (IH (S off) i); [exact Hi|].
        replace (S off + i)%nat with (off + S i)%nat by lia. assumption. }
      destruct (decide (off ∈ removed)); [assumption|right; assumption].
Qed.

Lemma keep_from_sublist (removed : gset nat) (l : list scholarship) (off : nat) :
  keep_from off removed l `sublist_of` l.
Proof.
  revert off. induction l as [|h t IH]; intros off; simpl; [constructor|].
  destruct (decide (off ∈ removed)).
  - apply sublist_cons. apply IH.
  - apply sublist_skip. apply IH.
Qed.

(** X9.  Deduplication only drops records: the result is a sub-list of the
    input, in the input order, and a record that is in no detected pair
    (it is no duplicate of a later record, and no earlier record is a
    duplicate of it) is never removed, whatever the keep strategy. *)
Theorem unpaired_record_is_kept (l : list scholarship) (keep_strategy : string)
    (i : nat) (s : scholarship) :
  l !! i = Some s ->
  (forall j sj, l !! j = Some sj ->
     ((i < j)%nat -> are_duplicates s sj = false) /\
     ((j < i)%nat -> are_duplicates sj s = false)) ->
  (i ∉ indices_to_remove l keep_strategy) /\
  In s (deduplicate_scholarships l keep_strategy) /\
  deduplicate_scholarships l keep_strategy `sublist_of` l.
Proof.
  intros Hi Hno.
  assert (Hn : i ∉ indices_to_remove l keep_strategy).
  { intros Hin. apply indices_to_remove_grouped in Hin as (g & Hg & Hx).
    pose proof (duplicate_group_members l g Hg) as [_ HP].
    destruct (HP i Hx) as (y & sx & sy & Hlx & Hly & Hd).
    rewrite Hi in Hlx. injection Hlx as <-.
    destruct (Hno y sy Hly) as [H1 H2].
    destruct Hd as [[Hlt Hd]|[Hlt Hd]]; [rewrite H1 in Hd|rewrite H2 in Hd];
      (assumption || discriminate). }
  split; [assumption|].
  unfold deduplicate_scholarships. destruct l as [|s0 l0] eqn:El.
  - rewrite lookup_nil in Hi. discriminate.
  - rewrite <- El in *. split.
    + eapply keep_from_keeps; [exact Hi|exact Hn].
    + apply keep_from_sublist.
Qed.


Lemma unpaired_record_is_kept_witness :
  (0%nat ∉ indices_to_remove [listing_a; listing_b; scholarship_c; scholarship_d] "first") /\
  In listing_a
     (deduplicate_scholarships [listing_a; listing_b; scholarship_c; scholarship_d] "first") /\
  deduplicate_scholarships [listing_a; listing_b; scholarship_c; scholarship_d] "first"
    `sublist_of` [listing_a; listing_b; scholarship_c; scholarship_d].
Proof.
  apply (unpaired_record_is_kept
           [listing_a; listing_b; scholarship_c; scholarship_d] "first" 0 listing_a).
  - reflexivity.
  - intros j sj Hj. split; [|lia]. intros Hlt.
    destruct j as [|[|[|[|j]]]]; simpl in Hj; try discriminate; try lia;
      injection Hj as <-; vm_compute; reflexivity.
Defined.

(** No two of the kept records are detected as duplicates of each other. *)
Lemma kept_records_have_no_pairs (l : list scholarship) (keep_strategy : string) :
  documented keep_strategy ->
  find_duplicates_in_batch (deduplicate_scholarships l keep_strategy) = [].
Proof.
  intros Hs. unfold deduplicate_scholarships. destruct l as [|s0 l0] eqn:El; [reflexivity|].
  rewrite <- El. clear El s0 l0.
  apply find_duplicates_none. intros a b x y Hab Ha Hb.
  destruct (are_duplicates x y) eqn:Hd; [exfalso|reflexivity].
  destruct (keep_from_lookup2 _ _ _ _ _ _ _ Hab Ha Hb)
    as (i & j & Hij & Hi & Hj & Hni & Hnj).
  simpl in Hni, Hnj.
  pose proof (find_duplicates_complete l i j x y Hij Hi Hj Hd) as Hin.
  pose proof (build_groups_together _ _ _ _ Hin) as Ht.
  destruct (indices_to_remove_pair l keep_strategy i j Hs Ht ltac:(lia)); contradiction.
Qed.

Lemma keep_from_nothing (l : list scholarship) (off : nat) : keep_from off ∅ l = l.
Proof.
  revert off. induction l as [|h t IH]; intros off; simpl; [reflexivity|].
  destruct (decide (off ∈ (∅ : gset nat))) as [H|_]; [apply elem_of_empty in H; contradiction|].
  rewrite IH. reflexivity.
Qed.

(** X10.  Deduplication is idempotent: with a documented keep strategy
    ([first], [last] or [best]), deduplicating the result again removes
    nothing. *)
Theorem deduplicate_idempotent (l : list scholarship) (keep_strategy : string) :
  documented keep_strategy ->
  deduplicate_scholarships (deduplicate_scholarships l keep_strategy) keep_strategy =
  deduplicate_scholarships l keep_strategy.
Proof.
  intros Hs. pose proof (kept_records_have_no_pairs l keep_strategy Hs) as Hnone.
  set (kept := deduplicate_scholarships l keep_strategy) in *.
  unfold deduplicate_scholarships at 1. destruct kept as [|k0 kept0] eqn:Ek; [reflexivity|].
  rewrite <- Ek in *.
  assert (Hrm : indices_to_remove kept keep_strategy = ∅).
  { unfold indices_to_remove, get_duplicate_groups. rewrite Hnone. reflexivity. }
  rewrite Hrm. apply keep_from_nothing.
Qed.

Lemma deduplicate_idempotent_witness :
  deduplicate_scholarships
    (deduplicate_scholarships [listing_a; listing_b; scholarship_c; scholarship_d] "last") "last" =
  deduplicate_scholarships [listing_a; listing_b; scholarship_c; scholarship_d] "last".
Proof.
  apply (deduplicate_idempotent [listing_a; listing_b; scholarship_c; scholarship_d] "last").
  right; left; reflexivity.
Defined.

End DedupProps.

(** *** The similarity scores on floats *)

Module DedupFloatProps.
Import Py PyFloat PyTime FloatArith DedupFloat.

Local Open Scope Q_scope.

(** *** The two roundings are roundings *)

Lemma Qle_bool_ext (x y x' y' : Q) : x == x' -> y == y' -> Qle_bool x y = Qle_bool x' y'.
Proof.
  intros Hx Hy. destruct (Qle_bool x y) eqn:E, (Qle_bool x' y') eqn:E'; try reflexivity.
  - apply Qle_bool_iff in E. rewrite Hx, Hy in E. apply Qle_bool_iff in E. congruence.
  - apply Qle_bool_iff in E'. rewrite <- Hx, <- Hy in E'. apply Qle_bool_iff in E'. congruence.
Qed.

Lemma Qle_bool_gt (x y : Q) : Qle_bool x y = false <-> y < x.
Proof.
  split.
  - intros E. apply Qnot_le_lt. intros H. apply Qle_bool_iff in H. congruence.
  - intros H. destruct (Qle_bool x y) eqn:E; [|reflexivity].
    apply Qle_bool_iff in E. lra.
Qed.

Lemma Qred_Qred (x : Q) : Qred (Qred x) = Qred x.
Proof. apply Qred_complete, Qred_correct. Qed.

Lemma float_limit_pos : 0 < float_limit.
Proof. reflexivity. Qed.

Lemma dyadic_small (n : Z) (e : nat) :
  (Z.abs n <= 2 ^ 53)%Z ->
  - float_limit < inject_Z n / inject_Z (2 ^ Z.of_nat e) < float_limit.
Proof.
  intros Hn.
  assert (Hp : (1 <= 2 ^ Z.of_nat e)%Z) by (apply Z.pow_le_mono_r with (b := 0%Z) (c := Z.of_nat e); lia).
  assert (Hd : 1 <= inject_Z (2 ^ Z.of_nat e)).
  { change 1 with (inject_Z 1). rewrite <- Zle_Qle. exact Hp. }
  assert (Hb : - inject_Z (2 ^ 53) <= inject_Z n <= inject_Z (2 ^ 53)).
  { split.
    - rewrite <- inject_Z_opp, <- Zle_Qle. lia.
    - rewrite <- Zle_Qle. lia. }
  assert (Hl : inject_Z (2 ^ 53) < float_limit) by reflexivity.
  set (d := inject_Z (2 ^ Z.of_nat e)) in *. set (x := inject_Z n) in *.
  set (m := inject_Z (2 ^ 53)) in *.
  assert (Hm : 0 < m) by reflexivity.
  split.
  - apply Qlt_shift_div_l; [lra|]. nra.
  - apply Qlt_shift_div_r; [lra|]. nra.
Qed.

Lemma exact_in_range_rounding : rounding exact_in_range.
Proof.
  pose proof float_limit_pos as Hpos.
  split.
  - intros x y E. unfold exact_in_range.
    rewrite (Qle_bool_ext float_limit x float_limit y) by (reflexivity || assumption).
    rewrite (Qle_bool_ext x (- float_limit) y (- float_limit)) by (reflexivity || assumption).
    rewrite (Qred_complete x y E). reflexivity.
  - intros x y L. unfold exact_in_range.
    destruct (Qle_bool float_limit x) eqn:E1.
    + apply Qle_bool_iff in E1.
      assert (E2 : Qle_bool float_limit y = true) by (apply Qle_bool_iff; lra).
      rewrite E2. reflexivity.
    + apply Qle_bool_gt in E1.
      destruct (Qle_bool x (- float_limit)) eqn:E3.
      * destruct (Qle_bool float_limit y); [reflexivity|].
        destruct (Qle_bool y (- float_limit)); reflexivity.
      * apply Qle_bool_gt in E3.
        destruct (Qle_bool float_limit y) eqn:E2; [reflexivity|].
        assert (E4 : Qle_bool y (- float_limit) = false) by (apply Qle_bool_gt; lra).
        rewrite E4. cbn [fle]. apply Qle_bool_iff. rewrite !Qred_correct. exact L.
  - intros x q. unfold exact_in_range.
    destruct (Qle_bool float_limit x) eqn:E1; [discriminate|].
    destruct (Qle_bool x (- float_limit)) eqn:E2; [discriminate|].
    intros [= <-].
    rewrite (Qle_bool_ext float_limit (Qred x) float_limit x), E1
      by (reflexivity || apply Qred_correct).
    rewrite (Qle_bool_ext (Qred x) (- float_limit) x (- float_limit)), E2
      by (reflexivity || apply Qred_correct).
    rewrite Qred_Qred. reflexivity.
  - intros x. unfold exact_in_range.
    destruct (Qle_bool float_limit x) eqn:E1.
    + apply Qle_bool_iff in E1.
      assert (E2 : Qle_bool float_limit (- x) = false) by (apply Qle_bool_gt; lra).
      assert (E3 : Qle_bool (- x) (- float_limit) = true) by (apply Qle_bool_iff; lra).
      rewrite E2, E3. reflexivity.
    + apply Qle_bool_gt in E1.
      destruct (Qle_bool x (- float_limit)) eqn:E2.
      * apply Qle_bool_iff in E2.
        assert (E3 : Qle_bool float_limit (- x) = true) by (apply Qle_bool_iff; lra).
        rewrite E3. reflexivity.
      * apply Qle_bool_gt in E2.
        assert (E3 : Qle_bool float_limit (- x) = false) by (apply Qle_bool_gt; lra).
        assert (E4 : Qle_bool (- x) (- float_limit) = false) by (apply Qle_bool_gt; lra).
        rewrite E3, E4. cbn [fneg]. rewrite Qred_opp. reflexivity.
  - intros n e Hn _. pose proof (dyadic_small n e Hn) as [L U].
    unfold exact_in_range.
    assert (E1 : Qle_bool float_limit (inject_Z n / inject_Z (2 ^ Z.of_nat e)) = false)
      by (apply Qle_bool_gt; lra).
    assert (E2 : Qle_bool (inject_Z n / inject_Z (2 ^ Z.of_nat e)) (- float_limit) = false)
      by (apply Qle_bool_gt; lra).
    rewrite E1, E2. eexists. split; [reflexivity|]. apply Qred_correct.
Qed.

(** *** Consequences of the rounding laws *)

Section Laws.
Variable rnd : Q -> pyfloat.
Hypothesis R : rounding rnd.

Lemma rnd_between (a x b qa qb : Q) :
  a <= x -> x <= b -> rnd a = FNum qa -> rnd b = FNum qb ->
  exists q, rnd x = FNum q /\ qa <= q <= qb.
Proof.
  intros Ha Hb Ea Eb.
  pose proof (rnd_mono rnd R a x Ha) as M1. pose proof (rnd_mono rnd R x b Hb) as M2.
  rewrite Ea in M1. rewrite Eb in M2.
  destruct (rnd x) as [q| | |]; try discriminate.
  cbn [fle] in M1, M2. apply Qle_bool_iff in M1, M2. eauto.
Qed.



(** An integer up to [2 ^ 53] in absolute value is a float. *)
Lemma rnd_int (n : Z) :
  (Z.abs n <= 2 ^ 53)%Z -> exists q, rnd (inject_Z n) = FNum q /\ q == inject_Z n.
Proof.
  intros Hn. destruct (rnd_dyadic rnd R n 0 Hn ltac:(lia)) as (q & E & Hq).
  assert (X : inject_Z n / inject_Z (2 ^ Z.of_nat 0) == inject_Z n).
  { change (inject_Z (2 ^ Z.of_nat 0)) with 1. field. }
  exists q. split; [|rewrite Hq; exact X].
  rewrite <- E. apply (rnd_ext rnd R). symmetry. exact X.
Qed.

Lemma rnd_0 : exists q, rnd 0 = FNum q /\ q == 0.
Proof. apply (rnd_int 0). lia. Qed.

Lemma rnd_1 : exists q, rnd 1 = FNum q /\ q == 1.
Proof. apply (rnd_int 1). lia. Qed.

Lemma rnd_32 : exists q, rnd (1 # 32) = FNum q /\ q == 1 # 32.
Proof.
  destruct (rnd_dyadic rnd R 1 5 ltac:(lia) ltac:(lia)) as (q & E & Hq).
  assert (X : inject_Z 1 / inject_Z (2 ^ Z.of_nat 5) == 1 # 32) by reflexivity.
  exists q. split; [|rewrite Hq; exact X].
  rewrite <- E. apply (rnd_ext rnd R). symmetry. exact X.
Qed.


Lemma is_zero_pos (x : Q) : 0 < x -> is_zero (FNum x) = false.
Proof.
  intros H. cbn [is_zero]. destruct (Qeq_bool x 0) eqn:E; [|reflexivity].
  apply Qeq_bool_iff in E. lra.
Qed.





(** The weights are floats between 1/32 and 1. *)
Lemma weight_float (f : Dedup.field) :
  exists w, field_weights rnd f = FNum w /\ 1 # 32 <= w <= 1 /\ rnd w = FNum w.
Proof.
  destruct rnd_32 as (q32 & E32 & Q32). destruct rnd_1 as (q1 & E1 & Q1).
  assert (B : 1 # 32 <= Dedup.field_weights f <= 1)
    by (destruct f; split; unfold Qle; cbn; lia).
  destruct (rnd_between (1 # 32) (Dedup.field_weights f) 1 _ _ (proj1 B) (proj2 B) E32 E1)
    as (w & Ew & Hw).
  exists w. split; [exact Ew|]. split; [lra|]. apply (rnd_idem rnd R _ _ Ew).
Qed.

Definition lift (fs : list (Dedup.field * Q)) : list (Dedup.field * pyfloat) :=
  List.map (fun '(f, s) => (f, FNum s)) fs.

(** One round of the loop of [_calculate_overall_similarity]. *)
Lemma weigh_step (f : Dedup.field) (s x t : Q) (k : Z) :
  0 <= s <= 1 -> 0 <= x <= t -> t <= inject_Z k -> (0 <= k < 2 ^ 53)%Z ->
  exists x' t',
    weigh rnd (FNum x, FNum t) (f, FNum s) = (FNum x', FNum t') /\
    0 <= x' <= t' /\ 1 # 32 <= t' <= inject_Z (k + 1) /\
    (x == t -> s == 1 -> x' == t') /\
    (x == 0 -> s == 0 -> x' == 0).
Proof.
  intros Hs Hx Ht Hk.
  destruct rnd_0 as (q0 & E0 & Q0).
  destruct (rnd_int (k + 1) ltac:(lia)) as (qk & Ek & Qk).
  destruct (weight_float f) as (w & Ew & Hw & Fw).
  assert (Hk1 : inject_Z (k + 1) == inject_Z k + 1) by (rewrite inject_Z_plus; reflexivity).
  destruct (rnd_between 0 (s * w) w _ _ ltac:(nra) ltac:(nra) E0 Fw) as (p & Ep & Hp).
  destruct (rnd_between w (t + w) (inject_Z (k + 1)) _ _ ltac:(lra) ltac:(lra) Fw Ek)
    as (t' & Et & Ht').
  destruct (rnd_between 0 (x + p) (t + w) _ _ ltac:(lra) ltac:(lra) E0 Et) as (x' & Ex & Hx').
  exists x', t'. unfold weigh. rewrite Ew. cbn [fmul fadd]. rewrite Ep. cbn [fadd].
  rewrite Ex, Et. split; [reflexivity|]. split; [lra|]. split; [lra|]. split.
  - intros Hxt Hs1.
    assert (X : s * w == w) by (rewrite Hs1; ring).
    rewrite (rnd_ext rnd R _ _ X), Fw in Ep. injection Ep as <-.
    assert (Y : x + w == t + w) by (rewrite Hxt; reflexivity).
    rewrite (rnd_ext rnd R _ _ Y), Et in Ex. injection Ex as <-. reflexivity.
  - intros Hx0 Hs0.
    assert (X : s * w == 0) by (rewrite Hs0; ring).
    rewrite (rnd_ext rnd R _ _ X), E0 in Ep. injection Ep as <-.
    assert (Y : x + q0 == 0) by lra.
    rewrite (rnd_ext rnd R _ _ Y), E0 in Ex. injection Ex as <-. exact Q0.
Qed.

Lemma weigh_fold (fs : list (Dedup.field * Q)) :
  forall (x t : Q) (k : Z),
    (forall f s, In (f, s) fs -> 0 <= s <= 1) ->
    0 <= x <= t -> t <= inject_Z k -> (0 <= k)%Z -> (k + Z.of_nat (length fs) <= 2 ^ 53)%Z ->
    exists x' t',
      fold_left (weigh rnd) (lift fs) (FNum x, FNum t) = (FNum x', FNum t') /\
      0 <= x' <= t' /\
      (fs <> [] -> 1 # 32 <= t') /\
      (x == t -> (forall f s, In (f, s) fs -> s == 1) -> x' == t') /\
      (x == 0 -> (forall f s, In (f, s) fs -> s == 0) -> x' == 0).
Proof.
  induction fs as [|[f s] fs IH]; intros x t k Hall Hx Ht Hk Hlen.
  - exists x, t. split; [reflexivity|]. split; [exact Hx|]. split; [congruence|].
    split; intros H _; exact H.
  - cbn [length] in Hlen.
    destruct (weigh_step f s x t k (Hall f s (or_introl eq_refl)) Hx Ht ltac:(lia))
      as (x1 & t1 & E1 & Hx1 & Ht1 & Hone & Hzero).
    destruct (IH x1 t1 (k + 1)%Z) as (x' & t' & E' & Hx' & Hpos & Hone' & Hzero').
    + intros f' s' Hin. apply (Hall f' s'). right. exact Hin.
    + exact Hx1.
    + lra.
    + lia.
    + lia.
    + exists x', t'. cbn [lift List.map fold_left]. rewrite E1. fold (lift fs).
      split; [exact E'|]. split; [exact Hx'|]. split; [|split].
      * intros _. destruct fs as [|item fs'].
        -- cbn in E'. injection E' as <- <-. lra.
        -- apply Hpos. discriminate.
      * intros Hxt Hones. apply Hone'.
        -- apply Hone; [exact Hxt|]. apply (Hones f s). left. reflexivity.
        -- intros f' s' Hin. apply (Hones f' s'). right. exact Hin.
      * intros Hx0 Hzeros. apply Hzero'.
        -- apply Hzero; [exact Hx0|]. apply (Hzeros f s). left. reflexivity.
        -- intros f' s' Hin. apply (Hzeros f' s'). right. exact Hin.
Qed.

End Laws.

(** *** Without rounding: the arithmetic of [Dedup] *)

Lemma exact_weigh_fold (fs : list (Dedup.field * Q)) (x t : Q) :
  fold_left (weigh exact) (lift fs) (FNum x, FNum t)
  = let '(x', t') :=
      fold_left (fun '(ws, tw) '(f, similarity) =>
                   let weight := Dedup.field_weights f in
                   (ws + similarity * weight, tw + weight))
                fs (x, t) in
    (FNum x', FNum t').
Proof.
  revert x t. induction fs as [|[f s] fs IH]; intros x t; [reflexivity|].
  cbn [lift List.map fold_left]. fold (lift fs).
  change (weigh exact (FNum x, FNum t) (f, FNum s))
    with (FNum (x + s * Dedup.field_weights f), FNum (t + Dedup.field_weights f)).
  apply IH.
Qed.

Lemma exact_overall_similarity (fs : list (Dedup.field * Q)) :
  _calculate_overall_similarity exact (lift fs)
  = Ok (FNum (Dedup._calculate_overall_similarity fs)).
Proof.
  destruct fs as [|item fs]; [reflexivity|].
  unfold _calculate_overall_similarity, Dedup._calculate_overall_similarity.
  change (lift (item :: fs)) with (lift [item] ++ lift fs).
  destruct (lift [item] ++ lift fs) as [|i0 l0] eqn:El; [destruct item; discriminate El|].
  rewrite <- El. change (lift [item] ++ lift fs) with (lift (item :: fs)).
  rewrite exact_weigh_fold.
  destruct (fold_left _ (item :: fs) (0, 0)) as [ws tw].
  unfold fdiv, Dedup.Qeqb. cbn [is_zero].
  destruct (Qeq_bool tw 0); reflexivity.
Qed.

Lemma exact_compare_amounts (a1 a2 : Q) :
  exists s, _compare_amounts exact (FNum a1) (FNum a2) = Ok (FNum s) /\
            s == Dedup._compare_amounts a1 a2.
Proof.
  unfold _compare_amounts, Dedup._compare_amounts, Dedup.Qeqb. cbv zeta. cbn [is_zero].
  destruct (Qeq_bool a1 0 && Qeq_bool a2 0); [exists 1; split; reflexivity|].
  destruct (Qeq_bool a1 0 || Qeq_bool a2 0); [exists 0; split; reflexivity|].
  unfold fdiv, fsub, exact. cbn [fneg fadd fabs is_zero].
  change (Qeq_bool 2 0) with false. cbv iota. cbn [bind is_zero].
  destruct (Qeq_bool ((a1 + a2) / 2) 0) eqn:Ez; [exists 1; split; reflexivity|].
  cbn [bind fneg fadd].
  set (z := 1 + - (Qabs (a1 + - a2) / ((a1 + a2) / 2))).
  change (1 - Qabs (a1 - a2) / ((a1 + a2) / 2)) with z.
  unfold py_max, fgt, Dedup.Qmax. cbn [flt].
  destruct (Qle_bool z 0) eqn:E1; cbn [negb].
  - exists 0. split; [reflexivity|]. apply Qle_bool_iff in E1.
    destruct (Qle_bool 0 z) eqn:E2; [|reflexivity]. apply Qle_bool_iff in E2. lra.
  - exists z. split; [reflexivity|]. apply Qle_bool_gt in E1.
    assert (E2 : Qle_bool 0 z = true) by (apply Qle_bool_iff; lra).
    rewrite E2. reflexivity.
Qed.



(** Where the sum of the amounts overflows, the mean is infinite, the
    relative difference 0 and the similarity 1, however far apart the
    amounts are. *)
Example overflowing_sum_gives_one :
  _compare_amounts exact_in_range (FNum (inject_Z (15 * 10 ^ 307)))
                                  (FNum (inject_Z (4 * 10 ^ 307)))
  = Ok (FNum 1).
Proof. vm_compute. reflexivity. Qed.

(** X7.  On floats, with every operation rounded: the overall similarity of
    at most seven field similarities between 0 and 1 is a float between 0
    and 1; it is exactly 1 when every field similarity is 1 and exactly 0
    when every one is 0. *)
Theorem overall_similarity_rounded (rnd : Q -> pyfloat) (fs : list (Dedup.field * Q)) :
  rounding rnd -> fs <> [] -> (length fs <= 7)%nat ->
  (forall f s, In (f, s) fs -> 0 <= s <= 1) ->
  exists r,
    _calculate_overall_similarity rnd (lift fs) = Ok (FNum r) /\
    0 <= r <= 1 /\
    ((forall f s, In (f, s) fs -> s == 1) -> r == 1) /\
    ((forall f s, In (f, s) fs -> s == 0) -> r == 0).
Proof.
  intros R Hne Hlen Hall.
  destruct (rnd_0 rnd R) as (q0 & E0 & Q0). destruct (rnd_1 rnd R) as (q1 & E1 & Q1).
  destruct (weigh_fold rnd R fs 0 0 0 Hall ltac:(lra) ltac:(reflexivity || (unfold Qle; cbn; lia))
              ltac:(lia) ltac:(lia))
    as (x & t & E & Hx & Hpos & Hone & Hzero).
  specialize (Hpos Hne).
  unfold _calculate_overall_similarity.
  destruct fs as [|item fs']; [congruence|].
  change (lift (item :: fs')) with (lift [item] ++ lift fs') in *.
  destruct (lift [item] ++ lift fs') as [|i0 l0] eqn:El; [destruct item; discriminate El|].
  rewrite E.
  rewrite (is_zero_pos t ltac:(lra)). unfold fdiv. rewrite (is_zero_pos t ltac:(lra)).
  assert (Hq : 0 <= x / t <= 1).
  { split; [apply Qle_shift_div_l; lra|apply Qle_shift_div_r; lra]. }
  destruct (rnd_between rnd R 0 (x / t) 1 _ _ (proj1 Hq) (proj2 Hq) E0 E1) as (r & Er & Hr).
  exists r. rewrite Er. split; [reflexivity|]. split; [lra|]. split.
  - intros Hones.
    assert (X : x / t == 1) by (rewrite (Hone ltac:(reflexivity) Hones); field; lra).
    rewrite (rnd_ext rnd R _ _ X), E1 in Er. injection Er as <-. exact Q1.
  - intros Hzeros.
    assert (X : x / t == 0) by (rewrite (Hzero ltac:(reflexivity) Hzeros); field; lra).
    rewrite (rnd_ext rnd R _ _ X), E0 in Er. injection Er as <-. exact Q0.
Qed.

Lemma overall_similarity_rounded_witness :
  exists r,
    _calculate_overall_similarity exact_in_range
      (lift [(Dedup.f_url, 1); (Dedup.f_title, 1 # 2); (Dedup.f_amount, 0)]) = Ok (FNum r) /\
    0 <= r <= 1 /\
    ((forall f s, In (f, s) [(Dedup.f_url, 1); (Dedup.f_title, 1 # 2); (Dedup.f_amount, 0)] ->
                  s == 1) -> r == 1) /\
    ((forall f s, In (f, s) [(Dedup.f_url, 1); (Dedup.f_title, 1 # 2); (Dedup.f_amount, 0)] ->
                  s == 0) -> r == 0).
Proof.
  apply (overall_similarity_rounded exact_in_range
           [(Dedup.f_url, 1); (Dedup.f_title, 1 # 2); (Dedup.f_amount, 0)]
           exact_in_range_rounding).
  - discriminate.
  - cbn. lia.
  - intros f s [[= <- <-]|[[= <- <-]|[[= <- <-]|[]]]]; split; discriminate.
Defined.

End DedupFloatProps.

Module LinkValidationProps.
Import Py PyTime LinkValidation LinkValidationSpec.

Local Open Scope Q_scope.

Lemma clamp_range (x : Q) : 0 <= Qmin 100 (Qmax 0 x) <= 100.
Proof.
  unfold Qmin, Qmax.
  destruct (Qle_bool 0 x) eqn:E0.
  - apply Qle_bool_iff in E0.
    destruct (Qle_bool 100 x) eqn:E1; [split; discriminate|].
    split; [assumption|]. apply Qlt_le_weak, Qnot_le_lt. intros H.
    apply Qle_bool_iff in H. congruence.
  - destruct (Qle_bool 100 0) eqn:E1; [discriminate E1|split; discriminate].
Qed.

Lemma quality_score_range original final content ctype (status : Z) (t : Q) :
  0 <= _calculate_quality_score original final content ctype status t <= 100.
Proof.
  unfold _calculate_quality_score. rewrite Qred_correct. apply clamp_range.
Qed.

(** What [fetch_and_score] returns, when it returns. *)
Lemma fetch_and_score_result (url : pystr) (issues0 : list issue) (w : fetch)
    (result : ValidationResult) :
  fetch_and_score url issues0 w = Ok result ->
  exists r content n,
    got w = Ok r /\ r_text r = Ok content /\
    result = mkValidation url
               (_determine_status (r_status r) (elapsed w) (r_url r) content)
               (r_status r) (elapsed w) (r_url r) (r_content_type r) n
               (_calculate_quality_score url (r_url r) content (r_content_type r)
                                         (r_status r) (elapsed w))
               (issues0 ++
                (if (r_status r >=? 400)%Z then [HttpError (r_status r)] else []) ++
                (if negb (Qle_bool (elapsed w) 10) then [SlowResponseTime] else []) ++
                (if negb (str_eqb (r_url r) url) then [UrlRedirected] else []) ++
                _check_content_quality content).
Proof.
  unfold fetch_and_score. destruct (got w) as [r|e]; [|discriminate]. cbn [bind].
  destruct (match r_content_length r with Some h => int_of_str h | None => Ok 0%Z end)
    as [n|e]; [|discriminate]. cbn [bind].
  destruct (r_text r) as [content|e] eqn:Et; [|discriminate]. cbn [bind].
  intros [= <-]. exists r, content, n. repeat split; try reflexivity; assumption.
Qed.

(** The two shapes of a result: computed from a response, or one of the
    fixed results for an unusable URL or a failed fetch. *)
Lemma validate_url_result (url : pystr) (w : fetch) (result : ValidationResult) :
  validate_url url w = Ok result ->
  (exists patterns, fetch_and_score url (List.map SuspiciousPattern patterns) w = Ok result) \/
  (exists st t i, result = failed url st t i /\ st <> VALID /\ st <> BLOCKED).
Proof.
  unfold validate_url.
  destruct (Urllib.scheme (Urllib.urlparse url)) as [|c s].
  { intros [= <-]. right. do 3 eexists. repeat split; discriminate. }
  destruct (Urllib.netloc (Urllib.urlparse url)) as [|c' n].
  { intros [= <-]. right. do 3 eexists. repeat split; discriminate. }
  match goal with
  | |- context [fetch_and_score url (List.map SuspiciousPattern ?ps) w] => set (patterns := ps)
  end.
  destruct (fetch_and_score url (List.map SuspiciousPattern patterns) w) as [res_|e] eqn:E.
  - intros [= <-]. left. eauto.
  - destruct e; intros [= <-]; right; do 3 eexists; repeat split; discriminate.
Qed.

(** X11.  Every result of [validate_url] carries the URL it was asked about
    and a quality score between 0 and 100; a result with status [broken] or
    [invalid] has quality score 0, and the status [blocked] is never
    produced. *)
Theorem validation_result_score (url : pystr) (w : fetch) (result : ValidationResult) :
  validate_url url w = Ok result ->
  vr_url result = url /\
  0 <= quality_score result <= 100 /\
  (vr_status result = BROKEN \/ vr_status result = INVALID -> quality_score result = 0) /\
  vr_status result <> BLOCKED.
Proof.
  intros H. apply validate_url_result in H as [[issues0 H]|(st & t & i & -> & Hv & Hb)].
  - apply fetch_and_score_result in H as (r & content & n & Hg & Ht & ->).
    cbn [vr_url quality_score vr_status]. split; [reflexivity|].
    split; [apply quality_score_range|]. unfold _determine_status.
    destruct (r_status r >=? 400)%Z eqn:E.
    + split; [|discriminate]. intros _. apply quality_zero_on_http_error.
      apply Z.geb_le in E. lia.
    + destruct (negb (Qle_bool (elapsed w) 10)); [split; [intros [?|?]|]; discriminate|].
      destruct (_is_suspicious_content content); [split; [intros [?|?]|]; discriminate|].
      destruct (existsb _ _); split; try discriminate; intros [?|?]; discriminate.
  - cbn [failed vr_url quality_score vr_status]. split; [reflexivity|].
    split; [split; discriminate|]. split; [reflexivity|assumption].
Qed.

Definition scheme_page : response :=
  Response 200 (u "text/html") None (u "https://scholarships.gov.in/scheme")
           (Ok (u "Eligibility and deadline of the scholarship.")).

Definition scheme_result : ValidationResult :=
  mkValidation (u "https://scholarships.gov.in/scheme") SUSPICIOUS 200 (1 # 2)
    (u "https://scholarships.gov.in/scheme") (u "text/html") 0 (649 # 10) [VeryShortContent].

Lemma validation_result_score_witness :
  vr_url scheme_result = u "https://scholarships.gov.in/scheme" /\
  0 <= quality_score scheme_result <= 100 /\
  (vr_status scheme_result = BROKEN \/ vr_status scheme_result = INVALID ->
   quality_score scheme_result = 0) /\
  vr_status scheme_result <> BLOCKED.
Proof.
  apply (validation_result_score (u "https://scholarships.gov.in/scheme")
           (Fetch (1 # 2) (Ok scheme_page)) scheme_result).
  vm_compute. reflexivity.
Defined.

Lemma suspicious_content_short (content : pystr) :
  _is_suspicious_content content = false -> (200 <= len content)%Z.
Proof.
  unfold _is_suspicious_content. destruct content as [|c t]; [discriminate|].
  destruct (_ >? 3)%Z; [discriminate|].
  destruct (Z.ltb_spec (len (c :: t)) 200); [discriminate|]. intros _. assumption.
Qed.

Lemma content_issues_of_long_content (content : pystr) (i : issue) :
  (100 <= len content)%Z -> In i (_check_content_quality content) ->
  i <> EmptyContent /\ i <> VeryShortContent.
Proof.
  intros Hlen. unfold _check_content_quality.
  destruct content as [|c t]; [unfold len in Hlen; simpl in Hlen; lia|].
  destruct (Z.ltb_spec (len (c :: t)) 100); [lia|]. cbn [app].
  rewrite !in_app_iff, in_map_iff. intros [(p & <- & _)|[Hin|Hin]].
  - split; discriminate.
  - destruct (negb _); [destruct Hin as [<-|[]]; split; discriminate|destruct Hin].
  - destruct (_ && _); [destruct Hin as [<-|[]]; split; discriminate|destruct Hin].
Qed.

Lemma content_issue_kinds (content : pystr) (i : issue) :
  In i (_check_content_quality content) ->
  match i with
  | EmptyContent | VeryShortContent | SuspiciousContent _
  | MissingEligibilityCriteria | MissingDeadlineInformation => True
  | _ => False
  end.
Proof.
  unfold _check_content_quality. destruct content as [|c t].
  { intros [<-|[]]. exact I. }
  rewrite !in_app_iff, in_map_iff. intros [Hin|[(p & <- & _)|[Hin|Hin]]].
  - destruct (_ <? _)%Z; [destruct Hin as [<-|[]]; exact I|destruct Hin].
  - exact I.
  - destruct (negb _); [destruct Hin as [<-|[]]; exact I|destruct Hin].
  - destruct (_ && _); [destruct Hin as [<-|[]]; exact I|destruct Hin].
Qed.

(** X12.  A result with status [valid] is consistent with its other fields:
    the response code is below 400 and no redirect code, the response took at
    most 10 seconds, and the issues list neither an HTTP error nor a slow
    response nor empty or very short content. *)
Theorem valid_result_is_consistent (url : pystr) (w : fetch) (result : ValidationResult) :
  validate_url url w = Ok result ->
  vr_status result = VALID ->
  (response_code result < 400)%Z /\
  ~ In (response_code result) [301; 302; 303; 307; 308]%Z /\
  response_time result <= 10 /\
  (forall i, In i (issues result) ->
     (forall code, i <> HttpError code) /\ i <> SlowResponseTime /\
     i <> EmptyContent /\ i <> VeryShortContent).
Proof.
  intros H Hv. apply validate_url_result in H as [[patterns H]|(st & t & i & -> & Hn & _)];
    [|cbn [failed vr_status] in Hv; congruence].
  apply fetch_and_score_result in H as (r & content & n & Hg & Ht & ->).
  cbn [vr_status response_code response_time issues] in *.
  unfold _determine_status in Hv.
  destruct (r_status r >=? 400)%Z eqn:E; [discriminate|].
  destruct (Qle_bool (elapsed w) 10) eqn:Et; cbn [negb] in Hv; [|discriminate].
  destruct (_is_suspicious_content content) eqn:Es; [discriminate|].
  destruct (existsb (Z.eqb (r_status r)) [301; 302; 303; 307; 308]%Z) eqn:Er; [discriminate|].
  assert (Hlt : (r_status r < 400)%Z).
  { destruct (Z.geb_spec (r_status r) 400); [discriminate|lia]. }
  split; [assumption|]. split.
  { intros Hin. apply not_true_iff_false in Er. apply Er. apply existsb_exists.
    exists (r_status r). split; [assumption|apply Z.eqb_refl]. }
  split; [apply Qle_bool_iff, Et|].
  cbn [negb app]. intros i Hi.
  rewrite in_app_iff, in_map_iff in Hi. destruct Hi as [(p & <- & _)|Hi].
  { repeat split; try discriminate; intros code; discriminate. }
  destruct (negb (str_eqb (r_url r) url)); cbn [app] in Hi.
  - destruct Hi as [<-|Hi]; [repeat split; try discriminate; intros code; discriminate|].
    pose proof (suspicious_content_short content Es) as Hlen.
    destruct (content_issues_of_long_content content i ltac:(lia) Hi) as [H1 H2].
    repeat split; try assumption.
    + intros code ->. revert Hi. apply content_issue_kinds.
    + intros ->. revert Hi. apply content_issue_kinds.
  - pose proof (suspicious_content_short content Es) as Hlen.
    destruct (content_issues_of_long_content content i ltac:(lia) Hi) as [H1 H2].
    repeat split; try assumption.
    + intros code ->. revert Hi. apply content_issue_kinds.
    + intros ->. revert Hi. apply content_issue_kinds.
Qed.


(** A page of a trusted domain that passes every check. *)
Definition valid_page : response :=
  Response 200 (u "text/html") (Some (u "231")) (u "https://scholarships.gov.in/scheme")
    (Ok (u "National Merit Scholarship. Eligibility: students of class 12 with at least 80 percent marks. Deadline: 31 December. How to apply: submit the application form with the required documents on the national scholarship portal.")).

Definition valid_page_result : ValidationResult :=
  match validate_url (u "https://scholarships.gov.in/scheme") (Fetch (1 # 2) (Ok valid_page)) with
  | Ok result => result
  | Raise _ => failed [] INVALID 0 ValidationError
  end.

Lemma valid_result_is_consistent_witness :
  (response_code valid_page_result < 400)%Z /\
  ~ In (response_code valid_page_result) [301; 302; 303; 307; 308]%Z /\
  response_time valid_page_result <= 10 /\
  (forall i, In i (issues valid_page_result) ->
     (forall code, i <> HttpError code) /\ i <> SlowResponseTime /\
     i <> EmptyContent /\ i <> VeryShortContent).
Proof.
  apply (valid_result_is_consistent (u "https://scholarships.gov.in/scheme")
           (Fetch (1 # 2) (Ok valid_page)) valid_page_result).
  - vm_compute. reflexivity.
  - vm_compute. reflexivity.
Defined.

Local Close Scope Q_scope.

(** *** Batches *)

Lemma validate_url_returns (url : pystr) (w : fetch) :
  exists result, validate_url url w = Ok result.
Proof.
  unfold validate_url.
  destruct (Urllib.scheme (Urllib.urlparse url)); [eauto|].
  destruct (Urllib.netloc (Urllib.urlparse url)); [eauto|].
  destruct (fetch_and_score _ _ w) as [res_|[]]; eauto.
Qed.

Lemma gather_app (a b : list (pystr * fetch)) : gather (a ++ b) = gather a ++ gather b.
Proof. unfold gather. apply flat_map_app. Qed.

Lemma batches_gather (rounds batch_size : nat) (l : list (pystr * fetch)) :
  (0 < batch_size)%nat -> (length l <= rounds)%nat ->
  flat_map gather (batches rounds batch_size l) = gather l.
Proof.
  intros Hb. revert l. induction rounds as [|rounds IH]; intros l Hlen.
  - destruct l; [reflexivity|simpl in Hlen; lia].
  - destruct l as [|x l]; [reflexivity|].
    cbn [batches flat_map].
    rewrite IH.
    + rewrite <- gather_app, firstn_skipn. reflexivity.
    + rewrite length_skipn. simpl in *. lia.
Qed.

Lemma gather_all (l : list (pystr * fetch)) :
  Forall2 (fun x result => validate_url x.1 x.2 = Ok result) l (gather l).
Proof.
  induction l as [|[url w] l IH]; [constructor|].
  unfold gather. cbn [flat_map]. fold (gather l).
  destruct (validate_url_returns url w) as [result E]. rewrite E.
  constructor; [exact E|exact IH].
Qed.

(** X13.  With a positive batch size, [validate_urls_batch] returns exactly
    one result for each URL, in the order of the input, each the result of
    [validate_url] for that URL: the split into batches is invisible and no
    URL is dropped. *)
Theorem validate_urls_batch_all (urls : list (pystr * fetch)) (batch_size : Z) :
  0 < batch_size ->
  exists results,
    validate_urls_batch urls batch_size = Ok results /\
    Forall2 (fun x result => validate_url x.1 x.2 = Ok result) urls results.
Proof.
  intros Hb. unfold validate_urls_batch.
  destruct (Z.eqb_spec batch_size 0); [lia|].
  destruct (Z.ltb_spec batch_size 0); [lia|].
  eexists. split; [reflexivity|].
  rewrite batches_gather by lia. apply gather_all.
Qed.

Definition three_urls : list (pystr * fetch) :=
  [ (u "https://scholarships.gov.in/scheme", Fetch (1 # 2) (Ok valid_page));
    (u "https://scholarships.gov.in/old-scheme", Fetch (3 # 10) (Ok not_found));
    (u "not a url", Fetch 0 (Raise ClientError)) ].

Lemma validate_urls_batch_all_witness :
  exists results,
    validate_urls_batch three_urls 2 = Ok results /\
    Forall2 (fun x result => validate_url x.1 x.2 = Ok result) three_urls results.
Proof. apply (validate_urls_batch_all three_urls 2). lia. Defined.

(** *** Summary *)

Fixpoint status_count_of (status_counts : list (LinkStatus * Z)) (status : LinkStatus)
  : option Z :=
  match status_counts with
  | [] => None
  | (k, n) :: t => if status_eqb k status then Some n else status_count_of t status
  end.

Definition occurrences (status : LinkStatus) (results : list ValidationResult) : Z :=
  Z.of_nat (length (List.filter (fun result => status_eqb (vr_status result) status) results)).

Lemma status_eqb_eq (a b : LinkStatus) : status_eqb a b = true <-> a = b.
Proof. destruct a, b; simpl; split; congruence. Qed.

Lemma count_status_lookup (d : list (LinkStatus * Z)) (k s : LinkStatus) :
  status_count_of (count_status d k) s =
    if status_eqb k s then Some (default 0 (status_count_of d s) + 1)
    else status_count_of d s.
Proof.
  induction d as [|[k' n] d IH]; cbn [count_status status_count_of].
  - destruct (status_eqb k s); reflexivity.
  - destruct (status_eqb k' k) eqn:E1.
    + apply status_eqb_eq in E1. subst k'. cbn [status_count_of].
      destruct (status_eqb k s); reflexivity.
    + cbn [status_count_of]. destruct (status_eqb k' s) eqn:E2.
      * apply status_eqb_eq in E2. subst k'.
        destruct (status_eqb k s) eqn:E3; [|reflexivity].
        apply status_eqb_eq in E3. subst k.
        assert (status_eqb s s = true) by (apply status_eqb_eq; reflexivity). congruence.
      * apply IH.
Qed.

Lemma counting_loop (results : list ValidationResult) (d : list (LinkStatus * Z))
    (s : LinkStatus) :
  (forall n, status_count_of d s = Some n -> 0 < n) ->
  let total := default 0 (status_count_of d s) + occurrences s results in
  status_count_of
    (fold_left (fun status_counts result => count_status status_counts (vr_status result))
               results d) s
  = if total =? 0 then None else Some total.
Proof.
  revert d. induction results as [|r results IH]; intros d Hpos; cbn [fold_left].
  - unfold occurrences. cbn [List.filter length Z.of_nat]. rewrite Z.add_0_r.
    destruct (status_count_of d s) as [n|] eqn:E; cbn [default from_option id]; [|reflexivity].
    specialize (Hpos n eq_refl). destruct (Z.eqb_spec n 0); [lia|reflexivity].
  - cbn zeta in *. rewrite IH.
    + rewrite count_status_lookup. unfold occurrences. cbn [List.filter].
      destruct (status_eqb (vr_status r) s); cbn [default from_option id length].
      * replace (default 0 (status_count_of d s) + 1 +
                 Z.of_nat (length (List.filter
                   (fun result => status_eqb (vr_status result) s) results)))
          with (default 0 (status_count_of d s) +
                Z.of_nat (S (length (List.filter
                   (fun result => status_eqb (vr_status result) s) results)))) by lia.
        reflexivity.
      * reflexivity.
    + intros n. rewrite count_status_lookup.
      destruct (status_eqb (vr_status r) s); [|apply Hpos].
      intros [= <-]. destruct (status_count_of d s) as [m|] eqn:E; cbn [default from_option id]; [|lia].
      specialize (Hpos m eq_refl). lia.
Qed.

(** X14.  The summary of a non-empty list of results counts every result:
    the entry of a status in [status_distribution] is the number of results
    with that status, a status that does not occur has no entry, and
    [total_urls] is the number of results. *)
Theorem validation_summary_counts (results : list ValidationResult) :
  results <> [] ->
  exists sm,
    get_validation_summary results = Some sm /\
    total_urls sm = Z.of_nat (length results) /\
    (forall status,
       status_count_of (status_distribution sm) status =
         if occurrences status results =? 0 then None
         else Some (occurrences status results)).
Proof.
  intros Hne. unfold get_validation_summary.
  destruct results as [|r0 rs] eqn:E; [congruence|]. rewrite <- E. clear E Hne r0 rs.
  eexists. split; [reflexivity|]. cbn [total_urls status_distribution].
  split; [reflexivity|]. intros status.
  pose proof (counting_loop results [] status) as H. cbn zeta in H.
  cbn [status_count_of default from_option id] in H. rewrite Z.add_0_l in H. apply H.
  intros n; discriminate.
Qed.

Lemma validation_summary_counts_witness :
  exists sm,
    get_validation_summary [valid_page_result; scheme_result; valid_page_result] = Some sm /\
    total_urls sm = Z.of_nat (length [valid_page_result; scheme_result; valid_page_result]) /\
    (forall status,
       status_count_of (status_distribution sm) status =
         if occurrences status [valid_page_result; scheme_result; valid_page_result] =? 0
         then None
         else Some (occurrences status [valid_page_result; scheme_result; valid_page_result])).
Proof.
  apply (validation_summary_counts [valid_page_result; scheme_result; valid_page_result]).
  discriminate.
Defined.

End LinkValidationProps.

Module PyProps.
Import Py.

Lemma startswith_app (s p q : pystr) : startswith s (p ++ q) = true -> startswith s p = true.
Proof.
  revert s. induction p as [|x p IH]; intros s; [destruct s; reflexivity|].
  destruct s as [|y s]; simpl; [discriminate|].
  rewrite !andb_true_iff. intros [H1 H2]. split; [assumption|apply IH, H2].
Qed.

Lemma contains_head (s : pystr) (x : Z) (q : pystr) :
  contains s (x :: q) = true -> contains s q = true.
Proof.
  induction s as [|c t IH].
  - simpl. discriminate.
  - cbn [contains]. rewrite !orb_true_iff. intros [H|H].
    + right. cbn [startswith] in H. apply andb_true_iff in H as [_ H].
      destruct t; cbn [contains]; rewrite H; reflexivity.
    + right. apply IH, H.
Qed.

(** A text that contains [a ++ p ++ b] contains [p]. *)
Lemma contains_infix (s a p b : pystr) :
  contains s (a ++ p ++ b) = true -> contains s p = true.
Proof.
  induction a as [|x a IH]; cbn [app].
  - induction s as [|c t IHs]; cbn [contains]; rewrite !orb_true_iff.
    + intros [H|H]; [|discriminate]. left. eapply startswith_app, H.
    + intros [H|H]; [left; eapply startswith_app, H|right; apply IHs, H].
  - intros H. apply IH. eapply contains_head, H.
Qed.

Lemma contains_app_l (a b p : pystr) : contains a p = true -> contains (a ++ b) p = true.
Proof.
  assert (Hs : forall a p, startswith a p = true -> startswith (a ++ b) p = true).
  { clear. intros a p. revert a. induction p as [|x p IH]; intros a;
      [destruct a, b; reflexivity|].
    destruct a as [|y a]; simpl; [discriminate|].
    rewrite !andb_true_iff. intros [H1 H2]. split; [assumption|apply IH, H2]. }
  induction a as [|c t IH].
  - cbn [contains]. rewrite orb_false_r. intros H.
    destruct p; [|discriminate]. destruct b; reflexivity.
  - cbn [app contains]. rewrite !orb_true_iff. intros [H|H].
    + left. apply (Hs (c :: t)), H.
    + right. apply IH, H.
Qed.

Lemma contains_app_r (a b p : pystr) : contains b p = true -> contains (a ++ b) p = true.
Proof.
  intros H. induction a as [|c t IH]; [assumption|].
  cbn [app contains]. rewrite IH. apply orb_true_r.
Qed.

Lemma lower_app (a b : pystr) : lower (a ++ b) = lower a ++ lower b.
Proof. apply List.map_app. Qed.

End PyProps.

Module ScrapingProps.
Import Py PyTime PyFloat Scraping PyProps.

(** The entry a keyword table answers with is the first one with a keyword
    in the text. *)
Lemma first_key_before (text : pystr) (pre : list (string * list string))
    (entry : string * list string) (post : list (string * list string)) (default : string) :
  existsb (fun k => contains text (u k)) entry.2 = true ->
  In (first_key text (pre ++ entry :: post) default) (List.map (fun e => u e.1) (pre ++ [entry])).
Proof.
  intros He. unfold first_key. induction pre as [|[k ks] pre IH]; cbn [app List.find List.map].
  - destruct entry as [k ks]. simpl in He. rewrite He. left; reflexivity.
  - destruct (existsb (fun k0 => contains text (u k0)) ks); [left; reflexivity|].
    right. exact IH.
Qed.

Definition mentions_scholarship (title description : pystr) : Prop :=
  contains (lower title) (u "scholarship") = true \/
  contains (lower description) (u "scholarship") = true.

Lemma mentions_scholarship_text (title description rest_ : pystr) :
  mentions_scholarship title description ->
  contains (lower (title ++ u " " ++ description ++ rest_)) (u "scholarship") = true.
Proof.
  intros [H|H]; rewrite !lower_app.
  - apply contains_app_l, H.
  - apply contains_app_r, contains_app_r, contains_app_l, H.
Qed.

(** X15.  The keyword "sc" of the category [sc] occurs inside the word
    "scholarship": a record whose title or description mentions
    "scholarship" (in any case) is filed under one of the first six
    categories, never under [st], [obc], [sports], ..., [international] or
    [general]. *)
Theorem scholarship_is_never_general (title description : pystr) :
  mentions_scholarship title description ->
  In (_extract_category title description)
     [u "merit"; u "need-based"; u "minority"; u "women"; u "disabled"; u "sc"].
Proof.
  intros H. unfold _extract_category.
  pose proof (mentions_scholarship_text title description [] H) as Hc.
  rewrite app_nil_r in Hc.
  apply (contains_infix _ [] (u "sc") (u "holarship")) in Hc.
  apply (first_key_before _ (firstn 5 category_keywords) ("sc", ["sc"; "scheduled caste"; "dalit"])%string
           (skipn 6 category_keywords) "general").
  cbn [snd existsb]. rewrite Hc. reflexivity.
Qed.

Lemma scholarship_is_never_general_witness :
  In (_extract_category (u "Sports Scholarship for Athletes")
                        (u "Support for national level players."))
     [u "merit"; u "need-based"; u "minority"; u "women"; u "disabled"; u "sc"].
Proof.
  apply (scholarship_is_never_general (u "Sports Scholarship for Athletes")
           (u "Support for national level players.")).
  left. vm_compute. reflexivity.
Defined.

(** X16.  The abbreviation "ch" of Chhattisgarh occurs inside the word
    "scholarship": a record whose title or description mentions
    "scholarship" is always assigned to a state, never to "All India". *)
Theorem scholarship_is_never_all_india (title description : pystr) (eligibility : list pystr) :
  mentions_scholarship title description ->
  _extract_state title description eligibility <> u "All India" /\
  exists state, _extract_state title description eligibility = u state /\
                (In state INDIAN_STATES \/ In state (List.map snd state_abbr)).
Proof.
  intros H. unfold _extract_state, info_text.
  pose proof (mentions_scholarship_text title description (u " " ++ join (u " ") eligibility) H)
    as Hc.
  set (text := lower (title ++ u " " ++ description ++ u " " ++ join (u " ") eligibility)) in *.
  apply (contains_infix _ (u "s") (u "ch") (u "olarship")) in Hc.
  assert (Hstates : forall st, In st INDIAN_STATES \/ In st (List.map snd state_abbr) ->
                               u st <> u "All India").
  { intros st Hin.
    assert (Hall : Forall (fun st => u st <> u "All India") (INDIAN_STATES ++ List.map snd state_abbr)).
    { repeat constructor; vm_compute; discriminate. }
    rewrite List.Forall_forall in Hall. apply Hall. apply in_or_app. exact Hin. }
  assert (Hex : exists state,
            match List.find (fun state => contains text (lower (u state))) INDIAN_STATES with
            | Some state => u state
            | None =>
                match List.find (fun '(abbr, _) => contains text (u abbr)) state_abbr with
                | Some (_, full_name) => u full_name
                | None => u "All India"
                end
            end = u state /\
            (In state INDIAN_STATES \/ In state (List.map snd state_abbr))).
  { destruct (List.find _ INDIAN_STATES) as [state|] eqn:E1.
    - exists state. split; [reflexivity|]. left. eapply find_some, E1.
    - destruct (List.find _ state_abbr) as [[abbr full_name]|] eqn:E2.
      + exists full_name. split; [reflexivity|]. right.
        apply find_some in E2 as [Hin _].
        apply in_map_iff. exists (abbr, full_name). split; [reflexivity|assumption].
      + exfalso.
        pose proof (find_none _ _ E2 ("ch", "Chhattisgarh")%string) as Hn.
        cbn beta iota in Hn. rewrite Hc in Hn.
        assert (Hin : In ("ch", "Chhattisgarh")%string state_abbr)
          by (unfold state_abbr; simpl; tauto).
        specialize (Hn Hin). discriminate. }
  destruct Hex as (state & -> & Hin). split; [apply Hstates, Hin|].
  exists state. split; [reflexivity|assumption].
Qed.


Lemma scholarship_is_never_all_india_witness :
  _extract_state (u "Merit Scholarship 2025") (u "Open to students of every region.") []
    <> u "All India" /\
  exists state,
    _extract_state (u "Merit Scholarship 2025") (u "Open to students of every region.") []
      = u state /\
    (In state INDIAN_STATES \/ In state (List.map snd state_abbr)).
Proof.
  apply (scholarship_is_never_all_india (u "Merit Scholarship 2025")
           (u "Open to students of every region.") []).
  left. vm_compute. reflexivity.
Defined.

(** *** Pagination *)

Lemma paginate_calls (n : nat) (selector : option pystr) (cur : page) (next : list page)
    (st : run) :
  (extraction_calls (paginate n selector cur next st) <= extraction_calls st + n)%nat /\
  (extraction_calls (paginate n selector cur next st)
     <= extraction_calls st + length next)%nat /\
  exists more, scholarships (paginate n selector cur next st) = scholarships st ++ more.
Proof.
  revert cur next st. induction n as [|n IH]; intros cur next st; cbn [paginate].
  - split; [lia|]. split; [lia|]. exists []. rewrite app_nil_r. reflexivity.
  - assert (Hst : (extraction_calls st <= extraction_calls st + S n)%nat /\
                  (extraction_calls st <= extraction_calls st + length next)%nat /\
                  exists more, scholarships st = scholarships st ++ more).
    { split; [lia|]. split; [lia|]. exists []. rewrite app_nil_r. reflexivity. }
    destruct selector as [[|c sel]|]; try exact Hst.
    destruct next as [|nxt next']; [exact Hst|].
    destruct (negb (next_button cur)); [exact Hst|].
    destruct (negb (click_ok cur)); [exact Hst|].
    destruct (extraction nxt) as [found|e].
    + destruct (IH nxt next' (Run (S (extraction_calls st)) (scholarships st ++ found)))
        as (H1 & H2 & more & Hm).
      cbn [extraction_calls scholarships] in *. split; [lia|]. split; [simpl; lia|].
      exists (found ++ more). rewrite Hm, app_assoc. reflexivity.
    + cbn [extraction_calls scholarships]. split; [lia|]. split; [simpl; lia|].
      exists []. rewrite app_nil_r. reflexivity.
Qed.

(** X17.  A scrape never extracts more pages than [max_pages] allows (but
    always the first page, once it is reached, also for [max_pages <= 0]),
    nor more pages than the site has. *)
Theorem extraction_calls_bounded (cfg : source_config) (max_pages : Z) (w : site) :
  (extraction_calls (scrape_scholarships cfg max_pages w).1 <= Z.to_nat (Z.max 1 max_pages))%nat /\
  (extraction_calls (scrape_scholarships cfg max_pages w).1 <= 1 + length (more_pages w))%nat.
Proof.
  unfold scrape_scholarships.
  destruct (negb (goto_ok w)); [cbn [fst extraction_calls]; lia|].
  destruct (extraction (first_page w)) as [found|e]; [|cbn [fst extraction_calls]; lia].
  cbn [fst].
  destruct (pagination_cfg cfg) as [pg|]; [|cbn [extraction_calls]; lia].
  destruct (default false (enabled pg)); [|cbn [extraction_calls]; lia].
  match goal with
  | |- context [paginate ?n ?sel ?cur ?next ?st] =>
      destruct (paginate_calls n sel cur next st) as (H1 & H2 & _)
  end.
  cbn [extraction_calls] in *. split; lia.
Qed.

(** X18.  Once the first page has been extracted, the scrape returns a
    list that starts with the records of the first page: a failure on a
    later page ends the pagination but loses nothing; only a failure of the
    navigation or of the first extraction makes the scrape raise. *)
Theorem first_page_results_are_kept (cfg : source_config) (max_pages : Z) (w : site)
    (found : list ScrapedScholarship) :
  goto_ok w = true ->
  extraction (first_page w) = Ok found ->
  exists more, (scrape_scholarships cfg max_pages w).2 = Ok (found ++ more).
Proof.
  intros Hg He. unfold scrape_scholarships. rewrite Hg, He. cbn [negb snd].
  destruct (pagination_cfg cfg) as [pg|];
    [|exists []; cbn [scholarships]; rewrite app_nil_r; reflexivity].
  destruct (default false (enabled pg));
    [|exists []; cbn [scholarships]; rewrite app_nil_r; reflexivity].
  match goal with
  | |- context [paginate ?n ?sel ?cur ?next ?st] =>
      destruct (paginate_calls n sel cur next st) as (_ & _ & more & Hm)
  end.
  exists more. rewrite Hm. reflexivity.
Qed.

Definition sample_record : ScrapedScholarship :=
  mkScraped (u "National Merit Scholarship") (u "Financial support for meritorious students.")
            None None [] [] (u "scholarships.gov.in") (u "merit") (u "all-levels")
            (u "All India").

(** A site whose second page cannot be extracted. *)
Definition failing_site : site :=
  Site true (Page (Ok [sample_record]) true true) [Page (Raise OtherException) true true].

Definition paging_config : source_config :=
  SourceConfig None (Some (Pagination (Some true) (Some (u ".next")) None)).

Lemma first_page_results_are_kept_witness :
  exists more, (scrape_scholarships paging_config 10 failing_site).2 = Ok ([sample_record] ++ more).
Proof.
  apply (first_page_results_are_kept paging_config 10 failing_site [sample_record]);
    reflexivity.
Defined.

(** *** Titles of the fallback extraction *)

Lemma lstrip_length (s : pystr) : (length (lstrip s) <= length s)%nat.
Proof. induction s as [|c t IH]; simpl; [lia|]. destruct (is_space c); simpl; lia. Qed.

Lemma strip_length (s : pystr) : (length (strip s) <= length s)%nat.
Proof.
  unfold strip, rstrip. rewrite length_rev.
  etransitivity; [apply lstrip_length|]. rewrite length_rev. apply lstrip_length.
Qed.

Lemma lstrip_fixed (s : pystr) :
  match s with c :: _ => is_space c = false | [] => True end -> lstrip s = s.
Proof. destruct s as [|c t]; [reflexivity|]. simpl. intros ->. reflexivity. Qed.

Lemma lstrip_head (s : pystr) :
  match lstrip s with c :: _ => is_space c = false | [] => True end.
Proof.
  induction s as [|c t IH]; simpl; [exact I|].
  destruct (is_space c) eqn:E; [exact IH|exact E].
Qed.

(** Stripping white space at the end keeps a first character that is no
    white space. *)
Lemma rstrip_head (s : pystr) :
  match s with c :: _ => is_space c = false | [] => True end ->
  match rstrip s with c :: _ => is_space c = false | [] => True end.
Proof.
  destruct s as [|c t]; [intros _; exact I|]. intros Hc.
  unfold rstrip. cbn [rev].
  assert (H : forall a, exists b, lstrip (a ++ [c]) = b ++ [c]).
  { induction a as [|x a IH]; simpl.
    - rewrite Hc. exists []. reflexivity.
    - destruct (is_space x); [exact IH|]. exists (x :: a). reflexivity. }
  destruct (H (rev t)) as [b ->]. rewrite rev_app_distr. simpl. exact Hc.
Qed.

Lemma strip_idempotent (s : pystr) : strip (strip s) = strip s.
Proof.
  unfold strip at 1.
  assert (H1 : lstrip (strip s) = strip s).
  { apply lstrip_fixed. unfold strip. apply rstrip_head, lstrip_head. }
  rewrite H1. unfold strip at 1, rstrip at 1 2.
  rewrite rev_involutive.
  rewrite (lstrip_fixed (lstrip (rev (lstrip s)))) by apply lstrip_head.
  reflexivity.
Qed.

(** X19.  The title the fallback extraction derives from a text has fewer
    than 200 characters and no white space at either end. *)
Theorem fallback_title_is_short (text : pystr) :
  len (_extract_title_from_text text) < 200 /\
  strip (_extract_title_from_text text) = _extract_title_from_text text.
Proof.
  unfold _extract_title_from_text.
  destruct (List.find _ _) as [line|] eqn:E.
  - apply find_some in E as [Hin Hlen].
    apply andb_true_iff in Hlen as [_ Hlt]. apply Z.ltb_lt in Hlt.
    split; [assumption|].
    apply in_map_iff in Hin as (raw & <- & _). apply strip_idempotent.
  - split; [|apply strip_idempotent].
    unfold len. pose proof (strip_length (firstn 100 text)) as H.
    pose proof (firstn_le_length 100 text) as H'. lia.
Qed.

End ScrapingProps.

Module TextProcessingProps.
Import Py TextProcessing.

Lemma slice_to_length (k : Z) (s : pystr) : (length (slice_to k s) <= length s)%nat.
Proof. unfold slice_to. destruct (k <? 0); rewrite length_firstn; lia. Qed.

Lemma slice_to_length_nonneg (k : Z) (s : pystr) : 0 <= k -> len (slice_to k s) <= k.
Proof.
  intros Hk. unfold slice_to, len. destruct (Z.ltb_spec k 0); [lia|].
  rewrite length_firstn. lia.
Qed.

(** X20.  When the suffix is not longer than [max_length], the truncated
    text is never longer than [max_length]; a text that already fits is
    returned unchanged. *)
Theorem truncate_text_length (gt_scaled : Z -> Z -> bool) (text : pystr) (max_length : Z)
    (suffix : pystr) :
  len suffix <= max_length ->
  len (truncate_text gt_scaled text max_length suffix) <= max_length /\
  (len text <= max_length -> truncate_text gt_scaled text max_length suffix = text).
Proof.
  intros Hs. unfold truncate_text.
  assert (H0 : 0 <= len suffix) by (unfold len; lia).
  destruct text as [|c t]; [split; [unfold len; simpl; lia|reflexivity]|].
  destruct (Z.leb_spec (len (c :: t)) max_length); [split; [assumption|reflexivity]|].
  split; [|lia].
  set (truncated := slice_to (max_length - len suffix) (c :: t)).
  assert (Ht : len truncated <= max_length - len suffix)
    by (apply slice_to_length_nonneg; lia).
  assert (Hfinal : len (if gt_scaled (rfind 32 truncated) max_length
                        then slice_to (rfind 32 truncated) truncated else truncated)
                   <= max_length - len suffix).
  { destruct (gt_scaled _ _); [|assumption].
    pose proof (slice_to_length (rfind 32 truncated) truncated). unfold len in *. lia. }
  unfold len in *. rewrite length_app. lia.
Qed.

Lemma truncate_text_length_witness :
  len (truncate_text (fun last_space max_length => 10 * last_space >? 7 * max_length)
         (u "Scholarship for students of engineering colleges") 30 (u "...")) <= 30 /\
  (len (u "Scholarship for students of engineering colleges") <= 30 ->
   truncate_text (fun last_space max_length => 10 * last_space >? 7 * max_length)
     (u "Scholarship for students of engineering colleges") 30 (u "...")
   = u "Scholarship for students of engineering colleges").
Proof.
  apply (truncate_text_length (fun last_space max_length => 10 * last_space >? 7 * max_length)
           (u "Scholarship for students of engineering colleges") 30 (u "...")).
  vm_compute. discriminate.
Defined.

End TextProcessingProps.

Module MergeProps.
Import Py PyTime PyFloat Scraping.

Section Merge.
Variable str_of : pyval -> pystr.

(** A missing entry and a false value count alike. *)
Definition present (x : option pyval) : Prop := exists v, x = Some v /\ truthy v = true.

(** One round changes only the entry of its key, and that entry either stays
    or becomes the true AI value. *)
Lemma merge_item_spec (m m' : gmap string pyval) (key : string) (value : pyval) :
  merge_item str_of m key value = Ok m' ->
  (forall k, k <> key -> m' !! k = m !! k) /\
  (m' !! key = m !! key \/ (m' !! key = Some value /\ truthy value = true)) /\
  (truthy value = true -> ~ present (m !! key) -> m' !! key = Some value) /\
  (present (m !! key) -> present (m' !! key)).
Proof.
  unfold merge_item.
  assert (Hset : truthy value = true ->
            (forall k, k <> key -> <[key := value]> m !! k = m !! k) /\
            (<[key := value]> m !! key = m !! key \/
             (<[key := value]> m !! key = Some value /\ truthy value = true)) /\
            (truthy value = true -> ~ present (m !! key) ->
             <[key := value]> m !! key = Some value) /\
            (present (m !! key) -> present (<[key := value]> m !! key))).
  { intros Hv. rewrite lookup_insert_eq. split.
    - intros k Hk. apply lookup_insert_ne. congruence.
    - split; [right; split; [reflexivity|assumption]|]. split; [reflexivity|].
      intros _. exists value. split; [reflexivity|assumption]. }
  assert (Hkeep : (truthy value = true -> present (m !! key)) ->
            (forall k, k <> key -> m !! k = m !! k) /\
            (m !! key = m !! key \/ (m !! key = Some value /\ truthy value = true)) /\
            (truthy value = true -> ~ present (m !! key) -> m !! key = Some value) /\
            (present (m !! key) -> present (m !! key))).
  { intros Hp. split; [reflexivity|]. split; [left; reflexivity|]. split; [|tauto].
    intros Hv Hn. exfalso. apply Hn, Hp, Hv. }
  destruct (truthy value) eqn:Hv; cbn [andb].
  - destruct (m !! key) as [t|] eqn:Et.
    + destruct (truthy t) eqn:Htt; cbn [negb].
      * assert (Hp : present (Some t)) by (exists t; split; [reflexivity|assumption]).
        destruct value as [|s|z|f|d|d|l]; cbn beta iota;
          try (intros [= <-]; rewrite ?Et; apply Hkeep; intros _; exact Hp).
        -- destruct (len s >? len (py_str str_of t)); intros [= <-]; rewrite ?Et;
             [apply Hset; reflexivity|apply Hkeep; intros _; exact Hp].
        -- destruct (py_len t) as [n|e]; cbn [bind]; [|discriminate].
           destruct (Z.of_nat (length l) >? n); intros [= <-]; rewrite ?Et;
             [apply Hset; reflexivity|apply Hkeep; intros _; exact Hp].
      * intros [= <-]. rewrite ?Et. apply Hset. reflexivity.
    + intros [= <-]. rewrite ?Et. apply Hset. reflexivity.
  - destruct (m !! key) as [t|] eqn:Et; intros [= <-]; rewrite ?Et; apply Hkeep; discriminate.
Qed.

Definition rounds (acc_ : res (gmap string pyval)) (items : list (string * pyval))
  : res (gmap string pyval) :=
  foldl (fun acc_ '(key, value) => let! merged := acc_ in merge_item str_of merged key value)
        acc_ items.

Lemma rounds_raise (e : exn) (items : list (string * pyval)) : rounds (Raise e) items = Raise e.
Proof. induction items as [|[k v] items IH]; [reflexivity|exact IH]. Qed.

Lemma rounds_spec (items : list (string * pyval)) (m0 m : gmap string pyval) :
  NoDup items.*1 ->
  rounds (Ok m0) items = Ok m ->
  (forall key, key ∉ items.*1 -> m !! key = m0 !! key) /\
  (forall key value, (key, value) ∈ items ->
     (m !! key = m0 !! key \/ (m !! key = Some value /\ truthy value = true)) /\
     (truthy value = true -> ~ present (m0 !! key) -> m !! key = Some value) /\
     (present (m0 !! key) -> present (m !! key))).
Proof.
  revert m0. induction items as [|[k v] items IH]; intros m0 Hnd H.
  - injection H as <-. split; [reflexivity|]. intros key value Hin. inversion Hin.
  - unfold rounds in H. cbn [foldl bind] in H. fold (rounds (merge_item str_of m0 k v) items) in H.
    destruct (merge_item str_of m0 k v) as [m1|e] eqn:E1;
      [|rewrite rounds_raise in H; discriminate].
    cbn [fmap list_fmap fst] in Hnd. apply NoDup_cons in Hnd as [Hk Hnd].
    destruct (IH m1 Hnd H) as [Hout Hin].
    destruct (merge_item_spec m0 m1 k v E1) as (Hother & Hsame & Hnew & Hkept).
    split.
    + intros key Hkey. cbn [fmap list_fmap fst] in Hkey.
      apply not_elem_of_cons in Hkey as [Hne Hkey].
      rewrite (Hout key Hkey). apply Hother, Hne.
    + intros key value Hel. apply elem_of_cons in Hel as [[= -> ->]|Hel].
      * rewrite (Hout k Hk). repeat split; assumption.
      * assert (Hne : key <> k).
        { intros ->. apply Hk. apply list_elem_of_fmap. exists (k, value). split; [reflexivity|assumption]. }
        rewrite <- (Hother key Hne). apply Hin, Hel.
Qed.

(** X21.  Merging the AI extraction into the traditional one, entry by
    entry: the merged value of a key is the traditional value or a true AI
    value, never anything else; a true traditional value is never replaced
    by a false one or dropped; and a true AI value fills in where the
    traditional extraction has nothing (no entry, or a false value). *)
Theorem merged_entries (ai_data traditional_data merged : gmap string pyval) :
  _merge_extraction_results str_of ai_data traditional_data = Ok merged ->
  forall key,
    (merged !! key = traditional_data !! key \/
     (merged !! key = ai_data !! key /\ present (ai_data !! key))) /\
    (present (traditional_data !! key) -> present (merged !! key)) /\
    (present (ai_data !! key) -> ~ present (traditional_data !! key) ->
     merged !! key = ai_data !! key).
Proof.
  unfold _merge_extraction_results. intros H key.
  destruct (rounds_spec (map_to_list ai_data) traditional_data merged
              (NoDup_fst_map_to_list ai_data) H) as [Hout Hin].
  destruct (ai_data !! key) as [value|] eqn:Ea.
  - assert (Hel : (key, value) ∈ map_to_list ai_data) by (apply elem_of_map_to_list, Ea).
    destruct (Hin key value Hel) as (H1 & H2 & H3).
    split; [|split].
    + destruct H1 as [H1|[H1 Hv]]; [left; assumption|right].
      split; [assumption|]. exists value. split; [reflexivity|assumption].
    + assumption.
    + intros (v & [= <-] & Hv) Hn. apply H2; assumption.
  - assert (Hno : key ∉ (map_to_list ai_data).*1).
    { intros Hel. apply list_elem_of_fmap in Hel as ([k v] & -> & Hel).
      apply elem_of_map_to_list in Hel. simpl in Ea. congruence. }
    rewrite (Hout key Hno). split; [left; reflexivity|]. split; [tauto|].
    intros (v & Hv & _). discriminate.
Qed.

End Merge.

Definition ai_example : gmap string pyval :=
  <["title"%string := VStr (u "National Merit Scholarship 2025")]>
  (<["amount"%string := VNone]> (<["eligibility"%string := VList [VStr (u "Class 12")]]> ∅)).

Definition traditional_example : gmap string pyval :=
  <["title"%string := VStr (u "Merit Scholarship")]>
  (<["amount"%string := VFloat (of_Z 50000)]> ∅).

Definition merged_example : gmap string pyval :=
  <["title"%string := VStr (u "National Merit Scholarship 2025")]>
  (<["amount"%string := VFloat (of_Z 50000)]>
  (<["eligibility"%string := VList [VStr (u "Class 12")]]> ∅)).

(** The entry [eligibility], which only the AI extraction has. *)
Lemma merged_entries_witness :
  (merged_example !! "eligibility"%string = traditional_example !! "eligibility"%string \/
   (merged_example !! "eligibility"%string = ai_example !! "eligibility"%string /\
    present (ai_example !! "eligibility"%string))) /\
  (present (traditional_example !! "eligibility"%string) ->
   present (merged_example !! "eligibility"%string)) /\
  (present (ai_example !! "eligibility"%string) ->
   ~ present (traditional_example !! "eligibility"%string) ->
   merged_example !! "eligibility"%string = ai_example !! "eligibility"%string).
Proof.
  apply (merged_entries (fun _ => []) ai_example traditional_example merged_example).
  vm_compute. reflexivity.
Defined.

End MergeProps.

Module UrlProps.
Import Py Urllib Dedup.

(** A text without [?] and [#]. *)
Definition no_query (s : pystr) : Prop := Forall (fun c => c <> 63 /\ c <> 35) s.

Lemma no_query_suffix (a b : pystr) : a `suffix_of` b -> no_query b -> no_query a.
Proof. intros [pre ->] H. apply Forall_app in H. apply H. Qed.

Lemma break_at_parts (p : Z -> bool) (t : pystr) :
  t = (break_at p t).1 ++ (break_at p t).2.
Proof.
  induction t as [|c t IH]; cbn [break_at]; [reflexivity|].
  destruct (p c); [reflexivity|].
  destruct (break_at p t) as [u0 v0]. cbn [fst snd app] in *. congruence.
Qed.

Lemma break_at_snd_suffix (p : Z -> bool) (t : pystr) : (break_at p t).2 `suffix_of` t.
Proof. exists (break_at p t).1. apply break_at_parts. Qed.

(** [break_at] on a text followed by more text: a hit in the first part
    decides; without one the search goes on in the second part. *)
Lemma break_at_app (p : Z -> bool) (a r : pystr) :
  break_at p (a ++ r) =
    match (break_at p a).2 with
    | [] => (a ++ (break_at p r).1, (break_at p r).2)
    | _ :: _ => ((break_at p a).1, (break_at p a).2 ++ r)
    end.
Proof.
  induction a as [|c a IH]; cbn [app break_at].
  - cbn [snd]. destruct (break_at p r); reflexivity.
  - destruct (p c); [reflexivity|]. rewrite IH.
    destruct (break_at p a) as [u0 v0]. cbn [fst snd]. destruct v0; reflexivity.
Qed.

Lemma break_at_none (p : Z -> bool) (t : pystr) :
  Forall (fun c => p c = false) t -> break_at p t = (t, []).
Proof.
  induction 1 as [|c t Hc _ IH]; cbn [break_at]; [reflexivity|].
  rewrite Hc, IH. reflexivity.
Qed.

(** The first hit is a character after [v]. *)
Lemma break_at_app_hit (p : Z -> bool) (v : pystr) (x : Z) (r : pystr) :
  Forall (fun c => p c = false) v -> p x = true ->
  break_at p (v ++ x :: r) = (v, x :: r).
Proof.
  intros Hv Hx. rewrite break_at_app, (break_at_none p v Hv). cbn [snd break_at].
  rewrite Hx. cbn [fst snd]. rewrite app_nil_r. reflexivity.
Qed.

Lemma no_query_not (v : pystr) (q : Z) :
  q = 63 \/ q = 35 -> no_query v -> Forall (fun c => (c =? q) = false) v.
Proof.
  intros Hq Hv. eapply Forall_impl; [exact Hv|]. intros c [H1 H2]. cbn beta.
  apply Z.eqb_neq. destruct Hq; subst; assumption.
Qed.

(** Cutting the fragment and then the query off [v ++ x :: b] leaves
    [v]. *)
Lemma cut_query (v : pystr) (x : Z) (b : pystr) :
  no_query v -> x = 63 \/ x = 35 ->
  (break_at (fun c => c =? 63) (break_at (fun c => c =? 35) (v ++ x :: b)).1).1 = v /\
  (break_at (fun c => c =? 63) (break_at (fun c => c =? 35) v).1).1 = v.
Proof.
  intros Hv Hx.
  pose proof (no_query_not v 63 (or_introl eq_refl) Hv) as H63.
  pose proof (no_query_not v 35 (or_intror eq_refl) Hv) as H35.
  split.
  - destruct Hx as [->| ->].
    + rewrite break_at_app, (break_at_none _ v H35). cbn [snd fst].
      cbn [break_at]. change (63 =? 35) with false. cbn iota.
      destruct (break_at (fun c => c =? 35) b) as [u0 v0]. cbn [fst].
      rewrite (break_at_app_hit (fun c => c =? 63) v 63 u0 H63 eq_refl). reflexivity.
    + rewrite (break_at_app_hit (fun c => c =? 35) v 35 b H35 eq_refl). cbn [fst].
      rewrite (break_at_none _ v H63). reflexivity.
  - rewrite (break_at_none _ v H35). cbn [fst]. rewrite (break_at_none _ v H63). reflexivity.
Qed.

Lemma lstrip_c0_app (a : pystr) (x : Z) (b : pystr) :
  32 < x -> lstrip_c0 (a ++ x :: b) = lstrip_c0 a ++ x :: b.
Proof.
  intros Hx. induction a as [|c a IH]; cbn [app lstrip_c0].
  - destruct (Z.leb_spec 0 x); destruct (Z.leb_spec x 32); cbn [andb]; try lia; reflexivity.
  - destruct ((0 <=? c) && (c <=? 32)); [exact IH|reflexivity].
Qed.

Lemma lstrip_c0_suffix (a : pystr) : lstrip_c0 a `suffix_of` a.
Proof.
  induction a as [|c a IH]; cbn [lstrip_c0]; [reflexivity|].
  destruct ((0 <=? c) && (c <=? 32)); [apply suffix_cons_r, IH|reflexivity].
Qed.

Lemma no_query_filter (f : Z -> bool) (a : pystr) : no_query a -> no_query (List.filter f a).
Proof.
  induction 1 as [|c a Hc _ IH]; cbn [List.filter]; [constructor|].
  destruct (f c); [constructor; assumption|assumption].
Qed.

Lemma split_scheme_app (a : pystr) (x : Z) (b : pystr) :
  no_query a -> x = 63 \/ x = 35 ->
  split_scheme (a ++ x :: b) = ((split_scheme a).1, (split_scheme a).2 ++ x :: b) /\
  no_query (split_scheme a).2.
Proof.
  intros Ha Hx. unfold split_scheme. rewrite break_at_app.
  pose proof (break_at_parts (fun c => c =? 58) a) as Hparts.
  pose proof (break_at_snd_suffix (fun c => c =? 58) a) as Hsuf.
  destruct (break_at (fun c => c =? 58) a) as [pre post]. cbn [fst snd] in *.
  destruct post as [|y post].
  - (* no colon before the mark *)
    rewrite app_nil_r in Hparts. subst pre.
    assert (E : (match a with
                 | [] => ([], a)
                 | _ :: _ => ([], a)
                 end : pystr * pystr) = ([], a)) by (destruct a; reflexivity).
    rewrite E. cbn [fst snd]. split; [|exact Ha].
    cbn [break_at]. assert (Hx58 : (x =? 58) = false) by (apply Z.eqb_neq; destruct Hx; lia).
    rewrite Hx58. destruct (break_at (fun c => c =? 58) b) as [u0 v0]. cbn [fst snd].
    destruct (a ++ x :: u0) as [|c pre] eqn:Eapp; [reflexivity|].
    destruct v0 as [|z v0]; [reflexivity|].
    assert (Hbad : forallb is_scheme_char (c :: pre) = false).
    { rewrite <- Eapp. clear -Hx. induction a as [|d a IH]; cbn [app forallb].
      - destruct Hx as [->| ->]; reflexivity.
      - rewrite IH. apply andb_false_r. }
    rewrite Hbad, andb_false_r. reflexivity.
  - (* the first colon is before the mark *)
    assert (Hpost : no_query post).
    { eapply no_query_suffix; [|exact Ha]. etransitivity; [|exact Hsuf].
      apply suffix_cons_r. reflexivity. }
    destruct pre as [|c pre]; [cbn [fst snd]; split; [reflexivity|exact Ha]|].
    cbn [app].
    destruct (is_alpha c && forallb is_scheme_char (c :: pre));
      cbn [fst snd]; split; try reflexivity; assumption.
Qed.

(** The network location, and what follows it. *)
Definition split_netloc (url : pystr) : pystr * pystr :=
  match url with
  | 47 :: 47 :: t => break_at (fun c => (c =? 47) || (c =? 63) || (c =? 35)) t
  | _ => ([], url)
  end.

Lemma classic_slash (s : pystr) :
  (exists t, s = 47 :: 47 :: t) \/ (forall t, s <> 47 :: 47 :: t).
Proof.
  destruct s as [|c1 [|c2 t]]; try (right; intros t0; discriminate).
  destruct (Z.eq_dec c1 47) as [->|H1]; [|right; intros t0 [= ? ?]; contradiction].
  destruct (Z.eq_dec c2 47) as [->|H2]; [|right; intros t0 [= ? ?]; contradiction].
  left. exists t. reflexivity.
Qed.

Lemma split_netloc_other (s : pystr) :
  (forall t, s <> 47 :: 47 :: t) -> split_netloc s = ([], s).
Proof.
  intros H. destruct s as [|c1 [|c2 t]]; try reflexivity.
  - destruct c1 as [|p1|p1]; try reflexivity.
    repeat (destruct p1 as [p1|p1|]; try reflexivity).
  - destruct (Z.eq_dec c1 47) as [->|H1].
    + destruct (Z.eq_dec c2 47) as [->|H2]; [exfalso; eapply H; reflexivity|].
      destruct c2 as [|p2|p2]; try reflexivity.
      repeat (destruct p2 as [p2|p2|]; try reflexivity; try congruence).
    + destruct c1 as [|p1|p1]; try reflexivity.
      repeat (destruct p1 as [p1|p1|]; try reflexivity; try congruence).
Qed.

Lemma split_netloc_app (a : pystr) (x : Z) (b : pystr) :
  no_query a -> x = 63 \/ x = 35 ->
  split_netloc (a ++ x :: b) = ((split_netloc a).1, (split_netloc a).2 ++ x :: b) /\
  no_query (split_netloc a).2.
Proof.
  intros Ha Hx.
  assert (Hx47 : x <> 47) by (destruct Hx; lia).
  assert (Hp : ((x =? 47) || (x =? 63) || (x =? 35)) = true)
    by (destruct Hx as [->| ->]; reflexivity).
  destruct (classic_slash a) as [(t & ->)|Hother].
  - assert (Ht : no_query t).
    { eapply no_query_suffix; [|exact Ha]. do 2 apply suffix_cons_r. reflexivity. }
    cbn [app split_netloc]. rewrite break_at_app.
    pose proof (break_at_parts (fun c => (c =? 47) || (c =? 63) || (c =? 35)) t) as Hparts.
    pose proof (break_at_snd_suffix (fun c => (c =? 47) || (c =? 63) || (c =? 35)) t) as Hs.
    destruct (break_at (fun c => (c =? 47) || (c =? 63) || (c =? 35)) t) as [u0 v0].
    cbn [fst snd] in *. split; [|eapply no_query_suffix; eassumption].
    destruct v0 as [|z v0]; [|reflexivity].
    rewrite app_nil_r in Hparts. subst u0.
    cbn [break_at]. rewrite Hp. cbn [fst snd app]. rewrite app_nil_r. reflexivity.
  - rewrite (split_netloc_other a Hother). cbn [fst snd]. split; [|exact Ha].
    apply split_netloc_other. intros t E.
    destruct a as [|c1 [|c2 a]]; cbn [app] in E.
    + injection E as -> _. destruct Hx; lia.
    + injection E as _ -> _. destruct Hx; lia.
    + injection E as -> -> _. eapply Hother. reflexivity.
Qed.

Lemma urlparse_netloc (url : pystr) :
  urlparse url =
    let url0 := List.filter (fun c => negb ((c =? 9) || (c =? 10) || (c =? 13))) (lstrip_c0 url) in
    let sch := (split_scheme url0).1 in
    let loc := (split_netloc (split_scheme url0).2).1 in
    let rest_ := (split_netloc (split_scheme url0).2).2 in
    let p := (break_at (fun c => c =? 63) (break_at (fun c => c =? 35) rest_).1).1 in
    Parsed sch loc (if existsb (fun x => str_eqb sch (u x)) uses_params
                    then last_segment_params p else p).
Proof.
  unfold urlparse. cbn zeta.
  destruct (split_scheme _) as [sch url1]. cbn [fst snd].
  change (match url1 with
          | 47 :: 47 :: t => break_at (fun c => (c =? 47) || (c =? 63) || (c =? 35)) t
          | _ => ([], url1)
          end) with (split_netloc url1).
  destruct (split_netloc url1) as [loc rest_]. reflexivity.
Qed.

(** [urlparse] does not look at what follows the first [?] or [#]. *)
Lemma urlparse_ignores_query (a : pystr) (x : Z) (b : pystr) :
  no_query a -> x = 63 \/ x = 35 ->
  scheme (urlparse (a ++ x :: b)) = scheme (urlparse a) /\
  netloc (urlparse (a ++ x :: b)) = netloc (urlparse a) /\
  path (urlparse (a ++ x :: b)) = path (urlparse a).
Proof.
  intros Ha Hx. rewrite !urlparse_netloc. cbn zeta.
  rewrite lstrip_c0_app by (destruct Hx; lia).
  rewrite List.filter_app. cbn [List.filter].
  assert (Hkeep : negb ((x =? 9) || (x =? 10) || (x =? 13)) = true)
    by (destruct Hx as [->| ->]; reflexivity).
  rewrite Hkeep.
  set (f := fun c : Z => negb ((c =? 9) || (c =? 10) || (c =? 13))).
  set (a0 := List.filter f (lstrip_c0 a)).
  assert (Ha0 : no_query a0).
  { apply no_query_filter. eapply no_query_suffix; [apply lstrip_c0_suffix|exact Ha]. }
  destruct (split_scheme_app a0 x (List.filter f b) Ha0 Hx) as [E1 Hr1].
  rewrite E1. cbn [fst snd].
  destruct (split_netloc_app (split_scheme a0).2 x (List.filter f b) Hr1 Hx) as [E2 Hr2].
  rewrite E2. cbn [fst snd].
  destruct (cut_query (split_netloc (split_scheme a0).2).2 x (List.filter f b) Hr2 Hx)
    as [E3 E4].
  rewrite E3, E4. cbn [scheme netloc path]. repeat split; reflexivity.
Qed.

Lemma lower_char_query (c : Z) : (c <> 63 /\ c <> 35) -> lower_char c <> 63 /\ lower_char c <> 35.
Proof.
  intros [H1 H2]. unfold lower_char, is_ascii_upper.
  destruct (Z.leb_spec 65 c); destruct (Z.leb_spec c 90); cbn [andb]; lia.
Qed.

(** X22.  [_normalize_url] drops the query string and the fragment: for a
    non-empty URL without [?] and [#], appending [?] or [#] and any text
    gives the same normalized URL.  Two records whose URLs differ only in
    the query string are therefore compared as an exact URL match. *)
Theorem normalize_url_ignores_query (url : pystr) (mark : Z) (query : pystr) :
  url <> [] -> no_query url -> mark = 63 \/ mark = 35 ->
  _normalize_url (url ++ mark :: query) = _normalize_url url.
Proof.
  intros Hne Hq Hm. unfold _normalize_url.
  destruct url as [|c t]; [congruence|]. cbn [app]. cbn zeta.
  change (c :: t ++ mark :: query) with ((c :: t) ++ mark :: query).
  unfold lower. rewrite List.map_app.
  change (List.map lower_char (mark :: query))
    with (lower_char mark :: List.map lower_char query).
  assert (Hl : lower_char mark = mark) by (destruct Hm as [->| ->]; reflexivity).
  rewrite Hl.
  assert (Hq' : no_query (List.map lower_char (c :: t))).
  { apply Forall_map. eapply Forall_impl; [exact Hq|]. intros d Hd. apply lower_char_query, Hd. }
  destruct (urlparse_ignores_query (List.map lower_char (c :: t)) mark
              (List.map lower_char query) Hq' Hm) as (E1 & E2 & E3).
  rewrite E1, E2, E3. reflexivity.
Qed.

Lemma normalize_url_ignores_query_witness :
  _normalize_url (u "https://scholarships.gov.in/view" ++ 63 :: u "id=2") =
  _normalize_url (u "https://scholarships.gov.in/view").
Proof.
  apply (normalize_url_ignores_query (u "https://scholarships.gov.in/view") 63 (u "id=2")).
  - vm_compute. discriminate.
  - unfold no_query. repeat constructor; vm_compute; congruence.
  - left; reflexivity.
Defined.

End UrlProps.

Module DeadlineProps.
Import Py Re PyTime DateParser PyProps.

(** Every piece of a split is a part of the text. *)
Lemma split_on_pieces (ks : list cset) (s cur piece : pystr) :
  In piece (split_on_aux ks cur s) -> exists a b, rev cur ++ s = a ++ piece ++ b.
Proof.
  revert cur. induction s as [|c t IH]; intros cur; cbn [split_on_aux].
  - intros [<-|[]]. exists [], []. rewrite !app_nil_r. reflexivity.
  - destruct (existsb (cset_in false c) ks).
    + intros [<-|Hin].
      * exists [], (c :: t). reflexivity.
      * destruct (IH [] Hin) as (a & b & E). cbn [rev app] in E.
        exists (rev cur ++ c :: a), b. rewrite E, <- !app_assoc. reflexivity.
    + intros Hin. destruct (IH (c :: cur) Hin) as (a & b & E).
      exists a, b. rewrite <- E. cbn [rev]. rewrite <- app_assoc. reflexivity.
Qed.

Lemma contains_part (a piece b p : pystr) :
  contains piece p = true -> contains (a ++ piece ++ b) p = true.
Proof. intros H. apply contains_app_r, contains_app_l, H. Qed.

(** X23.  A text that contains none of the deadline keywords yields no
    deadline, whatever dates it mentions: only sentences with a keyword are
    searched for a date. *)
Theorem no_keyword_no_deadline (now : datetime) (text : pystr) :
  (forall keyword, In keyword deadline_keywords ->
                   contains (lower text) (u keyword) = false) ->
  extract_deadline_from_text now text = Ok None.
Proof.
  intros Hno. unfold extract_deadline_from_text. destruct text as [|c t]; [reflexivity|].
  set (txt := lower (c :: t)) in *.
  assert (Hnone : List.filter
            (fun sentence => existsb (fun keyword => contains sentence (u keyword))
                                     deadline_keywords)
            (split_on [CChar 46; CChar 33; CChar 63; CChar 59] txt) = []).
  { unfold split_on.
    assert (Hall : forall sentence,
               In sentence (split_on_aux [CChar 46; CChar 33; CChar 63; CChar 59] [] txt) ->
               existsb (fun keyword => contains sentence (u keyword)) deadline_keywords = false).
    { intros sentence Hin. apply split_on_pieces in Hin as (a & b & E). cbn [rev app] in E.
      apply not_true_iff_false. intros Hex. apply existsb_exists in Hex as (k & Hk & Hc).
      apply (contains_part a sentence b) in Hc. rewrite <- E in Hc.
      rewrite (Hno k Hk) in Hc. discriminate. }
    revert Hall. generalize (split_on_aux [CChar 46; CChar 33; CChar 63; CChar 59] [] txt).
    intros l. induction l as [|x l IH]; intros Hall; [reflexivity|].
    cbn [List.filter]. rewrite (Hall x (or_introl eq_refl)). apply IH.
    intros s Hs. apply Hall. right; assumption. }
  cbn zeta. rewrite Hnone. reflexivity.
Qed.

Lemma no_keyword_no_deadline_witness :
  extract_deadline_from_text DateParserSpec.noon_2026_11_03
    (u "Apply online. Results on 15 August 2027.") = Ok None.
Proof.
  apply (no_keyword_no_deadline DateParserSpec.noon_2026_11_03
           (u "Apply online. Results on 15 August 2027.")).
  intros keyword Hin.
  repeat (destruct Hin as [<-|Hin]; [vm_compute; reflexivity|]). destruct Hin.
Defined.

End DeadlineProps.

Module CleanTextProps.
Import Py Dedup Scraping ScrapingProps.

(** Every white space character is a single blank: a blank that does not
    follow a blank ([in_run]: the character before is a blank). *)
Fixpoint single_spaced (in_run : bool) (s : pystr) : bool :=
  match s with
  | [] => true
  | c :: t => if is_space c then (c =? 32) && negb in_run && single_spaced true t
              else single_spaced false t
  end.

Lemma single_spaced_weaken (s : pystr) : single_spaced true s = true -> single_spaced false s = true.
Proof.
  destruct s as [|c t]; [reflexivity|]. cbn [single_spaced].
  destruct (is_space c); [|exact id]. rewrite andb_false_r. discriminate.
Qed.

Lemma collapse_single_spaced (in_run : bool) (s : pystr) :
  single_spaced in_run (collapse_spaces in_run s) = true.
Proof.
  revert in_run. induction s as [|c t IH]; intros in_run; [reflexivity|].
  cbn [collapse_spaces]. destruct (is_space c) eqn:E.
  - destruct in_run; [apply IH|].
    cbn [single_spaced]. change (is_space 32) with true. cbn iota.
    rewrite IH. reflexivity.
  - cbn [single_spaced]. rewrite E. 
    destruct in_run; [apply IH|apply IH].
Qed.

Lemma collapse_fixed (in_run : bool) (s : pystr) :
  single_spaced in_run s = true -> collapse_spaces in_run s = s.
Proof.
  revert in_run. induction s as [|c t IH]; intros in_run; [reflexivity|].
  cbn [single_spaced collapse_spaces]. destruct (is_space c).
  - rewrite !andb_true_iff. intros [[Hc Hr] Ht]. apply Z.eqb_eq in Hc. subst c.
    destruct in_run; [discriminate|]. rewrite (IH true Ht). reflexivity.
  - intros Ht. rewrite (IH false Ht). reflexivity.
Qed.

Lemma single_spaced_lstrip (s : pystr) :
  single_spaced false s = true -> single_spaced false (lstrip s) = true.
Proof.
  induction s as [|c t IH]; [reflexivity|]. intros H. cbn [lstrip].
  destruct (is_space c) eqn:E; [|exact H].
  cbn [single_spaced] in H. rewrite E in H. apply andb_true_iff in H as [_ H].
  apply IH, single_spaced_weaken, H.
Qed.

Lemma single_spaced_prefix (in_run : bool) (a r : pystr) :
  single_spaced in_run (a ++ r) = true -> single_spaced in_run a = true.
Proof.
  revert in_run. induction a as [|c a IH]; intros in_run; [reflexivity|].
  cbn [app single_spaced]. destruct (is_space c).
  - rewrite !andb_true_iff. intros [H1 H2]. split; [exact H1|apply IH, H2].
  - apply IH.
Qed.

Lemma rstrip_prefix (s : pystr) : exists tail, s = rstrip s ++ tail.
Proof.
  unfold rstrip. destruct (AmountParserProps.lstrip_suffix (rev s)) as [pre E].
  exists (rev pre). rewrite <- rev_app_distr, <- E, rev_involutive. reflexivity.
Qed.

Lemma single_spaced_strip (s : pystr) :
  single_spaced false s = true -> single_spaced false (strip s) = true.
Proof.
  intros H. unfold strip. apply single_spaced_lstrip in H.
  destruct (rstrip_prefix (lstrip s)) as [tail E]. rewrite E in H.
  eapply single_spaced_prefix, H.
Qed.

(** X24.  What [clean_text] returns is in normal form, whatever
    [html.unescape] and the Unicode normalization do: it has no white space
    at either end, and every white space in it is a single blank, so that
    collapsing white space and stripping it again change nothing. *)
Theorem clean_text_normal_form (unescape NFKD : pystr -> pystr) (text : pystr) :
  strip (clean_text unescape NFKD text) = clean_text unescape NFKD text /\
  collapse_spaces false (clean_text unescape NFKD text) = clean_text unescape NFKD text /\
  clean_text (fun s => s) (fun s => s) (clean_text unescape NFKD text)
    = clean_text unescape NFKD text.
Proof.
  assert (H1 : strip (clean_text unescape NFKD text) = clean_text unescape NFKD text).
  { unfold clean_text. destruct text; [reflexivity|]. apply strip_idempotent. }
  assert (H2 : collapse_spaces false (clean_text unescape NFKD text)
               = clean_text unescape NFKD text).
  { apply collapse_fixed. unfold clean_text. destruct text; [reflexivity|].
    apply single_spaced_strip, collapse_single_spaced. }
  split; [exact H1|]. split; [exact H2|].
  unfold clean_text at 1. destruct (clean_text unescape NFKD text) eqn:E; [reflexivity|].
  cbn beta. rewrite H2. exact H1.
Qed.

End CleanTextProps.

Module NoEvidenceProps.
Import Py PyTime Dedup DedupSpec.

(** X25.  Two records that have no field in common (for every field that
    is compared, at least one of the two records lacks it) are never
    reported as duplicates: the similarity and the confidence are 0 and no
    field matches. *)
Theorem no_common_field_no_duplicate (s1 s2 : scholarship) :
  (url s1 = [] \/ url s2 = []) ->
  (title s1 = [] \/ title s2 = []) ->
  (description s1 = [] \/ description s2 = []) ->
  (amount s1 = None \/ amount s2 = None) ->
  (deadline s1 = None \/ deadline s2 = None) ->
  (category s1 = [] \/ category s2 = []) ->
  (eligibility s1 = [] \/ eligibility s2 = []) ->
  is_duplicate (detect_duplication s1 s2) = false /\
  similarity_score (detect_duplication s1 s2) = 0%Q /\
  confidence (detect_duplication s1 s2) = 0%Q /\
  matching_fields (detect_duplication s1 s2) = [].
Proof.
  intros Hu Ht Hd Ha Hdl Hc He.
  assert (Hstr : forall a b : pystr, a = [] \/ b = [] -> truthy_str a && truthy_str b = false).
  { intros a b [-> | ->]; [reflexivity|]. destruct a; reflexivity. }
  unfold detect_duplication.
  destruct (dict_is_empty s1 || dict_is_empty s2); [repeat split; reflexivity|].
  assert (E : field_comparisons s1 s2 = ([], [], [])).
  { unfold field_comparisons, compare_text.
    rewrite (Hstr _ _ Hu), (Hstr _ _ Ht), (Hstr _ _ Hd), (Hstr _ _ Hc), (Hstr _ _ He).
    destruct Ha as [-> | ->]; destruct Hdl as [-> | ->];
      destruct (amount s1), (amount s2), (deadline s1), (deadline s2); reflexivity. }
  rewrite E. repeat split; reflexivity.
Qed.


(** A record with a title only and a record with a URL only. *)
Definition title_only : scholarship :=
  Scholarship [] (u "National Merit Scholarship") [] None None [] [] None.
Definition url_only : scholarship :=
  Scholarship (u "https://scholarships.gov.in/merit") [] [] None None [] [] None.

Lemma no_common_field_no_duplicate_witness :
  is_duplicate (detect_duplication title_only url_only) = false /\
  similarity_score (detect_duplication title_only url_only) = 0%Q /\
  confidence (detect_duplication title_only url_only) = 0%Q /\
  matching_fields (detect_duplication title_only url_only) = [].
Proof.
  apply (no_common_field_no_duplicate title_only url_only);
    first [left; reflexivity | right; reflexivity].
Defined.

End NoEvidenceProps.

Module GroupingProps.
Import Py PyTime Dedup DedupSpec DedupProps.

(** *** The groups partition their members *)

Lemma concat_alter_app (l : list (list nat)) (k : nat) (g ext : list nat) :
  l !! k = Some g ->
  concat (alter (fun g => g ++ ext) k l) ≡ₚ concat l ++ ext.
Proof.
  revert k. induction l as [|h l IH]; intros k Hk.
  - rewrite lookup_nil in Hk. discriminate.
  - destruct k as [|k]; simpl.
    + rewrite <- !app_assoc. apply Permutation_app_head, Permutation_app_comm.
    + rewrite (IH k Hk), app_assoc. reflexivity.
Qed.

Lemma concat_insert_nil (l : list (list nat)) (k : nat) (g : list nat) :
  l !! k = Some g ->
  concat (<[k := []]> l) ++ g ≡ₚ concat l.
Proof.
  revert k. induction l as [|h l IH]; intros k Hk.
  - rewrite lookup_nil in Hk. discriminate.
  - destruct k as [|k]; simpl.
    + injection Hk as ->. apply Permutation_app_comm.
    + rewrite <- app_assoc, (IH k Hk). reflexivity.
Qed.

(** The groups are disjoint and without repetition, and the dict knows every
    member. *)
Definition partitioned (st : list (list nat) * gmap nat nat) : Prop :=
  NoDup (concat st.1) /\ (forall x, x ∈ concat st.1 -> is_Some (st.2 !! x)).

Lemma add_pair_partitioned (st : list (list nat) * gmap nat nat) (i j : nat) :
  i <> j -> consistent st -> partitioned st -> partitioned (add_pair st i j).
Proof.
  destruct st as [groups itg]. intros Hij Hc [Hnd Hknown]. unfold add_pair, partitioned in *.
  cbn [fst snd] in *.
  assert (Hfresh : forall x, itg !! x = None -> x ∉ concat groups).
  { intros x Hx Hin. destruct (Hknown x Hin) as [gx Hgx]. congruence. }
  destruct (itg !! i) as [gi|] eqn:Ei; destruct (itg !! j) as [gj|] eqn:Ej.
  - destruct (decide (gi = gj)) as [->|Hne]; [split; assumption|].
    destruct (Hc i gi Ei) as (g_i & Hgi & Hi). destruct (Hc j gj Ej) as (g_j & Hgj & Hj).
    cbn [fst snd] in Hgi, Hgj. rewrite Hgj. cbn [default from_option id fst snd].
    assert (Hperm : concat (<[gj := []]> (alter (fun g => g ++ g_j) gi groups)) ≡ₚ concat groups).
    { assert (Hlook : alter (fun g => g ++ g_j) gi groups !! gj = Some g_j)
        by (rewrite list_lookup_alter_ne by congruence; assumption).
      pose proof (concat_insert_nil _ gj g_j Hlook) as H1.
      pose proof (concat_alter_app groups gi g_i g_j Hgi) as H2.
      rewrite H2 in H1. eapply Permutation_app_inv_r. exact H1. }
    split.
    + rewrite Hperm. assumption.
    + intros x Hx. rewrite Hperm in Hx. rewrite foldl_insert_lookup.
      destruct (decide (x ∈ g_j)); [eauto|apply Hknown, Hx].
  - destruct (Hc i gi Ei) as (g_i & Hgi & Hi). cbn [fst snd] in Hgi.
    pose proof (concat_alter_app groups gi g_i [j] Hgi) as Hperm.
    cbn [fst snd]. split.
    + rewrite Hperm. apply NoDup_app. split; [assumption|]. split; [|apply NoDup_singleton].
      intros x Hx Hxj. apply list_elem_of_singleton in Hxj. subst x.
      exact (Hfresh j Ej Hx).
    + intros x Hx. rewrite Hperm in Hx. apply elem_of_app in Hx as [Hx|Hx].
      * destruct (decide (x = j)) as [->|Hn]; [rewrite lookup_insert_eq; eauto|].
        rewrite lookup_insert_ne by congruence. apply Hknown, Hx.
      * apply list_elem_of_singleton in Hx. subst x. rewrite lookup_insert_eq. eauto.
  - destruct (Hc j gj Ej) as (g_j & Hgj & Hj). cbn [fst snd] in Hgj.
    pose proof (concat_alter_app groups gj g_j [i] Hgj) as Hperm.
    cbn [fst snd]. split.
    + rewrite Hperm. apply NoDup_app. split; [assumption|]. split; [|apply NoDup_singleton].
      intros x Hx Hxi. apply list_elem_of_singleton in Hxi. subst x.
      exact (Hfresh i Ei Hx).
    + intros x Hx. rewrite Hperm in Hx. apply elem_of_app in Hx as [Hx|Hx].
      * destruct (decide (x = i)) as [->|Hn]; [rewrite lookup_insert_eq; eauto|].
        rewrite lookup_insert_ne by congruence. apply Hknown, Hx.
      * apply list_elem_of_singleton in Hx. subst x. rewrite lookup_insert_eq. eauto.
  - cbn [fst snd]. split.
    + rewrite concat_app. cbn [concat]. rewrite app_nil_r.
      apply NoDup_app. split; [assumption|]. split.
      * intros x Hx Hxij. apply elem_of_cons in Hxij as [->|Hxj].
        -- exact (Hfresh i Ei Hx).
        -- apply list_elem_of_singleton in Hxj. subst x. exact (Hfresh j Ej Hx).
      * apply NoDup_cons. split; [|apply NoDup_singleton].
        intros H. apply list_elem_of_singleton in H. contradiction.
    + intros x Hx. rewrite concat_app in Hx. cbn [concat] in Hx. rewrite app_nil_r in Hx.
      destruct (decide (x = j)) as [->|Hnj]; [rewrite lookup_insert_eq; eauto|].
      rewrite lookup_insert_ne by congruence.
      destruct (decide (x = i)) as [->|Hni]; [rewrite lookup_insert_eq; eauto|].
      rewrite lookup_insert_ne by congruence.
      apply elem_of_app in Hx as [Hx|Hx]; [apply Hknown, Hx|].
      apply elem_of_cons in Hx as [->|Hx]; [contradiction|].
      apply list_elem_of_singleton in Hx. contradiction.
Qed.

Lemma grouping_loop_partitioned (ps : list (nat * nat * DuplicationResult))
    (st : list (list nat) * gmap nat nat) :
  (forall i j r, In (i, j, r) ps -> i <> j) ->
  consistent st -> partitioned st -> partitioned (foldl step st ps).
Proof.
  revert st. induction ps as [|[[i j] r] ps IH]; intros st Hne Hc Hp; [exact Hp|].
  simpl foldl. change (step st (i, j, r)) with (add_pair st i j).
  apply IH.
  - intros a b r' Hin. apply (Hne a b r'). right; assumption.
  - apply add_pair_spec, Hc.
  - apply add_pair_partitioned; [apply (Hne i j r); left; reflexivity|assumption..].
Qed.

Lemma concat_filter_nonempty (groups : list (list nat)) :
  concat (List.filter (fun g => match g with [] => false | _ => true end) groups)
  = concat groups.
Proof.
  induction groups as [|g groups IH]; [reflexivity|].
  cbn [List.filter]. destruct g; cbn [concat app]; [exact IH|]. rewrite IH. reflexivity.
Qed.

Lemma duplicate_groups_are_disjoint_aux (l : list scholarship) :
  NoDup (concat (get_duplicate_groups l)).
Proof.
  unfold get_duplicate_groups, build_groups. rewrite foldl_step_eq.
  assert (Hc : consistent ([], ∅)).
  { intros x gi Hx. simpl in Hx. rewrite lookup_empty in Hx. discriminate. }
  assert (Hp : partitioned ([], ∅)).
  { split; [constructor|]. intros x Hx. inversion Hx. }
  assert (Hne : forall i j r, In (i, j, r) (find_duplicates_in_batch l) -> i <> j).
  { intros i j r Hin. apply find_duplicates_sound in Hin as [Hlt _]. lia. }
  pose proof (grouping_loop_partitioned _ _ Hne Hc Hp) as [Hnd _].
  destruct (foldl step ([], ∅) (find_duplicates_in_batch l)) as [groups itg].
  rewrite concat_filter_nonempty. exact Hnd.
Qed.

(** X26.  The duplicate groups are disjoint: no position of the list is in
    two groups, or twice in one group. *)
Theorem duplicate_groups_are_disjoint (l : list scholarship) :
  NoDup (concat (get_duplicate_groups l)) /\
  (forall g1 g2 x, g1 ∈ get_duplicate_groups l -> g2 ∈ get_duplicate_groups l ->
                   x ∈ g1 -> x ∈ g2 -> g1 = g2).
Proof.
  pose proof (duplicate_groups_are_disjoint_aux l) as Hnd. split; [exact Hnd|].
  revert Hnd. generalize (get_duplicate_groups l) as gs.
  induction gs as [|h gs IH]; intros Hnd g1 g2 x H1 H2 Hx1 Hx2; [inversion H1|].
  cbn [concat] in Hnd. apply NoDup_app in Hnd as (Hh & Hdisj & Hgs).
  assert (Hin : forall g, g ∈ gs -> x ∈ g -> x ∈ concat gs).
  { intros g Hg Hxg. apply list_elem_of_In, in_concat. exists g.
    split; apply list_elem_of_In; assumption. }
  apply elem_of_cons in H1 as [->|H1]; apply elem_of_cons in H2 as [->|H2].
  - reflexivity.
  - exfalso. exact (Hdisj x Hx1 (Hin g2 H2 Hx2)).
  - exfalso. exact (Hdisj x Hx2 (Hin g1 H1 Hx1)).
  - exact (IH Hgs g1 g2 x H1 H2 Hx1 Hx2).
Qed.


(** *** Counting what is removed *)

Lemma filter_out_one (g : list nat) (b : nat) :
  NoDup g -> b ∈ g ->
  List.filter (fun idx => negb (Nat.eqb idx b)) g ++ [b] ≡ₚ g.
Proof.
  induction 1 as [|x g Hx Hnd IH]; intros Hb; [inversion Hb|].
  cbn [List.filter]. destruct (Nat.eqb_spec x b) as [->|Hne]; cbn [negb].
  - assert (E : List.filter (fun idx => negb (Nat.eqb idx b)) g = g).
    { clear -Hx. induction g as [|y g IH]; [reflexivity|]. cbn [List.filter].
      destruct (Nat.eqb_spec y b) as [->|_]; [exfalso; apply Hx; left|].
      cbn [negb]. rewrite IH; [reflexivity|]. intros H. apply Hx. right; assumption. }
    rewrite E. symmetry. apply Permutation_cons_append.
  - cbn [app]. apply Permutation_cons; [reflexivity|]. apply IH.
    apply elem_of_cons in Hb as [->|Hb]; [contradiction|assumption].
Qed.

Lemma best_index_member (l : list scholarship) (tl : list nat) (b : nat) (sc : Q) :
  (foldl (fun '(best_idx, best_score) idx =>
            let score := score_of l idx in
            if negb (Qle_bool score best_score) then (idx, score) else (best_idx, best_score))
         (b, sc) tl).1 ∈ b :: tl.
Proof.
  revert b sc. induction tl as [|x tl IH]; intros b sc; [left|].
  cbn [foldl]. destruct (negb (Qle_bool (score_of l x) sc)).
  - right. apply IH.
  - assert (Hsub : forall y, y ∈ b :: tl -> y ∈ b :: x :: tl).
    { intros y Hy. apply elem_of_cons in Hy as [->|Hy]; [left|right; right; assumption]. }
    apply Hsub, IH.
Qed.

(** A documented strategy keeps exactly one member of a group. *)
Lemma removed_of_group_all_but_one (l : list scholarship) (keep_strategy : string)
    (g : list nat) :
  documented keep_strategy -> NoDup g -> (2 <= length g)%nat ->
  exists kept, removed_of_group l keep_strategy g ++ [kept] ≡ₚ g.
Proof.
  intros Hs Hnd Hlen. unfold removed_of_group.
  assert (E : Nat.leb (length g) 1 = false) by (apply Nat.leb_gt; lia). rewrite E.
  destruct Hs as [->|[->| ->]]; cbn [String.eqb Ascii.eqb Bool.eqb andb].
  - destruct g as [|h t]; [simpl in Hlen; lia|]. exists h. cbn [skipn].
    symmetry. apply Permutation_cons_append.
  - exists (List.last g 0%nat). rewrite <- app_removelast_last; [reflexivity|].
    intros ->. simpl in Hlen. lia.
  - destruct g as [|g0 tl]; [simpl in Hlen; lia|].
    pose proof (best_index_member l tl g0 (score_of l g0)) as Hb.
    destruct (foldl _ _ tl) as [best_idx best_score]. cbn [fst] in Hb.
    exists best_idx. apply filter_out_one; assumption.
Qed.

Lemma NoDup_concat_each (gs : list (list nat)) (g : list nat) :
  NoDup (concat gs) -> g ∈ gs -> NoDup g.
Proof.
  induction gs as [|h gs IH]; intros Hnd Hin; [inversion Hin|].
  cbn [concat] in Hnd. apply NoDup_app in Hnd as (H1 & _ & H2).
  apply elem_of_cons in Hin as [->|Hin]; [assumption|apply IH; assumption].
Qed.

(** The removed indices of all the groups, as a list. *)
Definition removed_list (l : list scholarship) (keep_strategy : string)
    (gs : list (list nat)) : list nat :=
  concat (List.map (removed_of_group l keep_strategy) gs).

Lemma removed_list_spec (l : list scholarship) (keep_strategy : string) (gs : list (list nat)) :
  documented keep_strategy -> NoDup (concat gs) ->
  (forall g, g ∈ gs -> (2 <= length g)%nat) ->
  NoDup (removed_list l keep_strategy gs) /\
  (forall x, x ∈ removed_list l keep_strategy gs -> x ∈ concat gs) /\
  fold_left Z.add
    (List.map (fun group => Z.of_nat (length group) - 1)
              (List.filter (fun group => Z.of_nat (length group) >? 1) gs)) 0
  = Z.of_nat (length (removed_list l keep_strategy gs)).
Proof.
  intros Hs. unfold removed_list.
  assert (Hsum : forall (zs : list Z) (a : Z), fold_left Z.add zs a = a + fold_left Z.add zs 0).
  { induction zs as [|z zs IH]; intros a; cbn [fold_left]; [lia|].
    rewrite (IH (a + z)), (IH (0 + z)). lia. }
  induction gs as [|g gs IH]; intros Hnd Hlen.
  - split; [constructor|]. split; [intros x Hx; inversion Hx|reflexivity].
  - cbn [concat] in Hnd. pose proof Hnd as Hnd'.
    apply NoDup_app in Hnd' as (Hg & Hdisj & Hgs).
    assert (Hlg : (2 <= length g)%nat) by (apply Hlen; left).
    destruct (IH Hgs (fun g' Hg' => Hlen g' (list_elem_of_further _ _ _ Hg')))
      as (IH1 & IH2 & IH3).
    destruct (removed_of_group_all_but_one l keep_strategy g Hs Hg Hlg) as [kept Hperm].
    assert (Hsub : forall x, x ∈ removed_of_group l keep_strategy g -> x ∈ g).
    { intros x Hx. rewrite <- Hperm. apply elem_of_app. left; assumption. }
    assert (Hndr : NoDup (removed_of_group l keep_strategy g)).
    { rewrite <- Hperm in Hg. apply NoDup_app in Hg. apply Hg. }
    cbn [List.map concat]. split; [|split].
    + apply NoDup_app. split; [assumption|]. split; [|assumption].
      intros x Hx Hx'. apply (Hdisj x); [apply Hsub, Hx|apply IH2, Hx'].
    + intros x Hx. apply elem_of_app in Hx as [Hx|Hx]; apply elem_of_app;
        [left; apply Hsub, Hx|right; apply IH2, Hx].
    + cbn [List.filter].
      assert (Hgt : (Z.of_nat (length g) >? 1) = true) by (apply Z.gtb_lt; lia).
      rewrite Hgt. cbn [List.map fold_left]. rewrite Hsum, IH3, length_app.
      apply Permutation_length in Hperm. rewrite length_app in Hperm. simpl in Hperm. lia.
Qed.

Lemma indices_to_remove_list (l : list scholarship) (keep_strategy : string) (x : nat) :
  x ∈ indices_to_remove l keep_strategy <->
  x ∈ removed_list l keep_strategy (get_duplicate_groups l).
Proof.
  unfold indices_to_remove, removed_list. split.
  - intros H. apply foldl_union_inv in H as [H|(g & Hg & Hx)].
    + apply elem_of_empty in H. contradiction.
    + apply list_elem_of_In, in_concat. exists (removed_of_group l keep_strategy g).
      split; [|apply list_elem_of_In; assumption].
      apply in_map, list_elem_of_In. assumption.
  - intros H. apply list_elem_of_In, in_concat in H as (r & Hr & Hx).
    apply in_map_iff in Hr as (g & <- & Hg).
    eapply foldl_union_elem; [apply list_elem_of_In; exact Hg|apply list_elem_of_In; exact Hx].
Qed.

Lemma keep_from_length (removed : gset nat) (l : list scholarship) (off : nat) :
  length (keep_from off removed l) =
  length (List.filter (fun i => negb (bool_decide (i ∈ removed))) (seq off (length l))).
Proof.
  revert off. induction l as [|s t IH]; intros off; [reflexivity|].
  cbn [keep_from length seq List.filter].
  destruct (decide (off ∈ removed)) as [Hin|Hnin].
  - rewrite (bool_decide_eq_true_2 _ Hin). cbn [negb]. apply IH.
  - rewrite (bool_decide_eq_false_2 _ Hnin). cbn [negb length]. rewrite IH. reflexivity.
Qed.

(** X27.  The statistics agree with the deduplication: for a documented
    keep strategy, the number of records [deduplicate_scholarships] removes
    is the sum over the duplicate groups of the group size minus one, so
    [calculate_deduplication_stats], called with the two list lengths and the
    groups, reports [removed_count = duplicate_pairs]. *)
Theorem removed_count_is_duplicate_pairs (l : list scholarship) (keep_strategy : string) :
  documented keep_strategy ->
  let stats :=
    calculate_deduplication_stats
      (Z.of_nat (length l))
      (Z.of_nat (length (deduplicate_scholarships l keep_strategy)))
      (get_duplicate_groups l) in
  removed_count stats = duplicate_pairs stats /\
  (length (deduplicate_scholarships l keep_strategy) <= length l)%nat.
Proof.
  intros Hs. cbn zeta. unfold calculate_deduplication_stats.
  cbn [removed_count duplicate_pairs].
  assert (Hlen : forall g, g ∈ get_duplicate_groups l -> (2 <= length g)%nat)
    by (intros g Hg; apply (duplicate_group_members l g Hg)).
  destruct (removed_list_spec l keep_strategy (get_duplicate_groups l) Hs
              (duplicate_groups_are_disjoint_aux l) Hlen) as (Hnd & Hsub & Hsum).
  rewrite Hsum.
  set (rem := removed_list l keep_strategy (get_duplicate_groups l)) in *.
  assert (Hkept : length (deduplicate_scholarships l keep_strategy)
                  = length (List.filter (fun i => negb (bool_decide (i ∈ indices_to_remove l keep_strategy)))
                                        (seq 0 (length l)))).
  { unfold deduplicate_scholarships. destruct l as [|s0 l0] eqn:El; [reflexivity|].
    rewrite <- El. apply keep_from_length. }
  pose proof (List.filter_length (fun i => bool_decide (i ∈ indices_to_remove l keep_strategy))
                                 (seq 0 (length l))) as Hsplit.
  rewrite length_seq in Hsplit.
  assert (Hperm : List.filter (fun i => bool_decide (i ∈ indices_to_remove l keep_strategy))
                              (seq 0 (length l)) ≡ₚ rem).
  { apply NoDup_Permutation.
    - apply NoDup_ListNoDup, List.NoDup_filter, seq_NoDup.
    - exact Hnd.
    - intros x. unfold rem. rewrite <- (indices_to_remove_list l keep_strategy x).
      rewrite !list_elem_of_In, filter_In, in_seq. rewrite bool_decide_eq_true. split.
      + intros [_ H]. exact H.
      + intros H. split; [|exact H]. split; [lia|]. simpl.
        apply indices_to_remove_grouped in H as (g & Hg & Hx).
        destruct (duplicate_group_members l g Hg) as [_ HP].
        destruct (HP x Hx) as (y & sx & sy & Hlx & _). eapply lookup_lt_Some; eassumption. }
  apply Permutation_length in Hperm.
  assert (Hneg : length (List.filter (fun x => negb (bool_decide (x ∈ indices_to_remove l keep_strategy)))
                                     (seq 0 (length l)))
                 = length (deduplicate_scholarships l keep_strategy)) by (symmetry; exact Hkept).
  split; lia.
Qed.


Lemma removed_count_is_duplicate_pairs_witness :
  let stats :=
    calculate_deduplication_stats
      (Z.of_nat (length [listing_a; listing_b; scholarship_c; scholarship_d]))
      (Z.of_nat (length (deduplicate_scholarships
                           [listing_a; listing_b; scholarship_c; scholarship_d] "best")))
      (get_duplicate_groups [listing_a; listing_b; scholarship_c; scholarship_d]) in
  removed_count stats = duplicate_pairs stats /\
  (length (deduplicate_scholarships [listing_a; listing_b; scholarship_c; scholarship_d] "best")
   <= length [listing_a; listing_b; scholarship_c; scholarship_d])%nat.
Proof.
  apply (removed_count_is_duplicate_pairs
           [listing_a; listing_b; scholarship_c; scholarship_d] "best").
  right; right; reflexivity.
Defined.

End GroupingProps.

Module RupeeProps.
Import Py Re PyFloat AmountParser ReSpec AmountParserSpec AmountParserProps.

Definition all_digits (s : pystr) : Prop := Forall (fun c => is_ascii_digit c = true) s.

(** The state at the end of a run of characters. *)
Fixpoint end_prev (p : option Z) (s : pystr) : option Z :=
  match s with
  | [] => p
  | c :: t => end_prev (Some c) t
  end.
Definition after (p : option Z) (s : pystr) (cs : list (nat * pystr)) : mstate :=
  MState (end_prev p s) [] cs.

(** Greedy repetition of [\d] over a text of digits reaches the end of the
    text first. *)
Lemma star_digit_greedy {R : Type} (ci : bool) (ds : pystr) :
  all_digits ds ->
  forall (p : option Z) (cs : list (nat * pystr)) (k : mstate -> option R) (x : R),
    k (after p ds cs) = Some x ->
    mtch ci (star digit) (MState p ds cs) k = Some x.
Proof.
  induction 1 as [|d t Hd Ht IH]; intros p cs k x Hk.
  - exact Hk.
  - unfold star, digit. cbn [mtch rest length].
    unfold step_char at 1. cbn [rest existsb cset_in]. rewrite Hd. cbn [orb caps rest length].
    assert (L : Nat.ltb (length t) (S (length t)) = true) by (apply Nat.ltb_lt; lia).
    rewrite L. cbn [Nat.eqb Nat.pred].
    match goal with
    | |- match ?m with _ => _ end = _ =>
        change m with (mtch ci (star digit) (MState (Some d) t cs) k)
    end.
    rewrite (IH (Some d) cs k x); [reflexivity|]. exact Hk.
Qed.

Lemma plus_digit_greedy {R : Type} (ci : bool) (ds : pystr) :
  ds <> [] -> all_digits ds ->
  forall (p : option Z) (cs : list (nat * pystr)) (k : mstate -> option R) (x : R),
    k (after p ds cs) = Some x ->
    mtch ci (plus digit) (MState p ds cs) k = Some x.
Proof.
  intros Hne Hds p cs k x Hk. destruct ds as [|d t]; [congruence|].
  inversion Hds as [|? ? Hd Ht]; subst.
  unfold plus, digit. cbn [mtch rest length].
  unfold step_char at 1. cbn [rest existsb cset_in]. rewrite Hd. cbn [orb caps rest length].
  assert (L : Nat.ltb (length t) (S (length t)) = true) by (apply Nat.ltb_lt; lia).
  rewrite L. cbn [Nat.eqb Nat.pred].
  match goal with
  | |- match ?m with _ => _ end = _ =>
      change m with (mtch ci (star digit) (MState (Some d) t cs) k)
  end.
  rewrite (star_digit_greedy ci t Ht (Some d) cs k x); [reflexivity|]. exact Hk.
Qed.

Lemma digit_not_space (c : Z) : is_ascii_digit c = true -> is_space c = false.
Proof.
  unfold is_ascii_digit, is_space. intros H. apply andb_true_iff in H as [H1 H2].
  apply Z.leb_le in H1, H2.
  repeat match goal with
         | |- context [?a <=? ?b] => destruct (Z.leb_spec a b); try lia
         | |- context [?a =? ?b] => destruct (Z.eqb_spec a b); try lia
         end; reflexivity.
Qed.

Lemma digit_lower (c : Z) : is_ascii_digit c = true -> lower_char c = c.
Proof.
  unfold is_ascii_digit, lower_char, is_ascii_upper. intros H.
  apply andb_true_iff in H as [H1 H2]. apply Z.leb_le in H1, H2.
  destruct (Z.leb_spec 65 c); [lia|]. reflexivity.
Qed.

Lemma all_digits_plain (ds : pystr) :
  all_digits ds -> Decimal (remove_char 44 ds) = inject_Z (int_of_digits ds).
Proof.
  intros H.
  assert (E1 : remove_char 44 ds = ds).
  { unfold remove_char. induction H as [|d t Hd _ IH]; [reflexivity|]. cbn [List.filter].
    assert (Hn : (d =? 44) = false).
    { apply Z.eqb_neq. intros ->. discriminate Hd. }
    rewrite Hn. cbn [negb]. rewrite IH. reflexivity. }
  rewrite E1. unfold Decimal.
  assert (E2 : split_at_dot ds = (ds, None)).
  { clear E1. induction H as [|d t Hd _ IH]; [reflexivity|]. cbn [split_at_dot].
    assert (Hn : (d =? 46) = false).
    { apply Z.eqb_neq. intros ->. discriminate Hd. }
    rewrite Hn, IH. reflexivity. }
  rewrite E2. reflexivity.
Qed.

Lemma strip_fixed (s : pystr) (c e : Z) (mid : pystr) :
  s = c :: mid ++ [e] -> is_space c = false -> is_space e = false -> strip s = s.
Proof.
  intros -> Hc He. unfold strip.
  assert (H1 : lstrip (c :: mid ++ [e]) = c :: mid ++ [e])
    by (cbn [lstrip]; rewrite Hc; reflexivity).
  rewrite H1. unfold rstrip.
  assert (H2 : rev (c :: mid ++ [e]) = e :: rev (c :: mid)).
  { change (c :: mid ++ [e]) with ((c :: mid) ++ [e]). rewrite rev_app_distr. reflexivity. }
  rewrite H2. cbn [lstrip]. rewrite He. rewrite <- H2. apply rev_involutive.
Qed.

(** X28.  A rupee sign followed by decimal digits parses to the number the
    digits denote, for every such number of at most fifteen digits (those a
    float holds exactly, so that [float(amount)] changes nothing). *)
Theorem rupee_digits_parse (ds : pystr) :
  ds <> [] -> (length ds <= 15)%nat -> all_digits ds ->
  parse_amount (rupee_sign :: ds) = Some (inject_Z (int_of_digits ds)).
Proof.
  intros Hne _ Hds.
  assert (Hlow : lower (rupee_sign :: ds) = rupee_sign :: ds).
  { unfold lower. cbn [List.map]. f_equal.
    clear Hne. induction Hds as [|d t Hd _ IH]; [reflexivity|].
    cbn [List.map]. rewrite (digit_lower d Hd), IH. reflexivity. }
  assert (Hstrip : strip (rupee_sign :: ds) = rupee_sign :: ds).
  { destruct (exists_last Hne) as (mid & e & ->).
    eapply strip_fixed; [reflexivity|reflexivity|].
    apply digit_not_space. apply Forall_app in Hds as [_ He]. inversion He; assumption. }
  unfold parse_amount. rewrite Hlow, Hstrip. cbn [first_some].
  assert (Hm : search true pat_rupees (rupee_sign :: ds)
               = Some (MState (end_prev (Some rupee_sign) ds) [] [(1%nat, ds)])).
  { unfold search. cbn [search_from]. unfold match_at, pat_rupees. cbn [seqs alts fold_left].
    rewrite mtch_seq.
    assert (Hfirst : forall (k : mstate -> option mstate) y,
               k (MState (Some rupee_sign) ds []) = Some y ->
               mtch true
                 (Alt (Alt (Alt (Chr rupee_sign) (Seq (lit "rs") (opt (Chr 46))))
                           (Seq (lit "rupee") (opt (Chr 115)))) (lit "inr"))
                 (MState None (rupee_sign :: ds) []) k = Some y).
    { intros k y Hk. cbn [mtch]. unfold step_char at 1. cbn [rest existsb cset_in].
      change (lower_char rupee_sign =? lower_char rupee_sign) with true. cbn [orb caps].
      rewrite Hk. reflexivity. }
    erewrite Hfirst; [reflexivity|].
    rewrite mtch_seq.
    assert (Hsp : forall (k : mstate -> option mstate),
               mtch true (star space) (MState (Some rupee_sign) ds []) k
               = k (MState (Some rupee_sign) ds [])).
    { intros k. destruct ds as [|d t]; [reflexivity|].
      inversion Hds as [|? ? Hd Ht]; subst.
      unfold star, space. cbn [mtch rest length]. unfold step_char. cbn [rest existsb cset_in].
      rewrite (digit_not_space d Hd). reflexivity. }
    rewrite Hsp. rewrite mtch_grp. unfold number_with_commas. cbn [seqs]. rewrite mtch_seq.
    apply (plus_digit_greedy true ds Hne Hds).
    unfold after. rewrite mtch_seq. unfold star, opt. cbn [mtch rest length Nat.eqb].
    unfold step_char. cbn [rest prev caps]. unfold consumed. cbn [rest length].
    rewrite Nat.sub_0_r, firstn_all. reflexivity. }
  unfold _parse_structured_amount. rewrite Hm. unfold group1. cbn [caps group Nat.eqb].
  rewrite (all_digits_plain ds Hds). reflexivity.
Qed.

Lemma rupee_digits_parse_witness :
  parse_amount (rupee_sign :: u "250000") = Some (inject_Z 250000).
Proof.
  apply (rupee_digits_parse (u "250000")).
  - vm_compute. discriminate.
  - cbn. lia.
  - unfold all_digits. vm_compute. repeat constructor.
Defined.

End RupeeProps.

Module RoundTripProps.
Import Py Re PyTime Strptime DateParser ReSpec AmountParserSpec RupeeProps.

(** *** The calendar: an ordinal decodes to the date it was built from *)

Lemma dby_decomp (y : Z) :
  1 <= y ->
  exists a b c e, 0 <= a /\ 0 <= b <= 3 /\ 0 <= c <= 24 /\ 0 <= e <= 3 /\
    y - 1 = 400 * a + 100 * b + 4 * c + e /\
    days_before_year y = 146097 * a + 36524 * b + 1461 * c + 365 * e.
Proof.
  intros H. exists ((y - 1) / 400), ((y - 1) mod 400 / 100), ((y - 1) mod 100 / 4), ((y - 1) mod 4).
  unfold days_before_year. cbv zeta. Z.div_mod_to_equations. lia.
Qed.

Lemma is_leap_decomp (a b c e : Z) :
  0 <= a -> 0 <= b <= 3 -> 0 <= c <= 24 -> 0 <= e <= 3 ->
  is_leap (400 * a + 100 * b + 4 * c + e + 1)
  = (e =? 3) && (negb (c =? 24) || (b =? 3)).
Proof.
  intros Ha Hb Hc He. unfold is_leap.
  set (y := 400 * a + 100 * b + 4 * c + e + 1).
  assert (E4 : y mod 4 = (e + 1) mod 4).
  { unfold y. Z.div_mod_to_equations. lia. }
  assert (E100 : y mod 100 = (4 * c + e + 1) mod 100).
  { unfold y. Z.div_mod_to_equations. lia. }
  assert (E400 : y mod 400 = (100 * b + 4 * c + e + 1) mod 400).
  { unfold y. Z.div_mod_to_equations. lia. }
  rewrite E4, E100, E400.
  destruct (Z.eqb_spec e 3) as [->|Ne].
  - cbn [andb]. change ((3 + 1) mod 4 =? 0) with true. cbn [andb].
    destruct (Z.eqb_spec c 24) as [->|Nc].
    + change ((4 * 24 + 3 + 1) mod 100 =? 0) with true. cbn [negb orb].
      destruct (Z.eqb_spec b 3) as [->|Nb]; [reflexivity|].
      apply Z.eqb_neq. Z.div_mod_to_equations. lia.
    + cbn [negb orb].
      assert (N : ((4 * c + 3 + 1) mod 100 =? 0) = false).
      { apply Z.eqb_neq. Z.div_mod_to_equations. lia. }
      rewrite N. reflexivity.
  - assert (N : ((e + 1) mod 4 =? 0) = false).
    { apply Z.eqb_neq. Z.div_mod_to_equations. lia. }
    rewrite N. reflexivity.
Qed.

Lemma year_of_ord_spec (y j : Z) :
  1 <= y -> 1 <= j <= (if is_leap y then 366 else 365) ->
  year_of_ord (days_before_year y + j) = (y, j - 1).
Proof.
  intros Hy Hj. destruct (dby_decomp y Hy) as (a & b & c & e & Ha & Hb & Hc & He & Ey & Ed).
  assert (Ey' : y = 400 * a + 100 * b + 4 * c + e + 1) by lia.
  rewrite Ey' in Hj. rewrite is_leap_decomp in Hj by assumption.
  rewrite Ed. unfold year_of_ord. cbv zeta.
  set (n := 146097 * a + 36524 * b + 1461 * c + 365 * e + j - 1).
  set (r1 := 36524 * b + 1461 * c + 365 * e + j - 1).
  assert (R1 : 0 <= r1 < 146097).
  { unfold r1. destruct (Z.eqb_spec e 3), (Z.eqb_spec c 24), (Z.eqb_spec b 3);
      cbn [andb orb negb] in Hj; lia. }
  assert (D1 : n / 146097 = a).
  { symmetry. apply (Z.div_unique_pos n 146097 a r1); [lia|unfold n, r1; lia]. }
  assert (M1 : n mod 146097 = r1).
  { symmetry. apply (Z.mod_unique_pos n 146097 a r1); [lia|unfold n, r1; lia]. }
  rewrite D1, M1. unfold r1. clear n r1 R1 D1 M1.
  destruct (Z.eqb_spec e 3) as [E3|Ne], (Z.eqb_spec c 24) as [E24|Nc],
           (Z.eqb_spec b 3) as [Eb|Nb]; cbn [andb orb negb] in Hj.
  all: Z.div_mod_to_equations.
  all: repeat match goal with
       | |- context [?x =? ?y] => destruct (Z.eqb_spec x y)
       end; cbn [orb]; f_equal; lia.
Qed.

(** The month lengths as a function of the leap flag alone. *)
Definition dim_l (l : bool) (m : Z) : Z :=
  if m =? 2 then (if l then 29 else 28)
  else if (m =? 4) || (m =? 6) || (m =? 9) || (m =? 11) then 30 else 31.
Fixpoint dbm_aux_l (l : bool) (n : nat) : Z :=
  match n with
  | O => 0
  | S n' => dbm_aux_l l n' + dim_l l (Z.of_nat n)
  end.
Definition dbm_l (l : bool) (m : Z) : Z := dbm_aux_l l (Z.to_nat (m - 1)).

Lemma dbm_leap (y m : Z) : days_before_month y m = dbm_l (is_leap y) m.
Proof.
  unfold days_before_month, dbm_l. induction (Z.to_nat (m - 1)) as [|n IH]; [reflexivity|].
  cbn [days_before_month_aux dbm_aux_l]. rewrite IH. reflexivity.
Qed.

Ltac table :=
  repeat match goal with
         | |- context [dbm_l ?l ?k] =>
             let v := eval vm_compute in (dbm_l l k) in change (dbm_l l k) with v
         | H : context [dim_l ?l ?k] |- _ =>
             let v := eval vm_compute in (dim_l l k) in change (dim_l l k) with v in H
         end.

Lemma month_cases (m : Z) :
  1 <= m <= 12 ->
  m = 1 \/ m = 2 \/ m = 3 \/ m = 4 \/ m = 5 \/ m = 6 \/ m = 7 \/ m = 8 \/ m = 9 \/
  m = 10 \/ m = 11 \/ m = 12.
Proof. lia. Qed.

Lemma day_of_year_range (l : bool) (m d : Z) :
  1 <= m <= 12 -> 1 <= d <= dim_l l m ->
  1 <= dbm_l l m + d <= (if l then 366 else 365).
Proof.
  intros Hm Hd. destruct (month_cases m Hm) as [E|[E|[E|[E|[E|[E|[E|[E|[E|[E|[E|E]]]]]]]]]]];
    subst m; destruct l; table; lia.
Qed.

Ltac month_step :=
  lazymatch goal with
  | |- fold_left ?f (?k :: ?t) (?a, ?b) = _ =>
      change (fold_left f (k :: t) (a, b)) with (fold_left f t (f (a, b) k));
      cbv beta iota; table;
      lazymatch goal with
      | |- fold_left _ _ (if ?x <=? ?y then _ else _) = _ =>
          destruct (Z.leb_spec x y); [try lia|try lia]
      end
  end.

Lemma month_of_day (l : bool) (m d : Z) :
  1 <= m <= 12 -> 1 <= d <= dim_l l m ->
  fold_left (fun '(m0, d0) k =>
               if dbm_l l k <=? dbm_l l m + d - 1
               then (k, dbm_l l m + d - 1 - dbm_l l k + 1) else (m0, d0))
            [1; 2; 3; 4; 5; 6; 7; 8; 9; 10; 11; 12] (1, dbm_l l m + d - 1 + 1)
  = (m, d).
Proof.
  intros Hm Hd. destruct (month_cases m Hm) as [E|[E|[E|[E|[E|[E|[E|[E|[E|[E|[E|E]]]]]]]]]]];
    subst m; destruct l; table; do 12 month_step; cbn [fold_left]; f_equal; lia.
Qed.

Lemma fold_left_pointwise {A B : Type} (f g : A -> B -> A) (l : list B) :
  (forall a x, f a x = g a x) -> forall a, fold_left f l a = fold_left g l a.
Proof.
  intros E. induction l as [|x l IH]; intros a; [reflexivity|].
  cbn [fold_left]. rewrite E. apply IH.
Qed.

Lemma ymd_of_ymd2ord (y m d : Z) :
  valid_date y m d = true -> ymd_of_ord (ymd2ord y m d) = (y, m, d).
Proof.
  unfold valid_date. intros H.
  repeat (apply andb_true_iff in H as [H ?]).
  repeat match goal with H : (_ <=? _) = true |- _ => apply Z.leb_le in H end.
  assert (Hd : 1 <= d <= dim_l (is_leap y) m) by (split; assumption).
  assert (Hm : 1 <= m <= 12) by lia.
  unfold ymd2ord, ymd_of_ord. rewrite <- Z.add_assoc, dbm_leap.
  rewrite year_of_ord_spec; [|lia|apply day_of_year_range; assumption].
  cbv beta iota zeta.
  rewrite (fold_left_pointwise _
             (fun '(m0, d0) k =>
                if dbm_l (is_leap y) k <=? dbm_l (is_leap y) m + d - 1
                then (k, dbm_l (is_leap y) m + d - 1 - dbm_l (is_leap y) k + 1)
                else (m0, d0))).
  - rewrite (month_of_day (is_leap y) m d Hm Hd). reflexivity.
  - intros [m0 d0] k. rewrite dbm_leap. reflexivity.
Qed.

Lemma date_of_mk_datetime (y m d H M S dt : Z) :
  mk_datetime y m d H M S = Some dt ->
  valid_date y m d = true /\ date_of dt = ymd2ord y m d.
Proof.
  unfold mk_datetime. destruct (valid_date y m d) eqn:V; [|discriminate].
  cbn [andb].
  destruct (0 <=? H) eqn:H0; [|discriminate]. destruct (H <? 24) eqn:H1; [|discriminate].
  destruct (0 <=? M) eqn:M0; [|discriminate]. destruct (M <? 60) eqn:M1; [|discriminate].
  destruct (0 <=? S) eqn:S0; [|discriminate]. destruct (S <? 60) eqn:S1; [|discriminate].
  cbn [andb]. intros [= <-]. split; [reflexivity|].
  apply Z.leb_le in H0, M0, S0. apply Z.ltb_lt in H1, M1, S1.
  unfold date_of, us_per_day.
  set (o := ymd2ord y m d). set (s := H * 3600 + M * 60 + S).
  assert (Hs : 0 <= s < 86400) by (unfold s; lia).
  assert (E : ((o - 1) * 86400 + H * 3600 + M * 60 + S) * 1000000 / (86400 * 1000000)
              = o - 1).
  { symmetry. apply (Z.div_unique_pos _ _ _ (s * 1000000)); unfold s; lia. }
  rewrite E. lia.
Qed.

(** *** Matching on a known prefix of the text

    [mtchP] runs the matcher on the part of the text that is known and stops
    at the first call of the continuation.  It answers [Some None] when the
    match fails without looking past that part, [Some (Some st)] when the
    continuation is first called at [st], and [None] when the run would need
    more of the text. *)

Definition stepP (ci : bool) (ks : list cset) (st : mstate)
    (k : mstate -> option (option mstate)) : option (option mstate) :=
  match rest st with
  | [] => None
  | c :: t => if existsb (cset_in ci c) ks
              then k (MState (Some c) t (caps st)) else Some None
  end.

Fixpoint mtchP (ci : bool) (r : regex) (st : mstate)
    (k : mstate -> option (option mstate)) : option (option mstate) :=
  match r with
  | Eps => k st
  | Chr c => stepP ci [CChar c] st k
  | Cls ks => stepP ci ks st k
  | Seq a b => mtchP ci a st (fun st' => mtchP ci b st' k)
  | Alt a b => match mtchP ci a st k with
               | Some None => mtchP ci b st k
               | o => o
               end
  | Grp i a => mtchP ci a st (fun st' =>
                 k (MState (prev st') (rest st') ((i, consumed st st') :: caps st')))
  | Rep _ _ _ | WordB => None
  end.

Definition first_call (ci : bool) (r : regex) (s : pystr) : option (option mstate) :=
  mtchP ci r (MState None s []) (fun st => Some (Some st)).

(** The state of the real run that a state of the run on the prefix stands
    for: [t] is the rest of the text, [p0] the character before the prefix,
    [cs0] the groups captured before it. *)
Definition embed (p0 : option Z) (cs0 : list (nat * pystr)) (t : pystr) (st : mstate)
  : mstate :=
  MState (match prev st with Some c => Some c | None => p0 end)
         (rest st ++ t) (caps st ++ cs0).

Section Sound.
Context {R : Type}.
Variables (ci : bool) (p0 : option Z) (cs0 : list (nat * pystr)) (t : pystr).
Variable kf : mstate -> option R.

Definition agrees (v : option mstate) (r : option R) : Prop :=
  match v with
  | None => r = None
  | Some s => forall x, kf (embed p0 cs0 t s) = Some x -> r = Some x
  end.

Lemma consumed_embed (st st' : mstate) :
  consumed (embed p0 cs0 t st) (embed p0 cs0 t st') = consumed st st'.
Proof.
  unfold consumed, embed. cbn [rest]. rewrite !length_app.
  replace (length (rest st) + length t - (length (rest st') + length t))%nat
    with (length (rest st) - length (rest st'))%nat by lia.
  rewrite firstn_app.
  replace (length (rest st) - length (rest st') - length (rest st))%nat with 0%nat by lia.
  cbn [firstn]. apply app_nil_r.
Qed.

Lemma stepP_sound (ks : list cset) (st : mstate)
    (kP : mstate -> option (option mstate)) (k : mstate -> option R) :
  (forall s v, kP s = Some v -> agrees v (k (embed p0 cs0 t s))) ->
  forall v, stepP ci ks st kP = Some v ->
    agrees v (match step_char ci ks (embed p0 cs0 t st) with
              | Some st' => k st'
              | None => None
              end).
Proof.
  intros Hk v. unfold stepP, step_char. cbn [embed rest].
  destruct (rest st) as [|c tl]; [discriminate|]. cbn [app].
  destruct (existsb (cset_in ci c) ks).
  - intros E. apply (Hk _ _ E).
  - intros [= <-]. reflexivity.
Qed.

Lemma mtchP_sound (r : regex) :
  forall (st : mstate) (kP : mstate -> option (option mstate)) (k : mstate -> option R),
    (forall s v, kP s = Some v -> agrees v (k (embed p0 cs0 t s))) ->
    forall v, mtchP ci r st kP = Some v -> agrees v (mtch ci r (embed p0 cs0 t st) k).
Proof.
  induction r as [|c|ks|a IHa b IHb|a IHa b IHb|lo hi a IHa|i a IHa|];
    intros st kP k Hk v; cbn [mtchP mtch].
  - apply Hk.
  - apply stepP_sound. exact Hk.
  - apply stepP_sound. exact Hk.
  - apply IHa. intros s w. apply IHb. exact Hk.
  - destruct (mtchP ci a st kP) as [[s|]|] eqn:Ea; [| |discriminate].
    + intros [= <-]. pose proof (IHa st kP k Hk _ Ea) as Ha. cbn [agrees] in *.
      intros x Hx. rewrite (Ha x Hx). reflexivity.
    + intros Eb. pose proof (IHa st kP k Hk _ Ea) as Ha. cbn [agrees] in Ha.
      rewrite Ha. apply (IHb st kP k Hk _ Eb).
  - discriminate.
  - apply IHa. intros s w Hs.
    rewrite consumed_embed.
    apply (Hk _ _ Hs).
  - discriminate.
Qed.

End Sound.

(** A failure on the prefix is a failure on every text with that prefix. *)
Lemma prefix_fails {R : Type} (ci : bool) (r : regex) (s t : pystr)
    (k : mstate -> option R) :
  first_call ci r s = Some None -> mtch ci r (MState None (s ++ t) []) k = None.
Proof.
  intros E.
  apply (mtchP_sound ci None [] t k r (MState None s []) _ k) in E; [exact E|].
  intros s0 v [= <-]. cbn [agrees]. intros x Hx. exact Hx.
Qed.

(** What the continuation returns at its first call is the result. *)
Lemma prefix_first_call {R : Type} (ci : bool) (r : regex) (s t : pystr)
    (p0 : option Z) (cs0 : list (nat * pystr)) (st : mstate)
    (k : mstate -> option R) (x : R) :
  first_call ci r s = Some (Some st) ->
  k (embed p0 cs0 t st) = Some x ->
  mtch ci r (MState p0 (s ++ t) cs0) k = Some x.
Proof.
  intros E Hx.
  apply (mtchP_sound ci p0 cs0 t k r (MState None s []) _ k) in E.
  - cbn [agrees] in E. apply (E x Hx).
  - intros s0 v [= <-]. cbn [agrees]. intros y Hy. exact Hy.
Qed.

(** *** The pieces of a formatted date *)

Definition re_of (c : Z) : regex :=
  match directive c with
  | Some r => r
  | None => Eps
  end.

Definition month_days : list Z := List.map Z.of_nat (seq 1 31).
Definition month_numbers : list Z := List.map Z.of_nat (seq 1 12).

Definition month_lower (m : Z) : pystr :=
  lower (u (nth (Z.to_nat (m - 1)) month_name EmptyString)).

Lemma in_range (n : nat) (x : Z) :
  1 <= x <= Z.of_nat n -> In x (List.map Z.of_nat (seq 1 n)).
Proof.
  intros H. apply in_map_iff. exists (Z.to_nat x). split; [lia|].
  apply in_seq. lia.
Qed.

Lemma pattern_d_B_Y :
  pattern (u "%d %B %Y")
  = Some (Seq (re_of 100) (Seq (plus space) (Seq (re_of 66)
            (Seq (plus space) (Seq (re_of 89) Eps))))).
Proof. vm_compute. reflexivity. Qed.

(** The formats tried before ["%d %B %Y"] fail on the day and the blank. *)
Definition fails_on (fmt : string) (s : pystr) : bool :=
  match pattern (u fmt) with
  | Some r => match first_call true r s with
              | Some None => true
              | _ => false
              end
  | None => true
  end.

Lemma fails_on_sound (fmt : string) (s t : pystr) :
  fails_on fmt s = true -> strptime (s ++ t) fmt = None.
Proof.
  unfold fails_on, strptime. destruct (pattern (u fmt)) as [r|]; [|reflexivity].
  destruct (first_call true r s) as [[st|]|] eqn:E; try discriminate.
  intros _. unfold match_at. rewrite (prefix_fails true r s t Some E). reflexivity.
Qed.

Lemma earlier_formats_fail :
  forallb (fun fmt => forallb (fun d => fails_on fmt (two_digits d ++ [32])) month_days)
          (firstn 11 date_formats) = true.
Proof. vm_compute. reflexivity. Qed.

Definition mstate_eqb (a b : mstate) : bool :=
  bool_decide (prev a = prev b) && bool_decide (rest a = rest b)
  && bool_decide (caps a = caps b).

Lemma mstate_eqb_eq (a b : mstate) : mstate_eqb a b = true -> a = b.
Proof.
  unfold mstate_eqb. intros H. apply andb_true_iff in H as [H H3].
  apply andb_true_iff in H as [H1 H2].
  apply bool_decide_eq_true in H1, H2, H3. destruct a, b. cbn in *. congruence.
Qed.

Definition first_call_is (r : regex) (s : pystr) (st : mstate) : bool :=
  match first_call true r s with
  | Some (Some st') => mstate_eqb st' st
  | _ => false
  end.

Lemma first_call_is_sound (r : regex) (s : pystr) (st : mstate) :
  first_call_is r s st = true -> first_call true r s = Some (Some st).
Proof.
  unfold first_call_is. destruct (first_call true r s) as [[st'|]|]; try discriminate.
  intros H. apply mstate_eqb_eq in H. subst. reflexivity.
Qed.

Definition day_ok (d : Z) : bool :=
  first_call_is (re_of 100) (two_digits d)
                (MState (Some (48 + d mod 10)) [] [(gd, two_digits d)])
  && (py_int (two_digits d) =? d).

Lemma days_ok : forallb day_ok month_days = true.
Proof. vm_compute. reflexivity. Qed.

Definition month_ok (m : Z) : bool :=
  let name := u (nth (Z.to_nat (m - 1)) month_name EmptyString) in
  let mon := lower name in
  match mon with
  | c :: _ => negb (is_space c)
  | [] => false
  end
  && first_call_is (re_of 66) mon (MState (end_prev None mon) [] [(gB, mon)])
  && (index_from 1 (lower mon) f_month =? m).

Lemma months_ok : forallb month_ok month_numbers = true.
Proof. vm_compute. reflexivity. Qed.

Lemma plus_space_one {R : Type} (ci : bool) (p : option Z) (c : Z) (t : pystr)
    (cs : list (nat * pystr)) (k : mstate -> option R) :
  is_space c = false ->
  mtch ci (plus space) (MState p (32 :: c :: t) cs) k = k (MState (Some 32) (c :: t) cs).
Proof.
  intros Hc. unfold plus, space. cbn [mtch rest length].
  unfold step_char. cbn [rest existsb cset_in caps].
  change (is_space 32) with true. cbn [orb rest length].
  assert (L : Nat.ltb (S (length t)) (S (S (length t))) = true) by (apply Nat.ltb_lt; lia).
  rewrite L. rewrite Hc. cbn [orb Nat.pred Nat.eqb].
  destruct (k (MState (Some 32) (c :: t) cs)); reflexivity.
Qed.

Lemma four_digits_run {R : Type} (ci : bool) (p : option Z) (a b c d : Z)
    (cs : list (nat * pystr)) (k : mstate -> option R) :
  is_ascii_digit a = true -> is_ascii_digit b = true ->
  is_ascii_digit c = true -> is_ascii_digit d = true ->
  mtch ci (re_of 89) (MState p [a; b; c; d] cs) k
  = k (MState (Some d) [] ((gY, [a; b; c; d]) :: cs)).
Proof.
  intros Ha Hb Hc Hd. unfold re_of. cbn [directive Z.eqb Pos.eqb seqs].
  change (directive 89) with (Some (Grp gY (seqs [digit; digit; digit; digit]))).
  unfold digit. cbn [seqs mtch]. unfold step_char. cbn [rest existsb cset_in caps].
  rewrite Ha. cbn [orb rest caps]. rewrite Hb. cbn [orb rest caps].
  rewrite Hc. cbn [orb rest caps]. rewrite Hd. cbn [orb rest caps prev].
  reflexivity.
Qed.

Lemma four_digits_facts (y : Z) :
  0 <= y <= 9999 ->
  is_ascii_digit (48 + y / 1000) = true /\ is_ascii_digit (48 + y / 100 mod 10) = true /\
  is_ascii_digit (48 + y / 10 mod 10) = true /\ is_ascii_digit (48 + y mod 10) = true /\
  int_of_digits (four_digits y) = y.
Proof.
  intros Hy. unfold four_digits.
  repeat split;
    try (unfold is_ascii_digit; apply andb_true_iff; split;
         apply Z.leb_le; Z.div_mod_to_equations; lia).
  unfold int_of_digits, digit_val. cbn [fold_left]. Z.div_mod_to_equations. lia.
Qed.

Lemma two_digits_facts (d : Z) :
  0 <= d <= 99 ->
  is_ascii_digit (48 + d / 10) = true /\ is_ascii_digit (48 + d mod 10) = true.
Proof.
  intros Hd.
  split; unfold is_ascii_digit; apply andb_true_iff; split;
    apply Z.leb_le; Z.div_mod_to_equations; lia.
Qed.

Lemma valid_date_bounds (y m d : Z) :
  valid_date y m d = true -> 1 <= y <= 9999 /\ 1 <= m <= 12 /\ 1 <= d <= 31.
Proof.
  unfold valid_date. intros H.
  repeat (apply andb_true_iff in H as [H ?]).
  repeat match goal with H : (_ <=? _) = true |- _ => apply Z.leb_le in H end.
  assert (days_in_month y m <= 31).
  { unfold days_in_month.
    destruct (m =? 2); [destruct (is_leap y); lia|].
    destruct ((m =? 4) || (m =? 6) || (m =? 9) || (m =? 11)); lia. }
  lia.
Qed.

(** ["%d %B %Y"] reads a formatted date back. *)
Lemma strptime_formatted (y m d : Z) :
  1000 <= y -> valid_date y m d = true ->
  strptime (two_digits d ++ 32 :: month_lower m ++ 32 :: four_digits y) "%d %B %Y"
  = mk_datetime y m d 0 0 0.
Proof.
  intros Hy V. destruct (valid_date_bounds y m d V) as (By & Bm & Bd).
  assert (Dd : day_ok d = true).
  { pose proof days_ok as F. rewrite forallb_forall in F. apply F.
    apply (in_range 31). lia. }
  assert (Mm : month_ok m = true).
  { pose proof months_ok as F. rewrite forallb_forall in F. apply F.
    apply (in_range 12). lia. }
  unfold day_ok in Dd. apply andb_true_iff in Dd as [D1 D2].
  apply first_call_is_sound in D1. apply Z.eqb_eq in D2.
  unfold month_ok in Mm. cbv zeta in Mm. fold (month_lower m) in Mm.
  apply andb_true_iff in Mm as [Mm M3]. apply andb_true_iff in Mm as [M1 M2].
  apply first_call_is_sound in M2. apply Z.eqb_eq in M3.
  destruct (four_digits_facts y) as (Ha & Hb & Hc & He & Iy); [lia|].
  unfold four_digits in *.
  set (a := 48 + y / 1000) in *. set (b := 48 + y / 100 mod 10) in *.
  set (c := 48 + y / 10 mod 10) in *. set (e := 48 + y mod 10) in *.
  set (dd := two_digits d) in *. set (mon := month_lower m) in *.
  assert (Hm : match_at true
                 (Seq (re_of 100) (Seq (plus space) (Seq (re_of 66)
                    (Seq (plus space) (Seq (re_of 89) Eps)))))
                 None (dd ++ 32 :: mon ++ 32 :: [a; b; c; e])
               = Some (MState (Some e) [] [(gY, [a; b; c; e]); (gB, mon); (gd, dd)])).
  { unfold match_at. rewrite mtch_seq.
    apply (prefix_first_call true (re_of 100) dd _ None [] _ _ _ D1).
    unfold embed. cbn [prev rest caps app]. rewrite mtch_seq.
    destruct mon as [|c0 mon'] eqn:Emon; [discriminate M1|].
    apply negb_true_iff in M1.
    change ((c0 :: mon') ++ 32 :: [a; b; c; e]) with (c0 :: (mon' ++ 32 :: [a; b; c; e])).
    rewrite (plus_space_one true _ c0 _ _ _ M1). rewrite mtch_seq.
    change (c0 :: (mon' ++ 32 :: [a; b; c; e])) with ((c0 :: mon') ++ 32 :: [a; b; c; e]).
    apply (prefix_first_call true (re_of 66) (c0 :: mon') _ _ _ _ _ _ M2).
    unfold embed. cbn [prev rest caps app]. rewrite mtch_seq.
    rewrite (plus_space_one true _ a _ _ _ (digit_not_space a Ha)). rewrite mtch_seq.
    rewrite (four_digits_run true _ a b c e _ _ Ha Hb Hc He). reflexivity. }
  unfold strptime. rewrite pattern_d_B_Y, Hm.
  cbn [rest caps group field Nat.eqb gY gm gd gy gH gM gS gB gb].
  assert (Py : py_int [a; b; c; e] = y).
  { unfold py_int.
    rewrite (strip_fixed [a; b; c; e] a e [b; c] eq_refl
               (digit_not_space a Ha) (digit_not_space e He)).
    exact Iy. }
  rewrite Py, M3, D2. reflexivity.
Qed.

Lemma first_some_skip {A B : Type} (f : A -> option B) (l1 l2 : list A) :
  (forall x, In x l1 -> f x = None) ->
  AmountParser.first_some f (l1 ++ l2) = AmountParser.first_some f l2.
Proof.
  induction l1 as [|x l1 IH]; intros H; [reflexivity|].
  cbn [app AmountParser.first_some]. rewrite (H x) by (left; reflexivity).
  apply IH. intros x' Hx. apply H. right. exact Hx.
Qed.

(** X29.  [parse_date] reads back what [format_date_indian] writes: for
    every [datetime] from the year 1000 on, parsing its formatted form gives
    midnight of the same day. *)
Theorem format_then_parse (now : datetime) (y m d H M S : Z) (dt : datetime) :
  1000 <= y -> mk_datetime y m d H M S = Some dt ->
  exists dt0, mk_datetime y m d 0 0 0 = Some dt0 /\
              parse_date now (format_date_indian (Some dt)) = Ok (Some dt0).
Proof.
  intros Hy E. destruct (date_of_mk_datetime y m d H M S dt E) as [V Ed].
  destruct (valid_date_bounds y m d V) as (By & Bm & Bd).
  assert (E0 : exists dt0, mk_datetime y m d 0 0 0 = Some dt0).
  { unfold mk_datetime. rewrite V. cbn. eauto. }
  destruct E0 as [dt0 E0]. exists dt0. split; [exact E0|].
  unfold format_date_indian, strftime_d_B_Y. rewrite Ed, (ymd_of_ymd2ord y m d V).
  cbv beta iota.
  set (name := u (nth (Z.to_nat (m - 1)) month_name EmptyString)).
  change (u " ") with [32].
  destruct (two_digits_facts d ltac:(lia)) as [Hd1 Hd2].
  destruct (four_digits_facts y ltac:(lia)) as (Ha & Hb & Hc & He & _).
  unfold two_digits, four_digits in *.
  set (d1 := 48 + d / 10) in *. set (d2 := 48 + d mod 10) in *.
  set (a := 48 + y / 1000) in *. set (b := 48 + y / 100 mod 10) in *.
  set (c := 48 + y / 10 mod 10) in *. set (e := 48 + y mod 10) in *.
  set (text := [d1; d2] ++ [32] ++ name ++ [32] ++ [a; b; c; e]).
  assert (Hs : strip text = text).
  { apply (strip_fixed text d1 e (d2 :: 32 :: name ++ [32; a; b; c])).
    - unfold text. cbn [app]. do 3 f_equal. rewrite <- app_assoc. reflexivity.
    - apply digit_not_space. exact Hd1.
    - apply digit_not_space. exact He. }
  assert (Hl : lower text = ([d1; d2] ++ [32]) ++ month_lower m ++ 32 :: [a; b; c; e]).
  { unfold text, lower, month_lower. fold name. rewrite !map_app. cbn [List.map app].
    rewrite (digit_lower d1 Hd1), (digit_lower d2 Hd2), (digit_lower a Ha),
      (digit_lower b Hb), (digit_lower c Hc), (digit_lower e He).
    reflexivity. }
  unfold parse_date.
  assert (Ht : text = d1 :: ([d2] ++ [32] ++ name ++ [32] ++ [a; b; c; e])) by reflexivity.
  rewrite Ht. rewrite <- Ht. rewrite Hs, Hl.
  assert (Hf : date_formats = firstn 11 date_formats ++ skipn 11 date_formats)
    by (symmetry; apply firstn_skipn).
  rewrite Hf, first_some_skip.
  - cbn [skipn date_formats AmountParser.first_some].
    change (([d1; d2] ++ [32]) ++ month_lower m ++ 32 :: [a; b; c; e])
      with ([d1; d2] ++ 32 :: month_lower m ++ 32 :: [a; b; c; e]).
    pose proof (strptime_formatted y m d Hy V) as P.
    unfold two_digits, four_digits in P. fold d1 d2 a b c e in P.
    rewrite P, E0. reflexivity.
  - intros fmt Hin. apply fails_on_sound.
    pose proof earlier_formats_fail as F. rewrite forallb_forall in F.
    specialize (F fmt Hin). rewrite forallb_forall in F.
    apply (F d). apply (in_range 31). lia.
Qed.

Lemma format_then_parse_witness :
  exists dt0, mk_datetime 2025 3 7 0 0 0 = Some dt0 /\
              parse_date 0 (format_date_indian (Some 63876951000000000)) = Ok (Some dt0).
Proof.
  apply (format_then_parse 0 2025 3 7 13 30 0 63876951000000000).
  - lia.
  - vm_compute. reflexivity.
Defined.

End RoundTripProps.

Module NextYearProps.
Import Py Re PyTime Strptime DateParser RoundTripProps.

(** The text reaches the ['next year'] branch of [parse_relative_date]: it
    holds none of the phrases tested before it. *)
Definition says_next_year (text : pystr) : bool :=
  let s := strip (lower text) in
  forallb (fun w => negb (contains s (u w)))
          [ "today"; "tomorrow"; "yesterday"; "next week"; "last week"; "next month";
            "last month" ]%string
  && contains s (u "next year").

(** A [datetime] with microseconds: its date and its time of day. *)
Lemma datetime_parts (y m d H M S us dt0 : Z) :
  mk_datetime y m d H M S = Some dt0 -> 0 <= us < 1000000 ->
  valid_date y m d = true /\
  (forall v : bool,
      v && (0 <=? H) && (H <? 24) && (0 <=? M) && (M <? 60) && (0 <=? S) && (S <? 60) = v) /\
  dt0 = ((ymd2ord y m d - 1) * 86400 + H * 3600 + M * 60 + S) * 1000000 /\
  date_of (dt0 + us) = ymd2ord y m d /\
  (dt0 + us) mod us_per_day = (H * 3600 + M * 60 + S) * 1000000 + us.
Proof.
  unfold mk_datetime. destruct (valid_date y m d) eqn:V; [|discriminate].
  cbn [andb].
  destruct (0 <=? H) eqn:H0; [|discriminate]. destruct (H <? 24) eqn:H1; [|discriminate].
  destruct (0 <=? M) eqn:M0; [|discriminate]. destruct (M <? 60) eqn:M1; [|discriminate].
  destruct (0 <=? S) eqn:S0; [|discriminate]. destruct (S <? 60) eqn:S1; [|discriminate].
  cbn [andb]. intros [= <-] Hus. repeat split.
  - intros v. rewrite !andb_true_r. reflexivity.
  - apply Z.leb_le in H0, M0, S0. apply Z.ltb_lt in H1, M1, S1.
    unfold date_of, us_per_day. set (o := ymd2ord y m d).
    assert (E : (((o - 1) * 86400 + H * 3600 + M * 60 + S) * 1000000 + us)
                / (86400 * 1000000) = o - 1).
    { symmetry.
      apply (Z.div_unique_pos _ _ _ ((H * 3600 + M * 60 + S) * 1000000 + us)); lia. }
    rewrite E. lia.
  - apply Z.leb_le in H0, M0, S0. apply Z.ltb_lt in H1, M1, S1.
    unfold us_per_day. set (o := ymd2ord y m d).
    symmetry. apply (Z.mod_unique_pos _ _ (o - 1)); lia.
Qed.

Lemma year_of_ymd2ord (y m d : Z) :
  valid_date y m d = true -> fst (year_of_ord (ymd2ord y m d)) = y.
Proof.
  intros V. pose proof (ymd_of_ymd2ord y m d V) as E. unfold ymd_of_ord in E.
  destruct (year_of_ord (ymd2ord y m d)) as [y' n].
  destruct (fold_left _ _ _) as [m' d'] in E. injection E as -> _ _. reflexivity.
Qed.

Lemma leap_day_next_year (y : Z) :
  valid_date y 2 29 = true -> valid_date (y + 1) 2 29 = false.
Proof.
  unfold valid_date, days_in_month. cbn [Z.eqb Pos.eqb].
  destruct (is_leap y) eqn:L.
  - intros _. assert (L' : is_leap (y + 1) = false).
    { unfold is_leap in *. apply andb_true_iff in L as [L _]. apply Z.eqb_eq in L.
      assert (N : ((y + 1) mod 4 =? 0) = false).
      { apply Z.eqb_neq. Z.div_mod_to_equations. lia. }
      rewrite N. reflexivity. }
    rewrite L'. rewrite !andb_false_r. reflexivity.
  - intros H. rewrite andb_false_r in H. discriminate H.
Qed.

(** X30.  ['next year'] moves [now] to the same month, day and time of day of
    the following year, as [now.replace(year=now.year + 1)] does; where that
    date does not exist (29 February, or a year after 9999) the [ValueError]
    leaves [parse_relative_date]. *)
Theorem next_year_keeps_the_day (y m d H M S us : Z) (dt0 : datetime) (text : pystr) :
  mk_datetime y m d H M S = Some dt0 -> 0 <= us < 1000000 ->
  says_next_year text = true ->
  parse_relative_date (dt0 + us) text
  = match mk_datetime (y + 1) m d H M S with
    | Some dt1 => Ok (Some (dt1 + us))
    | None => Raise ValueError
    end
  /\ (m = 2 -> d = 29 -> parse_relative_date (dt0 + us) text = Raise ValueError).
Proof.
  intros E Hus Hs.
  destruct (datetime_parts y m d H M S us dt0 E Hus) as (V & T & E0 & Ed & Em).
  assert (P : parse_relative_date (dt0 + us) text
              = if valid_date (y + 1) m d
                then Ok (Some (((ymd2ord (y + 1) m d - 1) * 86400 + H * 3600 + M * 60 + S)
                               * 1000000 + us))
                else Raise ValueError).
  { unfold says_next_year in Hs. cbv zeta in Hs. apply andb_true_iff in Hs as [Hn Hy].
    cbn [forallb] in Hn.
    repeat (apply andb_true_iff in Hn as [?%negb_true_iff Hn]).
    unfold parse_relative_date. cbv zeta.
    repeat match goal with H : contains _ _ = false |- _ => rewrite H; clear H end.
    rewrite Hy. unfold replace_year, year_of. rewrite Ed.
    rewrite (year_of_ymd2ord y m d V), (ymd_of_ymd2ord y m d V). cbv beta iota.
    destruct (valid_date (y + 1) m d); [|reflexivity].
    cbn [bind]. rewrite Em. do 2 f_equal. unfold us_per_day. lia. }
  split.
  - rewrite P. unfold mk_datetime. rewrite T.
    destruct (valid_date (y + 1) m d); reflexivity.
  - intros -> ->. rewrite P, (leap_day_next_year y V). reflexivity.
Qed.

Lemma next_year_keeps_the_day_witness :
  parse_relative_date (63844797600000000 + 123456) (u " Next Year ") = Raise ValueError.
Proof.
  refine (proj2 (next_year_keeps_the_day 2024 2 29 10 0 0 123456 63844797600000000
                   (u " Next Year ") _ _ _) eq_refl eq_refl).
  - vm_compute. reflexivity.
  - lia.
  - vm_compute. reflexivity.
Defined.

End NextYearProps.
